(** * ralph-loop: plan documents, result evaluation and the orchestration loop

    A shallow embedding of the Go packages [internal/plan] (types, parser,
    writer), [internal/prompt] (result evaluation) and [internal/loop]
    (retry policy and one iteration of the runner), followed by the
    properties of the specification that were checked against them.

    Conventions of the embedding.
    - A Go [string] is a sequence of bytes: Rocq's [string] (one [ascii]
      per byte).
    - A Go [int] is a [Z]; no arithmetic of the modelled code can leave
      the 64-bit range except the conversion of decimal text, where the
      range check is written out.
    - A function that can panic returns [option]; [None] is the panic.
    - [map[int]*stepNotes] is a [gmap Z stepNotes]; an update through the
      pointer is an update of the map entry. *)

Set Warnings "-comment-terminator-in-string".

From Stdlib Require Import ZArith String Ascii List Bool Lia.
From Stdlib Require Import DecimalString DecimalN DecimalFacts.
From Stdlib Require Import SpecFloat QArith Qpower.
From stdpp Require Import base option list gmap strings.

Local Open Scope string_scope.
Local Open Scope list_scope.
Local Open Scope Z_scope.

#[local] Arguments String.append : simpl nomatch.

(* ===================================================================== *)
(** * Part I: the embedding *)
(* ===================================================================== *)

(** ** Bytes *)

Module Byte.

Definition code (c : ascii) : N := N_of_ascii c.

Definition eqb (a b : ascii) : bool := Ascii.eqb a b.

(** The newline byte, separator of [strings.Split(_, "\n")] and of
    [bufio.ScanLines]. *)
Definition LF : ascii := "010".
Definition CR : ascii := "013".

(** [asciiSpace] of package strings: tab, LF, VT, FF, CR, space. *)
Definition asciiSpace (c : ascii) : bool :=
  let n := code c in
  ((9 <=? n) && (n <=? 13) || (n =? 32))%N.

(** Character classes of Go's regexp (RE2) syntax; all are ASCII only. *)
Definition reSpace (c : ascii) : bool :=          (* \s = [\t\n\f\r ] *)
  let n := code c in
  ((n =? 9) || (n =? 10) || (n =? 12) || (n =? 13) || (n =? 32))%N.

Definition reDigit (c : ascii) : bool :=          (* \d = [0-9] *)
  let n := code c in ((48 <=? n) && (n <=? 57))%N.

Definition reWord (c : ascii) : bool :=           (* \w = [0-9A-Za-z_] *)
  let n := code c in
  ((48 <=? n) && (n <=? 57) || (65 <=? n) && (n <=? 90)
   || (97 <=? n) && (n <=? 122) || (n =? 95))%N.

Definition reDot (c : ascii) : bool :=            (* . = any byte but \n *)
  negb (eqb c LF).

End Byte.

(** ** Package strings *)

Module Strings.

Fixpoint len (s : string) : Z :=
  match s with
  | EmptyString => 0
  | String _ s' => 1 + len s'
  end.

Fixpoint rev_onto (s acc : string) : string :=
  match s with
  | EmptyString => acc
  | String c s' => rev_onto s' (String c acc)
  end.

Definition rev (s : string) : string := rev_onto s EmptyString.

(** [s[n:]] and [s[:n]] for [n] within bounds. *)
Fixpoint drop (n : nat) (s : string) : string :=
  match n, s with
  | O, _ => s
  | S n', String _ s' => drop n' s'
  | S _, EmptyString => EmptyString
  end.

Fixpoint take (n : nat) (s : string) : string :=
  match n, s with
  | O, _ => EmptyString
  | S n', String c s' => String c (take n' s')
  | S _, EmptyString => EmptyString
  end.

(** [stripPrefix p s] is the rest of [s] after [p], when [s] begins
    with [p]. *)
Fixpoint stripPrefix (p s : string) : option string :=
  match p with
  | EmptyString => Some s
  | String a p' =>
      match s with
      | String b s' => if Byte.eqb a b then stripPrefix p' s' else None
      | EmptyString => None
      end
  end.

Definition HasPrefix (s prefix : string) : bool :=
  match stripPrefix prefix s with Some _ => true | None => false end.

Definition TrimPrefix (s prefix : string) : string :=
  match stripPrefix prefix s with Some r => r | None => s end.

(** [strings.Index]: byte offset of the first occurrence, or -1. *)
Fixpoint Index (s substr : string) : Z :=
  if HasPrefix s substr then 0
  else match s with
       | EmptyString => -1
       | String _ s' =>
           let i := Index s' substr in
           if i <? 0 then -1 else 1 + i
       end.

Definition Contains (s substr : string) : bool := 0 <=? Index s substr.

(** [strings.Split(s, sep)] for a separator of one byte (the only use
    in the sources is [sep = "\n"]): always at least one piece. *)
Fixpoint Split (s : string) (sep : ascii) : list string :=
  match s with
  | EmptyString => [EmptyString]
  | String c s' =>
      if Byte.eqb c sep then EmptyString :: Split s' sep
      else match Split s' sep with
           | piece :: rest => String c piece :: rest
           | [] => [String c EmptyString]
           end
  end.

Fixpoint Join (elems : list string) (sep : string) : string :=
  match elems with
  | [] => EmptyString
  | [e] => e
  | e :: rest => e +:+ sep +:+ Join rest sep
  end.

(** White space of [unicode.IsSpace] beyond ASCII, in UTF-8:
    U+0085, U+00A0, U+1680, U+2000..U+200A, U+2028, U+2029, U+202F,
    U+205F, U+3000. *)
Definition isSpace2 (a b : ascii) : bool :=
  let x := Byte.code a in let y := Byte.code b in
  ((x =? 194) && ((y =? 133) || (y =? 160)))%N.

Definition isSpace3 (a b c : ascii) : bool :=
  let x := Byte.code a in let y := Byte.code b in let z := Byte.code c in
  ((x =? 225) && (y =? 154) && (z =? 128)
   || (x =? 226) && (y =? 128)
      && ((128 <=? z) && (z <=? 138) || (z =? 168) || (z =? 169) || (z =? 175))
   || (x =? 226) && (y =? 129) && (z =? 159)
   || (x =? 227) && (y =? 128) && (z =? 128))%N.

(** [TrimLeftFunc(s, unicode.IsSpace)]. *)
Fixpoint trimLeft (s : string) : string :=
  match s with
  | EmptyString => s
  | String a t =>
      if Byte.asciiSpace a then trimLeft t
      else match t with
           | String b u =>
               if isSpace2 a b then trimLeft u
               else match u with
                    | String c v => if isSpace3 a b c then trimLeft v else s
                    | EmptyString => s
                    end
           | EmptyString => s
           end
  end.

(** [TrimRightFunc(s, unicode.IsSpace)], on the reversed text: the last
    rune is decoded from the bytes that end the string. *)
Fixpoint trimLeftRev (s : string) : string :=
  match s with
  | EmptyString => s
  | String a t =>
      if Byte.asciiSpace a then trimLeftRev t
      else match t with
           | String b u =>
               if isSpace2 b a then trimLeftRev u
               else match u with
                    | String c v => if isSpace3 c b a then trimLeftRev v else s
                    | EmptyString => s
                    end
           | EmptyString => s
           end
  end.

Definition trimRight (s : string) : string := rev (trimLeftRev (rev s)).

Definition TrimSpace (s : string) : string := trimRight (trimLeft s).

End Strings.

(** ** Package fmt: the verb [%d], and [Sscanf("%d")] on decimal text *)

Module Fmt.

(** [fmt.Sprintf("%d", n)]. *)
Definition itoa (n : Z) : string :=
  match n with
  | Z0 => "0"
  | Zpos p => NilEmpty.string_of_uint (N.to_uint (Npos p))
  | Zneg p => "-" +:+ NilEmpty.string_of_uint (N.to_uint (Npos p))
  end.

Definition maxInt : Z := 9223372036854775807.

(** [fmt.Sscanf(s, "%d", &v)] for a text [s] of decimal digits (every
    call site passes the capture of [(\d+)]): [Some] of the value, or
    [None] when the scan reports an error (the value does not fit a
    64-bit [int]) and [v] keeps what it held. *)
Definition scanInt (s : string) : option Z :=
  match NilEmpty.uint_of_string s with
  | Some u =>
      let v := Z.of_N (N.of_uint u) in
      if v <=? maxInt then Some v else None
  | None => None
  end.

End Fmt.

(** ** Package regexp

    The patterns of the sources use literals, the classes [\s], [\d],
    [\w], [.] and bracket sets, [+] and [*] on a class, one optional
    non-capturing group, capture groups and the anchors [^] and [$].
    [rmatch] is the backtracking matcher with Go's leftmost-first
    preference: [+], [*] and [?] are greedy and give back on failure of
    what follows. *)

Module Regexp.

Inductive re : Type :=
| Lit (s : string)                 (* literal text *)
| Cls (p : ascii -> bool)          (* one byte of a class *)
| Star (p : ascii -> bool)         (* class*  *)
| Plus (p : ascii -> bool)         (* class+  *)
| Opt (r : re)                     (* (?:r)?  *)
| Grp (i : nat) (r : re)           (* (r), capture group number i *)
| Eol                              (* $ *)
| Seq (r1 r2 : re).

Declare Scope re_scope.
Delimit Scope re_scope with re.
Bind Scope re_scope with re.
Infix ">>>" := Seq (at level 62, right associativity) : re_scope.

(** Captures made so far, most recent first. *)
Definition caps : Type := list (nat * string).

Fixpoint group (cs : caps) (i : nat) : string :=
  match cs with
  | [] => EmptyString
  | (j, s) :: cs' => if Nat.eqb i j then s else group cs' i
  end.

Definition result : Type := option (string * caps).

(** Greedy iteration of a class: the longest run first, then shorter
    ones. *)
Fixpoint star (p : ascii -> bool) (s : string) (k : string -> result) : result :=
  match s with
  | String c s' =>
      if p c then
        match star p s' k with
        | Some x => Some x
        | None => k s
        end
      else k s
  | EmptyString => k s
  end.

(** [rmatch r s cs k]: match [r] at the head of [s], then continue with
    [k] on the rest of the text and the captures. *)
Fixpoint rmatch (r : re) (s : string) (cs : caps)
         (k : string -> caps -> result) : result :=
  match r with
  | Lit l =>
      match Strings.stripPrefix l s with
      | Some s' => k s' cs
      | None => None
      end
  | Cls p =>
      match s with
      | String c s' => if p c then k s' cs else None
      | EmptyString => None
      end
  | Star p => star p s (fun s' => k s' cs)
  | Plus p =>
      match s with
      | String c s' => if p c then star p s' (fun s'' => k s'' cs) else None
      | EmptyString => None
      end
  | Opt r' =>
      match rmatch r' s cs k with
      | Some x => Some x
      | None => k s cs
      end
  | Grp i r' =>
      rmatch r' s cs
        (fun s' cs' =>
           k s' ((i, Strings.take (String.length s - String.length s') s) :: cs'))
  | Eol =>
      match s with
      | EmptyString => k s cs
      | String _ _ => None
      end
  | Seq r1 r2 => rmatch r1 s cs (fun s' cs' => rmatch r2 s' cs' k)
  end.

(** [FindStringSubmatch] for a pattern [^r]: the match is tried at
    offset 0 only; [None] is Go's [nil]. *)
Definition FindStringSubmatch (r : re) (s : string) : option caps :=
  match rmatch r s [] (fun rest cs => Some (rest, cs)) with
  | Some (_, cs) => Some cs
  | None => None
  end.

Definition MatchString (r : re) (s : string) : bool :=
  match FindStringSubmatch r s with Some _ => true | None => false end.

(** [ReplaceAllString] for an unanchored pattern [r] that matches no
    empty text and a replacement without [$]: every leftmost match is
    replaced, the scan resumes after it. *)
Fixpoint replaceAll (fuel : nat) (r : re) (s repl : string) : string :=
  match fuel with
  | O => s
  | S fuel' =>
      match s with
      | EmptyString => EmptyString
      | String c s' =>
          match rmatch r s [] (fun rest cs => Some (rest, cs)) with
          | Some (rest, _) =>
              if (String.length rest <? String.length s)%nat
              then repl +:+ replaceAll fuel' r rest repl
              else String c (replaceAll fuel' r s' repl)
          | None => String c (replaceAll fuel' r s' repl)
          end
      end
  end.

Definition ReplaceAllString (r : re) (s repl : string) : string :=
  replaceAll (String.length s) r s repl.

(** A bracket set [[...]] listing its bytes. *)
Fixpoint oneOf (set : string) (c : ascii) : bool :=
  match set with
  | EmptyString => false
  | String a set' => Byte.eqb a c || oneOf set' c
  end.

End Regexp.

(** ** Package time: the clock reading and its rendering *)

Module Time.

(** What [time.Now()] yields, as far as the layout
    ["2006-01-02 15:04:05"] shows it. *)
Record t : Type := mk {
  year : Z; month : Z; day : Z; hour : Z; minute : Z; second : Z
}.

(** [appendInt(b, x, width)]: decimal, zero-padded to [width]. *)
Fixpoint zeros (n : nat) : string :=
  match n with O => EmptyString | S n' => String "0" (zeros n') end.

Definition pad (width : nat) (x : Z) : string :=
  let d := Fmt.itoa (Z.abs x) in
  (if x <? 0 then "-" else EmptyString)
    +:+ zeros (width - String.length d) +:+ d.

(** [t.Format("2006-01-02 15:04:05")]. *)
Definition Format (x : t) : string :=
  pad 4 (year x) +:+ "-" +:+ pad 2 (month x) +:+ "-" +:+ pad 2 (day x)
    +:+ " " +:+ pad 2 (hour x) +:+ ":" +:+ pad 2 (minute x)
    +:+ ":" +:+ pad 2 (second x).

End Time.

(** ** Package bufio: a [Scanner] with [ScanLines] over a string reader *)

Module Bufio.

(** [bufio.MaxScanTokenSize]: the buffer of a Scanner grows up to this
    size; a line that does not fit with room to spare for its
    terminator stops the scan with [ErrTooLong]. *)
Definition MaxScanTokenSize : Z := 64 * 1024.

Definition dropCR (s : string) : string :=
  match Strings.rev s with
  | String c r => if Byte.eqb c Byte.CR then Strings.rev r else s
  | EmptyString => s
  end.

(** The text cut at each newline; [ScanLines] yields no token for the
    empty remainder at the end of input. *)
Fixpoint dropFinalEmpty (pieces : list string) : list string :=
  match pieces with
  | [] => []
  | [EmptyString] => []
  | p :: rest => p :: dropFinalEmpty rest
  end.

Definition pieces (content : string) : list string :=
  dropFinalEmpty (Strings.Split content Byte.LF).

(** [scanner.Err() != nil] after the loop [for scanner.Scan()]. *)
Definition Err (content : string) : bool :=
  existsb (fun p => MaxScanTokenSize <=? Strings.len p) (pieces content).

(** The values of [scanner.Text()], in order. *)
Definition Lines (content : string) : list string :=
  map dropCR (pieces content).

End Bufio.

(** ** Package plan, types.go *)

Module Plan.

Definition StepStatus : Type := string.

Definition StatusPending : StepStatus := "pending".
Definition StatusCompleted : StepStatus := "completed".
Definition StatusFailed : StepStatus := "failed".
Definition StatusSkipped : StepStatus := "skipped".

Record Step : Type := mkStep {
  Number : Z;
  Description : string;
  Status : StepStatus;
  LastRun : option Time.t;
  Notes : string;
  RetryCount : Z
}.

Record Plan : Type := mkPlan {
  ProjectName : string;
  Context : string;
  Steps : list Step;
  RawContent : string
}.

(** [NextStep]: the first pending or failed step, [None] for [nil]. *)
Fixpoint nextStep (steps : list Step) : option Step :=
  match steps with
  | [] => None
  | s :: rest =>
      if String.eqb (Status s) StatusPending || String.eqb (Status s) StatusFailed
      then Some s
      else nextStep rest
  end.

Definition NextStep (p : Plan) : option Step := nextStep (Steps p).

Definition IsComplete (p : Plan) : bool :=
  forallb (fun s => String.eqb (Status s) StatusCompleted
                    || String.eqb (Status s) StatusSkipped) (Steps p)
  && (0 <? Z.of_nat (length (Steps p))).

(** [StepResult]; the fields [Status] and [RetryCount] of the Go struct
    are [ResStatus] and [ResRetryCount] here (the names are taken by
    [Step]). The zero value of [ResStatus] is the empty string. *)
Record StepResult : Type := mkResult {
  Success : bool;
  Output : string;
  Reason : string;
  ResStatus : StepStatus;
  ResRetryCount : Z
}.

End Plan.

(** ** Package plan, parser.go *)

Module Parser.

Import Regexp Plan.
Local Open Scope re_scope.

(** Go source: "^-\s+\[([ x!\-])\]\s+(?:Step\s+(\d+):\s+)?(.+)$" *)
Definition stepLineRegex : re :=
  Lit "-" >>> Plus Byte.reSpace >>> Lit "[" >>> Grp 1 (Cls (oneOf " x!-"))
    >>> Lit "]" >>> Plus Byte.reSpace
    >>> Opt (Lit "Step" >>> Plus Byte.reSpace >>> Grp 2 (Plus Byte.reDigit)
               >>> Lit ":" >>> Plus Byte.reSpace)
    >>> Grp 3 (Plus Byte.reDot) >>> Eol.

(** Go source: "^#\s+Project:\s+(.+)$" *)
Definition projectNameRegex : re :=
  Lit "#" >>> Plus Byte.reSpace >>> Lit "Project:" >>> Plus Byte.reSpace
    >>> Grp 1 (Plus Byte.reDot) >>> Eol.

(** Go source: "^###\s+Step\s+(\d+)$" *)
Definition notesSectionRegex : re :=
  Lit "###" >>> Plus Byte.reSpace >>> Lit "Step" >>> Plus Byte.reSpace
    >>> Grp 1 (Plus Byte.reDigit) >>> Eol.

(** Go source: "^\*\*Status\*\*:\s+(\w+)$" *)
Definition statusRegex : re :=
  Lit "**Status**:" >>> Plus Byte.reSpace >>> Grp 1 (Plus Byte.reWord) >>> Eol.

(** Go source: "^\*\*Last Run\*\*:\s+(.+)$" *)
Definition lastRunRegex : re :=
  Lit "**Last Run**:" >>> Plus Byte.reSpace >>> Grp 1 (Plus Byte.reDot) >>> Eol.

(** Go source: "^\*\*Notes\*\*:\s+(.*)$" *)
Definition notesRegex : re :=
  Lit "**Notes**:" >>> Plus Byte.reSpace >>> Grp 1 (Star Byte.reDot) >>> Eol.

(** Go source: "^\*\*Retries\*\*:\s+(\d+)$" *)
Definition retriesRegex : re :=
  Lit "**Retries**:" >>> Plus Byte.reSpace >>> Grp 1 (Plus Byte.reDigit) >>> Eol.

(** Go source: "^##\s+Context\s*$" *)
Definition contextSectionRegex : re :=
  Lit "##" >>> Plus Byte.reSpace >>> Lit "Context" >>> Star Byte.reSpace >>> Eol.

(** Go source: "^##\s+\w+" *)
Definition sectionHeaderRegex : re :=
  Lit "##" >>> Plus Byte.reSpace >>> Plus Byte.reWord.

Record stepNotes : Type := mkNotes {
  status : string;
  lastRun : string;
  notes : string;
  retryCount : Z
}.

Definition noNotes : stepNotes := mkNotes EmptyString EmptyString EmptyString 0.

Definition parseCheckbox (marker : string) : StepStatus :=
  if String.eqb marker "x" then StatusCompleted
  else if String.eqb marker "!" then StatusFailed
  else if String.eqb marker "-" then StatusSkipped
  else StatusPending.

Definition parseStepNumber (s : string) : Z :=
  match Fmt.scanInt s with Some n => n | None => 0 end.

(** The variables of [Parse] that live across the scan. *)
Record scan : Type := mkScan {
  projectName : string;
  context : string;
  steps : list Step;
  stepNumber : Z;
  notesMap : gmap Z stepNotes;
  currentNoteStep : Z;
  inNotesSection : bool;
  inContextSection : bool;
  contextLines : list string
}.

Definition scan0 : scan :=
  mkScan EmptyString EmptyString [] 0 ∅ 0 false false [].

(** [notes := notesMap[currentNoteStep]; notes.f = v]: the entry was
    made when the block's header was read. *)
Definition updNotes (st : scan) (f : stepNotes -> stepNotes) : scan :=
  let cur := currentNoteStep st in
  let old := default noNotes (notesMap st !! cur) in
  mkScan (projectName st) (context st) (steps st) (stepNumber st)
         (<[cur := f old]> (notesMap st))
         (currentNoteStep st) (inNotesSection st) (inContextSection st)
         (contextLines st).

(** The part of the loop body from the step-line check on. *)
Definition scanBody (st : scan) (line : string) : scan :=
  match FindStringSubmatch stepLineRegex line with
  | Some matches =>
      let n := stepNumber st + 1 in
      let step := mkStep n (Strings.TrimSpace (group matches 3))
                         (parseCheckbox (group matches 1)) None EmptyString 0 in
      mkScan (projectName st) (context st) (steps st ++ [step]) n
             (notesMap st) (currentNoteStep st) (inNotesSection st)
             (inContextSection st) (contextLines st)
  | None =>
  match FindStringSubmatch notesSectionRegex line with
  | Some matches =>
      let num := parseStepNumber (group matches 1) in
      mkScan (projectName st) (context st) (steps st) (stepNumber st)
             (match notesMap st !! num with
              | Some _ => notesMap st
              | None => <[num := noNotes]> (notesMap st)
              end)
             num true (inContextSection st) (contextLines st)
  | None =>
  if inNotesSection st && (0 <? currentNoteStep st) then
    match FindStringSubmatch statusRegex line with
    | Some matches =>
        updNotes st (fun n => mkNotes (group matches 1) (lastRun n) (notes n) (retryCount n))
    | None =>
    match FindStringSubmatch lastRunRegex line with
    | Some matches =>
        updNotes st (fun n => mkNotes (status n) (group matches 1) (notes n) (retryCount n))
    | None =>
    match FindStringSubmatch notesRegex line with
    | Some matches =>
        updNotes st (fun n => mkNotes (status n) (lastRun n) (group matches 1) (retryCount n))
    | None =>
    match FindStringSubmatch retriesRegex line with
    | Some matches =>
        updNotes st (fun n =>
          mkNotes (status n) (lastRun n) (notes n)
                  (match Fmt.scanInt (group matches 1) with
                   | Some v => v
                   | None => retryCount n
                   end))
    | None =>
        if Strings.HasPrefix line "#" then
          mkScan (projectName st) (context st) (steps st) (stepNumber st)
                 (notesMap st) 0 false (inContextSection st) (contextLines st)
        else st
    end end end end
  else st
  end end.

(** One turn of [for scanner.Scan()]. *)
Definition scanLine (st : scan) (line : string) : scan :=
  match FindStringSubmatch projectNameRegex line with
  | Some matches =>
      mkScan (Strings.TrimSpace (group matches 1)) (context st) (steps st)
             (stepNumber st) (notesMap st) (currentNoteStep st)
             (inNotesSection st) (inContextSection st) (contextLines st)
  | None =>
  if MatchString contextSectionRegex line then
    mkScan (projectName st) (context st) (steps st) (stepNumber st)
           (notesMap st) (currentNoteStep st) (inNotesSection st)
           true (contextLines st)
  else if inContextSection st then
    if MatchString sectionHeaderRegex line then
      scanBody
        (mkScan (projectName st)
                (Strings.TrimSpace (Strings.Join (contextLines st) (String Byte.LF EmptyString)))
                (steps st) (stepNumber st) (notesMap st) (currentNoteStep st)
                (inNotesSection st) false [])
        line
    else
      mkScan (projectName st) (context st) (steps st) (stepNumber st)
             (notesMap st) (currentNoteStep st) (inNotesSection st)
             true (contextLines st ++ [line])
  else scanBody st line
  end.

Definition scanAll (lines : list string) : scan := fold_left scanLine lines scan0.

Section Parse.

(** [time.Parse("2006-01-02 15:04:05", _)], [None] when it reports
    an error. *)
Variable time_Parse : string -> option Time.t.

(** The body of the loop "Apply notes to steps". *)
Definition applyNotes (m : gmap Z stepNotes) (s : Step) : Step :=
  match m !! Number s with
  | Some n =>
      mkStep (Number s) (Description s) (Status s)
             (if negb (String.eqb (lastRun n) EmptyString) && negb (String.eqb (lastRun n) "N/A")
              then match time_Parse (lastRun n) with
                   | Some t => Some t
                   | None => LastRun s
                   end
              else LastRun s)
             (if negb (String.eqb (notes n) "(none)") then notes n else Notes s)
             (retryCount n)
  | None => s
  end.

Definition finish (content : string) (st : scan) : Plan :=
  mkPlan (projectName st) (context st)
         (map (applyNotes (notesMap st)) (steps st)) content.

(** [Parse]: [None] is the error return. *)
Definition Parse (content : string) : option Plan :=
  if Bufio.Err content then None
  else Some (finish content (scanAll (Bufio.Lines content))).

End Parse.

End Parser.

(** ** Package plan, writer.go *)

Module Writer.

Import Regexp Plan Parser.
Local Open Scope re_scope.

Definition nl : string := String Byte.LF EmptyString.

(** Go source: "\[([ x!])\]" (compiled inside [updateCheckbox]). *)
Definition checkboxRegex : re :=
  Lit "[" >>> Grp 1 (Cls (oneOf " x!")) >>> Lit "]".

Definition updateCheckbox (line marker : string) : string :=
  ReplaceAllString checkboxRegex line ("[" +:+ marker +:+ "]").

(** The loop of [summarizeOutput], over the lines from the last to the
    first. *)
Fixpoint lastMeaningful (revLines : list string) : string :=
  match revLines with
  | [] => "Completed successfully"
  | l :: rest =>
      let line := Strings.TrimSpace l in
      if negb (String.eqb line EmptyString) && negb (Strings.HasPrefix line "STEP_")
      then if 100 <? Strings.len line
           then Strings.take 97 line +:+ "..."
           else line
      else lastMeaningful rest
  end.

Definition summarizeOutput (output : string) : string :=
  let lines := Strings.Split (Strings.TrimSpace output) Byte.LF in
  if Z.of_nat (length lines) =? 0 then "(no output)"
  else lastMeaningful (rev lines).

(** The text written after [**Status**:] and after [**Notes**:]. *)
Definition statusText (result : StepResult) : string :=
  if negb (Success result) then "failed" else "completed".

Definition notesText (result : StepResult) : string :=
  let notes := summarizeOutput (Output result) in
  if negb (Success result) && negb (String.eqb (Reason result) EmptyString)
  then "Failed: " +:+ Reason result
  else notes.

Definition createNotesSectionForStep
           (stepNum : Z) (result : StepResult) (now : Time.t) : string :=
  "### Step " +:+ Fmt.itoa stepNum +:+ nl
    +:+ "**Status**: " +:+ statusText result +:+ nl
    +:+ "**Last Run**: " +:+ Time.Format now +:+ nl
    +:+ "**Notes**: " +:+ notesText result.

Definition insertAfter (slice : list string) (index : nat) (value : string)
  : list string :=
  if (length slice <=? index)%nat then slice ++ [EmptyString; value]
  else take index slice ++ [EmptyString; value] ++ drop index slice.

(** First pass: the checkbox of the [stepNum]-th step line, and
    whether any annotation header exists. The state is
    [(currentStep, notesSectionExists)]. *)
Definition firstLine (stepNum : Z) (result : StepResult)
           (st : Z * bool) (line : string) : (Z * bool) * string :=
  let '(currentStep, notesSectionExists) := st in
  let '(currentStep, line') :=
    match FindStringSubmatch stepLineRegex line with
    | Some _ =>
        let currentStep := currentStep + 1 in
        if currentStep =? stepNum
        then (currentStep,
              updateCheckbox line (if Success result then "x" else "!"))
        else (currentStep, line)
    | None => (currentStep, line)
    end in
  let notesSectionExists :=
    if MatchString notesSectionRegex line then true else notesSectionExists in
  ((currentStep, notesSectionExists), line').

Fixpoint firstPass (stepNum : Z) (result : StepResult)
         (st : Z * bool) (lines : list string) : (Z * bool) * list string :=
  match lines with
  | [] => (st, [])
  | line :: rest =>
      let '(st1, line') := firstLine stepNum result st line in
      let '(st2, rest') := firstPass stepNum result st1 rest in
      (st2, line' :: rest')
  end.

(** Second pass: the fields of the blocks of [stepNum]. *)
Record pass2 : Type := mkPass2 {
  inNotesSection : bool;
  notesStepNum : Z;
  foundNotesSection : bool
}.

Definition pass2_0 : pass2 := mkPass2 false 0 false.

(** One turn of the second loop: the new state and the line appended
    to [output]; [None] when [FindStringSubmatch(line)[1]] indexes the
    nil slice. *)
Definition secondLine (stepNum : Z) (result : StepResult) (now : Time.t)
           (st : pass2) (line : string) : option (pass2 * string) :=
  let st :=
    match FindStringSubmatch notesSectionRegex line with
    | Some matches =>
        let num := parseStepNumber (group matches 1) in
        mkPass2 true num
                (if num =? stepNum then true else foundNotesSection st)
    | None => st
    end in
  let line' :=
    if inNotesSection st && (notesStepNum st =? stepNum) then
      if MatchString statusRegex line then
        "**Status**: " +:+ statusText result
      else if MatchString lastRunRegex line then
        "**Last Run**: " +:+ Time.Format now
      else if MatchString notesRegex line then
        "**Notes**: " +:+ notesText result
      else line
    else line in
  if inNotesSection st && Strings.HasPrefix line "### Step" then
    match FindStringSubmatch notesSectionRegex line with
    | None => None
    | Some matches =>
        if negb (notesStepNum st =? parseStepNumber (group matches 1))
        then Some (mkPass2 false (notesStepNum st) (foundNotesSection st), line')
        else Some (st, line')
    end
  else Some (st, line').

Fixpoint secondPass (stepNum : Z) (result : StepResult) (now : Time.t)
         (st : pass2) (lines : list string) : option (pass2 * list string) :=
  match lines with
  | [] => Some (st, [])
  | line :: rest =>
      match secondLine stepNum result now st line with
      | None => None
      | Some (st1, line') =>
          match secondPass stepNum result now st1 rest with
          | None => None
          | Some (st2, rest') => Some (st2, line' :: rest')
          end
      end
  end.

(** The backward search [for i := len(output) - 1; i >= 0; i--]: the
    greatest index of a line that begins with "## Notes" or
    "### Step". *)
Definition boundary (line : string) : bool :=
  Strings.HasPrefix line "## Notes" || Strings.HasPrefix line "### Step".

Fixpoint lastBoundary (output : list string) (i : nat) (found : option nat)
  : option nat :=
  match output with
  | [] => found
  | line :: rest =>
      lastBoundary rest (S i) (if boundary line then Some i else found)
  end.

(** The loop that advances [insertIdx] over the lines that follow. *)
Fixpoint advance (output : list string) (insertIdx : nat) : nat :=
  match output with
  | line :: rest =>
      if negb (String.eqb (Strings.TrimSpace line) EmptyString)
         || Strings.HasPrefix (Strings.TrimSpace line) "**"
      then advance rest (S insertIdx)
      else insertIdx
  | [] => insertIdx
  end.

Definition insertBlock (output : list string) (newSection : string)
  : list string :=
  match lastBoundary output 0 None with
  | Some i =>
      let insertIdx := advance (drop (S i) output) (S i) in
      insertAfter output insertIdx newSection
  | None => output
  end.

(** [updateStepInContent]; [now] is the reading of the clock, [None]
    the panic of the second pass. *)
Definition updateStepInContent
           (content : string) (stepNum : Z) (result : StepResult) (now : Time.t)
  : option string :=
  let lines := Strings.Split content Byte.LF in
  let '((_, notesSectionExists), lines) :=
    firstPass stepNum result (0, false) lines in
  match secondPass stepNum result now pass2_0 lines with
  | None => None
  | Some (st, output) =>
      let output :=
        if negb notesSectionExists then
          output ++ [EmptyString; "## Notes"; EmptyString;
                     createNotesSectionForStep stepNum result now]
        else if negb (foundNotesSection st) then
          insertBlock output (createNotesSectionForStep stepNum result now)
        else output in
      Some (Strings.Join output nl)
  end.

End Writer.

(** ** Package prompt, builder.go *)

Module Prompt.

Import Plan.

Definition nl : string := Writer.nl.

(** The lines of the "Full Plan" part of the prompt. *)
Fixpoint planLines (steps : list Step) : string :=
  match steps with
  | [] => EmptyString
  | s :: rest =>
      let status :=
        if String.eqb (Status s) StatusCompleted then "[x]"
        else if String.eqb (Status s) StatusFailed then "[!]"
        else "[ ]" in
      "- " +:+ status +:+ " Step " +:+ Fmt.itoa (Number s) +:+ ": "
        +:+ Description s +:+ nl +:+ planLines rest
  end.

Definition Build (p : Plan) (step : Step) : string :=
  "# Task: Execute a Step in the Implementation Plan" +:+ nl +:+ nl
  +:+ "## Project Overview" +:+ nl
  +:+ "Project: " +:+ ProjectName p +:+ nl +:+ nl
  +:+ (if negb (String.eqb (Context p) EmptyString)
       then "### Project Context" +:+ nl +:+ Context p +:+ nl +:+ nl
       else EmptyString)
  +:+ "## Full Plan" +:+ nl
  +:+ planLines (Steps p)
  +:+ nl
  +:+ "## Your Current Task" +:+ nl
  +:+ "**Step " +:+ Fmt.itoa (Number step) +:+ "**: " +:+ Description step
  +:+ nl +:+ nl
  +:+ (if String.eqb (Status step) StatusFailed
          && negb (String.eqb (Notes step) EmptyString)
       then "## Previous Attempt" +:+ nl
            +:+ "This step failed previously. Here are the notes from the last attempt:"
            +:+ nl +:+ Notes step +:+ nl +:+ nl
            +:+ "Please try a different approach or fix the issues mentioned above."
            +:+ nl +:+ nl
       else EmptyString)
  +:+ "## Instructions" +:+ nl
  +:+ "1. Focus ONLY on completing the current step (Step "
  +:+ Fmt.itoa (Number step) +:+ ")" +:+ nl
  +:+ "2. Do not work on other steps" +:+ nl
  +:+ "3. When you have completed the step successfully, output exactly:" +:+ nl
  +:+ "   STEP_COMPLETE" +:+ nl
  +:+ "4. If you encounter an error you cannot resolve, output exactly:" +:+ nl
  +:+ "   STEP_FAILED: <brief description of what went wrong>" +:+ nl
  +:+ "5. Make sure STEP_COMPLETE or STEP_FAILED appears at the end of your response"
  +:+ nl +:+ nl
  +:+ "Begin working on the step now." +:+ nl.

Definition noMarkerReason : string :=
  "No STEP_COMPLETE or STEP_FAILED marker found in output".

(** What one turn of the loop of [ParseResult] returns for the line
    [lines[i]], [None] when the loop goes on to the line before. *)
Definition checkLine (output : string) (rawLine : string) : option StepResult :=
  let line := Strings.TrimSpace rawLine in
  if String.eqb line "STEP_COMPLETE" then
    Some (mkResult true output EmptyString EmptyString 0)
  else if Strings.HasPrefix line "STEP_FAILED:" then
    Some (mkResult false output
            (Strings.TrimSpace (Strings.TrimPrefix line "STEP_FAILED:"))
            EmptyString 0)
  else if Strings.Contains line "STEP_COMPLETE" then
    Some (mkResult true output EmptyString EmptyString 0)
  else if Strings.Contains line "STEP_FAILED:" then
    let idx := Strings.Index line "STEP_FAILED:" in
    Some (mkResult false output
            (Strings.TrimSpace
               (Strings.drop (Z.to_nat (idx + Strings.len "STEP_FAILED:")) line))
            EmptyString 0)
  else None.

(** The loop [for i := len(lines) - 1; i >= 0; i--], on the lines in
    reverse order. *)
Fixpoint scanMarkers (output : string) (revLines : list string) : StepResult :=
  match revLines with
  | [] => mkResult false output noMarkerReason EmptyString 0
  | l :: rest =>
      match checkLine output l with
      | Some r => r
      | None => scanMarkers output rest
      end
  end.

Definition ParseResult (output : string) : StepResult :=
  scanMarkers output (rev (Strings.Split output Byte.LF)).

End Prompt.

(** ** Package loop *)

Module Loop.

Import Plan.

(** A [time.Duration] is a count of nanoseconds. *)
Definition Duration : Type := Z.
Definition Second : Duration := 1000000000.
Definition Minute : Duration := 60 * Second.

Record Config : Type := mkConfig {
  Timeout : Duration;
  MaxRetries : Z;
  RetryDelay : Duration;
  BackoffFactor : spec_float        (* a float64 *)
}.

(** The float64 2.0. *)
Definition two : spec_float := S754_finite false 4503599627370496 (-51).

Definition DefaultConfig : Config :=
  mkConfig (30 * Minute) 3 (5 * Second) two.

(** [float64(d)] for an int64 [d]: rounding to nearest, ties to even. *)
Definition float64 (d : Z) : spec_float := binary_normalize 53 1024 d 0 false.

(** [time.Duration(f)] for a float64 [f]: truncation toward zero; the
    result of Go for a value outside int64 (or not a number) depends on
    the implementation and is [None] here. *)
Definition toInt64 (f : spec_float) : option Z :=
  match f with
  | S754_zero _ => Some 0
  | S754_finite s m e =>
      let a := if 0 <=? e then Z.pos m * 2 ^ e else Z.pos m / 2 ^ (- e) in
      let v := if s then - a else a in
      if (- 9223372036854775808 <=? v) && (v <=? 9223372036854775807)
      then Some v else None
  | _ => None
  end.

(** [delay = time.Duration(float64(delay) * r.config.BackoffFactor)] *)
Definition scale (factor : spec_float) (delay : Duration) : option Duration :=
  toInt64 (SFmul 53 1024 (float64 delay) factor).

Fixpoint backoffLoop (factor : spec_float) (turns : nat) (delay : Duration)
  : option Duration :=
  match turns with
  | O => Some delay
  | S turns' =>
      match scale factor delay with
      | Some delay' => backoffLoop factor turns' delay'
      | None => None
      end
  end.

(** [calculateBackoff]: the loop runs for [i = 0 .. retryCount-2]. *)
Definition calculateBackoff (config : Config) (retryCount : Z) : option Duration :=
  backoffLoop (BackoffFactor config) (Z.to_nat (retryCount - 1)) (RetryDelay config).

(** What the surroundings answer during one turn of [runLoop]: whether
    the context is cancelled at the top of the turn and during the
    backoff wait, and what [agent.Run] and the two contexts report. *)
Record Run : Type := mkRun {
  runOutput : string;
  runErr : bool;                  (* err != nil *)
  deadlineExceeded : bool;        (* stepCtx.Err() == context.DeadlineExceeded *)
  parentCancelled : bool          (* ctx.Err() != nil, after the run *)
}.

Record Env : Type := mkEnv {
  cancelledAtTop : bool;
  cancelledInWait : bool;
  agentRun : string -> Run;       (* the agent, on the prompt *)
  now : Time.t
}.

(** What a turn does to the outside. *)
Inductive Event : Type :=
| Wait (delay : option Duration)
| Invoke (promptText : string)
| WriteFile (content : string).

(** How a turn ends: the next turn, or the return of [runLoop]. *)
Inductive Next : Type :=
| Continue
| ReturnNil
| ReturnErr (why : string)
| Panic.

Section RunLoop.

Variable time_Parse : string -> option Time.t.
(** [fmt.Sprintf("%v", d)] for a [time.Duration]. *)
Variable Duration_String : Duration -> string.
Variable config : Config.

(** [plan.UpdateStep] on the plan file, a cell that holds [content]. *)
Definition UpdateStep (env : Env) (content : string) (stepNum : Z)
           (result : StepResult) : option string :=
  Writer.updateStepInContent content stepNum result (now env).

Definition persist (env : Env) (content : string) (stepNum : Z)
           (result : StepResult) (events : list Event) (after : Next)
  : string * list Event * Next :=
  match UpdateStep env content stepNum result with
  | Some content' => (content', events ++ [WriteFile content'], after)
  | None => (content, events, Panic)
  end.

(** One turn of the [for] loop of [runLoop] on the plan file that
    holds [content]: the content afterwards, what happened, and how
    the turn ends. *)
Definition turn (env : Env) (content : string) : string * list Event * Next :=
  if cancelledAtTop env then (content, [], ReturnErr "context canceled")
  else
  match Parser.Parse time_Parse content with
  | None => (content, [], ReturnErr "failed to parse plan")
  | Some p =>
  match NextStep p with
  | None => (content, [], ReturnNil)
  | Some step =>
  if MaxRetries config <=? RetryCount step then
    persist env content (Number step)
      (mkResult false EmptyString
         ("Skipped after " +:+ Fmt.itoa (MaxRetries config) +:+ " failed attempts")
         StatusSkipped (RetryCount step))
      [] Continue
  else
  let waits :=
    if String.eqb (Status step) StatusFailed && (0 <? RetryCount step)
    then [Wait (calculateBackoff config (RetryCount step))] else [] in
  if match waits with [] => false | _ => cancelledInWait env end
  then (content, waits, ReturnErr "context canceled")
  else
  let promptText := Prompt.Build p step in
  let run := agentRun env promptText in
  let events := waits ++ [Invoke promptText] in
  if deadlineExceeded run then
    persist env content (Number step)
      (mkResult false EmptyString
         ("Step timed out after " +:+ Duration_String (Timeout config))
         EmptyString (RetryCount step + 1))
      events Continue
  else if runErr run then
    if parentCancelled run then
      persist env content (Number step)
        (mkResult false "Interrupted by user" "Interrupted by user (Ctrl+C)"
           EmptyString (RetryCount step))
        events ReturnNil
    else (content, events, ReturnErr "agent execution failed")
  else
  let result := Prompt.ParseResult (runOutput run) in
  let result :=
    mkResult (Success result) (Output result) (Reason result) (ResStatus result)
             (if negb (Success result) then RetryCount step + 1
              else RetryCount step) in
  persist env content (Number step) result events Continue
  end end.

End RunLoop.

End Loop.

(** ** Package plan, writer.go: the whole plan written anew *)

Module Render.

Import Plan.

Definition nl : string := Writer.nl.

(** The marker of the [switch step.Status]. *)
Definition marker (step : Step) : string :=
  if String.eqb (Status step) StatusCompleted then "x"
  else if String.eqb (Status step) StatusFailed then "!"
  else " ".

(** The first loop over [plan.Steps]. *)
Fixpoint planSection (steps : list Step) : string :=
  match steps with
  | [] => EmptyString
  | step :: rest =>
      "- [" +:+ marker step +:+ "] Step " +:+ Fmt.itoa (Number step) +:+ ": "
        +:+ Description step +:+ nl +:+ planSection rest
  end.

Definition lastRunText (step : Step) : string :=
  match LastRun step with
  | Some t => Time.Format t
  | None => "N/A"
  end.

Definition notesText (step : Step) : string :=
  if negb (String.eqb (Notes step) EmptyString) then Notes step else "(none)".

(** The second loop over [plan.Steps]. *)
Fixpoint notesSection (steps : list Step) : string :=
  match steps with
  | [] => EmptyString
  | step :: rest =>
      nl +:+ "### Step " +:+ Fmt.itoa (Number step) +:+ nl
        +:+ "**Status**: " +:+ Status step +:+ nl
        +:+ "**Last Run**: " +:+ lastRunText step +:+ nl
        +:+ "**Notes**: " +:+ notesText step +:+ nl
        +:+ notesSection rest
  end.

(** What [WriteFile] hands to [os.WriteFile]: the text of [sb]. *)
Definition WriteFile (plan : Plan) : string :=
  "# Project: " +:+ ProjectName plan +:+ nl +:+ nl
  +:+ (if negb (String.eqb (Context plan) EmptyString)
       then "## Context" +:+ nl +:+ nl +:+ Context plan +:+ nl +:+ nl
       else EmptyString)
  +:+ "## Plan" +:+ nl +:+ nl
  +:+ planSection (Steps plan)
  +:+ nl +:+ "## Notes" +:+ nl
  +:+ notesSection (Steps plan).

(** [SavePlan]. *)
Definition SavePlan (plan : Plan) : string := WriteFile plan.

End Render.

(** ** Package loop, promptdetector.go *)

Module Detector.

Import Regexp.
Local Open Scope re_scope.

(** The byte ESC. *)
Definition ESC : ascii := "027".

Definition maxRecentLines : Z := 10.

(** Go source: "\x1b\[[0-9;]*m" (compiled inside [stripAnsi]). *)
Definition ansiRegex : re :=
  Lit (String ESC "[") >>> Star (oneOf "0123456789;") >>> Lit "m".

Definition stripAnsi (s : string) : string :=
  ReplaceAllString ansiRegex s EmptyString.

(** [strings.Repeat(s, count)], [None] for the panic on a negative
    count. *)
Definition Repeat (s : string) (count : Z) : option string :=
  if count <? 0 then None
  else Some (Nat.iter (Z.to_nat count) (fun acc => s +:+ acc) EmptyString).

(** [formatBoxLine]; [None] when [line[:width-3]] is out of range. *)
Definition formatBoxLine (line : string) (width : Z) : option string :=
  let cleanLine := stripAnsi line in
  if width <? Strings.len cleanLine then
    if (0 <=? width - 3) && (width - 3 <=? Strings.len line)
    then Some (Strings.take (Z.to_nat (width - 3)) line +:+ "...")
    else None
  else
    let padding := width - Strings.len cleanLine in
    match Repeat " " padding with
    | Some pad => Some (line +:+ pad)
    | None => None
    end.

(** The loop of [getQuestionContext] over [recentLines[startIdx:]]. *)
Fixpoint collect (lines : list string) (context : list string) : list string :=
  match lines with
  | [] => context
  | l :: rest =>
      let line := Strings.TrimSpace l in
      if negb (String.eqb line EmptyString)
      then collect rest (context ++ [line])
      else collect rest context
  end.

Definition getQuestionContext (recentLines : list string) : list string :=
  if Z.of_nat (length recentLines) =? 0 then ["(no context available)"]
  else
    let startIdx := Z.of_nat (length recentLines) - 5 in
    let startIdx := if startIdx <? 0 then 0 else startIdx in
    let context := collect (drop (Z.to_nat startIdx) recentLines) [] in
    if Z.of_nat (length context) =? 0 then ["(no context available)"]
    else context.

(** The fields of a [PromptDetector] that its methods read and write
    under the mutex; [lastLineAt] is [None] for the zero time, and a
    time is a number of nanoseconds. *)
Record state : Type := mkState {
  recentLines : list string;
  lastLineAt : option Z;
  warned : bool
}.

(** A warning box written to the underlying writer, with the lines
    shown inside it. *)
Inductive Shown : Type :=
| PromptBox (lines : list string)
| StallBox (lines : list string).

(** [formatBoxLine(line, 74)] for every line of the context. *)
Fixpoint boxLines (context : list string) : option (list string) :=
  match context with
  | [] => Some []
  | line :: rest =>
      match formatBoxLine line 74 with
      | Some displayLine =>
          match boxLines rest with
          | Some ls => Some (displayLine :: ls)
          | None => None
          end
      | None => None
      end
  end.

Definition showWarning (st : state) : option (state * list Shown) :=
  if warned st then Some (st, [])
  else
    let st := mkState (recentLines st) (lastLineAt st) true in
    match boxLines (getQuestionContext (recentLines st)) with
    | Some ls => Some (st, [PromptBox ls])
    | None => None
    end.

Section Write.

(** [matchesPromptPattern]: whether one of the fourteen patterns of
    [promptPatterns] matches the line. *)
Variable matchesPromptPattern : string -> bool.

(** One turn of the loop of [Write], at the clock reading [now]. *)
Definition writeLine (now : Z) (acc : option (state * list Shown)) (line : string)
  : option (state * list Shown) :=
  match acc with
  | None => None
  | Some (st, shown) =>
      let trimmed := Strings.TrimSpace line in
      if String.eqb trimmed EmptyString then Some (st, shown)
      else
        let recent := recentLines st ++ [line] in
        let recent :=
          if maxRecentLines <? Z.of_nat (length recent) then drop 1 recent else recent in
        let st := mkState recent (Some now) (warned st) in
        if matchesPromptPattern trimmed then
          match showWarning st with
          | Some (st', box) => Some (st', shown ++ box)
          | None => None
          end
        else Some (st, shown)
  end.

(** The loop [for _, line := range lines]; [now i] is the reading of
    the clock in the turn for [lines[i]]. *)
Fixpoint writeLines (now : nat -> Z) (i : nat) (lines : list string)
         (acc : option (state * list Shown)) : option (state * list Shown) :=
  match lines with
  | [] => acc
  | line :: rest => writeLines now (S i) rest (writeLine (now i) acc line)
  end.

(** [Write]: [writeErr] tells whether the underlying writer reports an
    error, in which case the method returns at once. *)
Definition Write (writeErr : bool) (now : nat -> Z) (p : string) (st : state)
  : option (state * list Shown) :=
  if writeErr then Some (st, [])
  else writeLines now 0 (Strings.Split p Byte.LF) (Some (st, [])).

End Write.

(** The body of the [case <-pd.checkTicker.C] of [monitorStalls], at
    the clock reading [now]: thirty seconds are 30000000000 ns. *)
Definition stallCheck (now : Z) (st : state) : option (state * list Shown) :=
  match lastLineAt st with
  | Some at_ =>
      if (30000000000 <? now - at_) && negb (warned st) then
        let st := mkState (recentLines st) (lastLineAt st) true in
        match boxLines (getQuestionContext (recentLines st)) with
        | Some ls => Some (st, [StallBox ls])
        | None => None
        end
      else Some (st, [])
  | None => Some (st, [])
  end.

(** [Reset]. *)
Definition Reset (st : state) : state := mkState [] None false.

End Detector.

(** ** Notions used to state the properties *)

Module Spec.

(** [hasByte c s]: the byte [c] occurs in [s]. *)
Fixpoint hasByte (c : ascii) (s : string) : bool :=
  match s with
  | EmptyString => false
  | String a s' => Byte.eqb a c || hasByte c s'
  end.

(** A text that is a single line. *)
Definition oneLine (s : string) : Prop := hasByte Byte.LF s = false.

(** [t] occurs in [s]. *)
Definition occursIn (t s : string) : Prop :=
  exists a b, s = a +:+ t +:+ b.

Import Regexp Plan Parser.

(** The lines read outside the context block. The block opens at a
    line "## Context" and closes at the next line "## <word>", which
    is itself outside; title lines and the lines "## Context" are read
    on their own and are left out. *)
Fixpoint outsideContext (inContext : bool) (lines : list string) : list string :=
  match lines with
  | [] => []
  | l :: rest =>
      if MatchString projectNameRegex l then outsideContext inContext rest
      else if MatchString contextSectionRegex l then outsideContext true rest
      else if inContext then
        if MatchString sectionHeaderRegex l then l :: outsideContext false rest
        else outsideContext true rest
      else l :: outsideContext false rest
  end.

(** The checkbox lines of a document that lie outside the context
    block, in document order. *)
Definition checkboxLines (content : string) : list string :=
  filter (fun l => MatchString stepLineRegex l = true)
         (outsideContext false (Bufio.Lines content)).

(** The four-state checkbox. *)
Definition markerStatus (m : ascii) : StepStatus :=
  if Byte.eqb m " " then StatusPending
  else if Byte.eqb m "x" then StatusCompleted
  else if Byte.eqb m "!" then StatusFailed
  else if Byte.eqb m "-" then StatusSkipped
  else StatusPending.

(** Two lines are the same but for the value of a [**Status**:] field. *)
Definition sameButStatus (a b : string) : Prop :=
  a = b \/ (MatchString statusRegex a = true /\ MatchString statusRegex b = true).

(** No line reaches the size of the buffer of the line reader. *)
Definition linesFit (content : string) : Prop :=
  Forall (fun l => Strings.len l < Bufio.MaxScanTokenSize)
         (Strings.Split content Byte.LF).

(** None of the patterns of the parser matches the line. *)
Definition unrecognized (l : string) : Prop :=
  Forall (fun r => MatchString r l = false)
         [projectNameRegex; contextSectionRegex; sectionHeaderRegex;
          stepLineRegex; notesSectionRegex; statusRegex; lastRunRegex;
          notesRegex; retriesRegex].

(** A document given by its lines. *)
Definition text (lines : list string) : string := Strings.Join lines Writer.nl.

(** A single line of 65536 bytes. *)
Definition longLine : string := N.iter 65536 (String "a") EmptyString.

(** What an unrecognized line does to the scan: it joins the open
    context block, or closes the open annotation block when it begins
    with '#', or nothing. *)
Definition skipped (st : scan) (l : string) : scan :=
  if inContextSection st then
    mkScan (projectName st) (context st) (steps st) (stepNumber st)
           (notesMap st) (currentNoteStep st) (inNotesSection st)
           true (contextLines st ++ [l])
  else if inNotesSection st && (0 <? currentNoteStep st) && Strings.HasPrefix l "#" then
    mkScan (projectName st) (context st) (steps st) (stepNumber st)
           (notesMap st) 0 false (inContextSection st) (contextLines st)
  else st.

(** The rational number that a float64 stands for (0 for what is not a
    finite number). *)
Definition floatValue (f : spec_float) : Q :=
  match f with
  | S754_finite s m e =>
      ((if s then inject_Z (-1) else inject_Z 1) * inject_Z (Z.pos m)
       * Qpower (inject_Z 2) e)%Q
  | _ => inject_Z 0
  end.

(** [retryDelay * backoffFactor ^ (retryCount - 1)], without rounding. *)
Definition exactDelay (config : Loop.Config) (retryCount : Z) : Q :=
  (inject_Z (Loop.RetryDelay config)
   * Qpower (floatValue (Loop.BackoffFactor config)) (retryCount - 1))%Q.

(** The float64 1.5. *)
Definition oneAndHalf : spec_float := S754_finite false 6755399441055744 (-52).

(** A plan whose only step has used up the default retry budget. *)
Definition exhaustedPlan : string :=
  text ["# Project: Demo"; EmptyString; "## Plan"; EmptyString;
        "- [!] Step 1: build"; EmptyString; "## Notes"; EmptyString;
        "### Step 1"; "**Status**: failed"; "**Last Run**: N/A";
        "**Notes**: Failed: tests red"; "**Retries**: 3"].

(** A plan whose only step has failed once. *)
Definition retriedPlan : string :=
  text ["# Project: Demo"; EmptyString; "## Plan"; EmptyString;
        "- [!] Step 1: build"; EmptyString; "## Notes"; EmptyString;
        "### Step 1"; "**Status**: failed"; "**Last Run**: N/A";
        "**Notes**: Failed: tests red"; "**Retries**: 1"].

(** Surroundings in which nothing is cancelled and the agent reports a
    failure. *)
Definition failingAgent : Loop.Env :=
  Loop.mkEnv false false
    (fun _ => Loop.mkRun (text ["working..."; "STEP_FAILED: tests still red"])
                         false false false)
    (Time.mk 2026 1 17 10 30 0).

Definition isInvoke (e : Loop.Event) : bool :=
  match e with Loop.Invoke _ => true | _ => false end.

Definition isWait (e : Loop.Event) : bool :=
  match e with Loop.Wait _ => true | _ => false end.

(** The number that an annotation header carries, for the lines that
    are annotation headers. *)
Definition headerNum (l : string) : option Z :=
  match FindStringSubmatch notesSectionRegex l with
  | Some m => Some (parseStepNumber (group m 1))
  | None => None
  end.

Definition isHeader (l : string) : bool :=
  match headerNum l with Some _ => true | None => false end.

Definition headerOf (n : Z) (l : string) : bool :=
  match headerNum l with Some m => m =? n | None => false end.

(** A document without any annotation header. *)
Definition noHeader (d : string) : Prop :=
  existsb isHeader (Strings.Split d Byte.LF) = false.

(** A document that has an annotation block for step [n]. *)
Definition hasBlock (n : Z) (d : string) : Prop :=
  existsb (headerOf n) (Strings.Split d Byte.LF) = true.

(** Two steps, an annotation block for the second only, and a field
    line after a blank line. *)
Definition strayNotesPlan : string :=
  text ["- [ ] a"; "- [ ] b"; EmptyString; "## Notes"; EmptyString;
        "### Step 2"; "**Status**: pending"; EmptyString; "**Notes**: keep"].

(** Two steps with a block each. *)
Definition twoBlocksPlan : string :=
  text ["- [ ] a"; "- [x] b"; EmptyString; "## Notes"; EmptyString;
        "### Step 1"; "**Status**: pending"; "**Last Run**: N/A"; "**Notes**: (none)";
        EmptyString;
        "### Step 2"; "**Status**: completed"; "**Last Run**: N/A"; "**Notes**: done"].

(** The report of a failed attempt. *)
Definition boom : StepResult := mkResult false EmptyString "boom" StatusFailed 1.

(** A line that [summarizeOutput] may return: not blank, and not a
    sentinel line. *)
Definition meaningful (l : string) : bool :=
  negb (String.eqb (Strings.TrimSpace l) EmptyString)
  && negb (Strings.HasPrefix (Strings.TrimSpace l) "STEP_").

(** The cut of a line of more than 100 bytes. *)
Definition truncated (line : string) : string :=
  if 100 <? Strings.len line then Strings.take 97 line +:+ "..." else line.


(** The marker that the writer puts into the checkbox of a step. *)
Definition newMarker (r : StepResult) : string := if Success r then "x" else "!".

(** What the patch for the result [r] at the clock reading [now] may
    make of a line of the document. *)
Definition patched (r : StepResult) (now : Time.t) (l l' : string) : Prop :=
  l' = l
  \/ (MatchString stepLineRegex l = true /\ l' = Writer.updateCheckbox l (newMarker r))
  \/ (MatchString statusRegex l = true /\ l' = "**Status**: " +:+ Writer.statusText r)
  \/ (MatchString lastRunRegex l = true /\ l' = "**Last Run**: " +:+ Time.Format now)
  \/ (MatchString notesRegex l = true /\ l' = "**Notes**: " +:+ Writer.notesText r).

(** The checkbox lines among the lines of a document, as the writer
    counts them. *)
Definition stepLines (d : string) : list string :=
  filter (fun l => MatchString stepLineRegex l = true) (Strings.Split d Byte.LF).

(** The lines that the writer adds to a document: none, a new block
    after a blank line, or the whole annotation section at the end. *)
Definition added (n : Z) (r : StepResult) (now : Time.t) (ins post : list string) : Prop :=
  ins = []
  \/ ins = [EmptyString; Writer.createNotesSectionForStep n r now]
  \/ (ins = [EmptyString; "## Notes"; EmptyString;
             Writer.createNotesSectionForStep n r now] /\ post = []).

Definition isWrite (e : Loop.Event) : bool :=
  match e with Loop.WriteFile _ => true | _ => false end.

(** A checkbox line whose marker is [x] or [-]. *)
Definition closedLine (l : string) : Prop :=
  exists m, FindStringSubmatch stepLineRegex l = Some m
            /\ (group m 1 = "x" \/ group m 1 = "-").

(** The status that the checkbox written by [WriteFile] reads as. *)
Definition boxStatus (s : Step) : StepStatus :=
  if String.eqb (Status s) StatusCompleted then StatusCompleted
  else if String.eqb (Status s) StatusFailed then StatusFailed
  else StatusPending.

(** What is read of a step that [WriteFile] has written. *)
Definition readBack (s : Step) : Step :=
  mkStep (Number s) (Description s) (boxStatus s) (LastRun s)
         (if String.eqb (Notes s) "(none)" then EmptyString else Notes s) 0.

Definition endsWithCR (s : string) : bool :=
  match Strings.rev s with
  | String c _ => Byte.eqb c Byte.CR
  | EmptyString => false
  end.

(** A text that comes back from a field line: a single line that does
    not begin with a byte of the class [\s] and does not end with a
    carriage return. *)
Definition fieldText (x : string) : Prop :=
  oneLine x /\ endsWithCR x = false
  /\ match x with String c _ => Byte.reSpace c = false | EmptyString => True end.

(** A step that [WriteFile] writes on lines of its own. *)
Definition cleanStep (time_Parse : string -> option Time.t) (s : Step) : Prop :=
  Description s <> EmptyString /\ oneLine (Description s)
  /\ Strings.TrimSpace (Description s) = Description s
  /\ oneLine (Status s) /\ endsWithCR (Status s) = false
  /\ fieldText (Notes s)
  /\ (forall t, LastRun s = Some t -> time_Parse (Time.Format t) = Some t).

(** The steps carry the numbers [n], [n + 1], ... in order. *)
Fixpoint numberedFrom (n : Z) (steps : list Step) : Prop :=
  match steps with
  | [] => True
  | s :: rest => Number s = n /\ numberedFrom (n + 1) rest
  end.

(** A plan that [WriteFile] writes so that [Parse] finds its steps. *)
Definition wellWritten (time_Parse : string -> option Time.t) (p : Plan) : Prop :=
  oneLine (ProjectName p) /\ endsWithCR (ProjectName p) = false
  /\ Forall (fun l => MatchString sectionHeaderRegex l = false)
            (Strings.Split (Context p) Byte.LF)
  /\ numberedFrom 1 (Steps p)
  /\ Z.of_nat (length (Steps p)) <= Fmt.maxInt
  /\ Forall (cleanStep time_Parse) (Steps p).

(** A plan of two steps, the second one skipped after three tries. *)
Definition savedPlan : Plan :=
  mkPlan "Demo" "Builds the demo." 
         [mkStep 1 "build" StatusCompleted (Some (Time.mk 2026 1 17 10 30 0)) "done" 2;
          mkStep 2 "test" StatusSkipped None EmptyString 3]
         EmptyString.

(** A reading of time stamps that knows one of them. *)
Definition parseDemoTime (s : string) : option Time.t :=
  if String.eqb s "2026-01-17 10:30:00" then Some (Time.mk 2026 1 17 10 30 0) else None.

(** A line that [Write] keeps: not blank. *)
Definition nonBlank (l : string) : Prop := Strings.TrimSpace l <> EmptyString.

(** The last [n] elements of a list. *)
Definition lastN {A : Type} (n : nat) (l : list A) : list A := drop (length l - n) l.

(** A call to the detector under its mutex: [Write], or the check of
    the stall monitor. *)
Inductive call : Type :=
| CallWrite (writeErr : bool) (now : nat -> Z) (p : string)
| CallCheck (now : Z).

(** A sequence of calls, with the boxes they show in order. *)
Fixpoint calls (matchesPromptPattern : string -> bool) (cs : list call)
         (st : Detector.state) : option (Detector.state * list Detector.Shown) :=
  match cs with
  | [] => Some (st, [])
  | c :: rest =>
      match (match c with
             | CallWrite e now p => Detector.Write matchesPromptPattern e now p st
             | CallCheck now => Detector.stallCheck now st
             end) with
      | Some (st1, shown1) =>
          match calls matchesPromptPattern rest st1 with
          | Some (st2, shown2) => Some (st2, shown1 ++ shown2)
          | None => None
          end
      | None => None
      end
  end.

(** The project name that a line gives, when it is a title line. *)
Definition titleOf (l : string) : option string :=
  match FindStringSubmatch projectNameRegex l with
  | Some m => Some (Strings.TrimSpace (group m 1))
  | None => None
  end.

(** The name given by the last title line, the empty text when there
    is none. *)
Definition lastTitle (lines : list string) : string :=
  fold_left (fun acc l => match titleOf l with Some t => t | None => acc end)
            lines EmptyString.

(** A line that opens the context block, one that stays inside it, and
    one that closes it. *)
Definition opensContext (l : string) : Prop :=
  titleOf l = None /\ MatchString contextSectionRegex l = true.

Definition staysInContext (l : string) : Prop :=
  titleOf l = None /\ MatchString contextSectionRegex l = false
  /\ MatchString sectionHeaderRegex l = false.

Definition closesContext (l : string) : Prop :=
  titleOf l = None /\ MatchString contextSectionRegex l = false
  /\ MatchString sectionHeaderRegex l = true.

(** A context that [Parse] reads as it was written: none of its lines
    is a title line, a context header or the beginning of a section,
    and none ends with a carriage return. *)
Definition plainContext (c : string) : Prop :=
  Forall (fun l => staysInContext l /\ endsWithCR l = false) (Strings.Split c Byte.LF).

(** The plan [savedPlan] with blanks around its title and a context of
    two lines between empty lines. *)
Definition framedPlan : Plan :=
  mkPlan " Demo "
         (text [EmptyString; "Builds the demo."; "- [ ] not a step"; EmptyString])
         (Steps savedPlan) EmptyString.

End Spec.

(* ===================================================================== *)
(** * Part II: facts about the embedding *)
(* ===================================================================== *)

(** ** Strings *)

Module StringFacts.

Import Strings Spec.

Lemma app_nil_r s : s +:+ EmptyString = s.
Proof. induction s as [|c s IH]; simpl; [done|by rewrite IH]. Qed.

Lemma app_assoc a b c : (a +:+ b) +:+ c = a +:+ b +:+ c.
Proof. induction a as [|x a IH]; simpl; [done|by rewrite IH]. Qed.

Lemma length_app a b : String.length (a +:+ b) = (String.length a + String.length b)%nat.
Proof. induction a as [|x a IH]; simpl; [done|by rewrite IH]. Qed.

Lemma len_length s : len s = Z.of_nat (String.length s).
Proof. induction s as [|c s IH]; simpl len; simpl String.length; lia. Qed.

Lemma len_nonneg s : 0 <= len s.
Proof. rewrite len_length. lia. Qed.

Lemma len_app a b : len (a +:+ b) = len a + len b.
Proof. rewrite !len_length, length_app. lia. Qed.

Lemma app_inv_head a b c : a +:+ b = a +:+ c -> b = c.
Proof. induction a as [|x a IH]; simpl; [done|]. intros [=]. auto. Qed.

Lemma app_eq_nil a b : a +:+ b = EmptyString -> a = EmptyString /\ b = EmptyString.
Proof. destruct a; simpl; [done|discriminate]. Qed.

(** *** Reversal *)

Lemma rev_onto_app s acc : rev_onto s acc = rev s +:+ acc.
Proof.
  unfold rev. revert acc. induction s as [|c s IH]; intros acc; simpl; [done|].
  rewrite IH, (IH (String c EmptyString)), app_assoc. done.
Qed.

Lemma rev_cons c s : rev (String c s) = rev s +:+ String c EmptyString.
Proof. unfold rev at 1. simpl. apply rev_onto_app. Qed.

Lemma rev_app a b : rev (a +:+ b) = rev b +:+ rev a.
Proof.
  induction a as [|x a IH]; simpl.
  - by rewrite app_nil_r.
  - by rewrite !rev_cons, IH, app_assoc.
Qed.

Lemma rev_involutive s : rev (rev s) = s.
Proof.
  induction s as [|c s IH]; [done|].
  by rewrite rev_cons, rev_app, IH.
Qed.

Lemma length_rev s : String.length (rev s) = String.length s.
Proof.
  induction s as [|c s IH]; [done|].
  rewrite rev_cons, length_app, IH. simpl. lia.
Qed.

(** *** Prefixes and occurrences *)

Lemma byte_eqb_eq a b : Byte.eqb a b = true <-> a = b.
Proof. apply Ascii.eqb_eq. Qed.

Lemma byte_eqb_refl a : Byte.eqb a a = true.
Proof. apply Ascii.eqb_refl. Qed.

Lemma byte_eqb_neq a b : Byte.eqb a b = false <-> a <> b.
Proof. apply Ascii.eqb_neq. Qed.

Lemma stripPrefix_spec p s r : stripPrefix p s = Some r <-> s = p +:+ r.
Proof.
  revert s. induction p as [|a p IH]; intros s; simpl.
  - split; [by intros [= ->]|by intros ->].
  - destruct s as [|b s]; [split; discriminate|].
    destruct (Byte.eqb a b) eqn:E.
    + apply byte_eqb_eq in E as ->. rewrite IH. split; [by intros ->|by intros [= ->]].
    + apply byte_eqb_neq in E. split; [discriminate|]. intros [=]. congruence.
Qed.

Lemma stripPrefix_app p r : stripPrefix p (p +:+ r) = Some r.
Proof. by apply stripPrefix_spec. Qed.

Lemma HasPrefix_spec s p : HasPrefix s p = true <-> exists r, s = p +:+ r.
Proof.
  unfold HasPrefix. destruct (stripPrefix p s) as [r|] eqn:E.
  - apply stripPrefix_spec in E. split; eauto.
  - split; [discriminate|]. intros [r Hr]. apply stripPrefix_spec in Hr. congruence.
Qed.

Lemma HasPrefix_app p r : HasPrefix (p +:+ r) p = true.
Proof. apply HasPrefix_spec. eauto. Qed.

Lemma Index_lower s t : -1 <= Index s t.
Proof.
  induction s as [|c s IH]; simpl.
  - destruct (HasPrefix _ _); lia.
  - destruct (HasPrefix _ _); [lia|]. destruct (Index s t <? 0) eqn:E; lia.
Qed.

Lemma Contains_spec s t : Contains s t = true <-> occursIn t s.
Proof.
  unfold Contains, occursIn. rewrite Z.leb_le.
  induction s as [|c s IH].
  - simpl. destruct (HasPrefix EmptyString t) eqn:E.
    + apply HasPrefix_spec in E as [r Hr]. split; [|lia].
      intros _. exists EmptyString, r. done.
    + split; [lia|]. intros (a & b & H).
      destruct a; simpl in H; [|discriminate].
      assert (HasPrefix EmptyString t = true) by (apply HasPrefix_spec; eauto).
      congruence.
  - simpl. destruct (HasPrefix (String c s) t) eqn:E.
    + apply HasPrefix_spec in E as [r Hr]. split; [|lia].
      intros _. exists EmptyString, r. done.
    + pose proof (Index_lower s t).
      destruct (Index s t <? 0) eqn:E2.
      * apply Z.ltb_lt in E2. split; [lia|]. intros (a & b & H').
        destruct a as [|x a]; simpl in H'.
        -- assert (HasPrefix (String c s) t = true) by (apply HasPrefix_spec; eauto).
           congruence.
        -- injection H' as -> ->. assert (0 <= Index (a +:+ t +:+ b) t); [|lia].
           apply IH. eauto.
      * apply Z.ltb_ge in E2. split; [|lia]. intros _.
        apply IH in E2 as (a & b & ->). exists (String c a), b. done.
Qed.

Lemma occursIn_refl s : occursIn s s.
Proof. exists EmptyString, EmptyString. simpl. by rewrite app_nil_r. Qed.

Lemma occursIn_trans a b c : occursIn a b -> occursIn b c -> occursIn a c.
Proof.
  intros (x & y & ->) (u & v & ->).
  exists (u +:+ x), (y +:+ v). by rewrite !app_assoc.
Qed.

Lemma occursIn_prefix p r : occursIn p (p +:+ r).
Proof. exists EmptyString, r. done. Qed.

(** *** Trimming yields a part of the text *)

Lemma trimLeft_suffix_aux n : forall s, (String.length s <= n)%nat ->
  exists a, s = a +:+ trimLeft s.
Proof.
  induction n as [|n IH]; intros s Hn.
  - destruct s; [|simpl in Hn; lia]. by exists EmptyString.
  - destruct s as [|a t]; [by exists EmptyString|]. simpl in Hn. simpl.
    destruct (Byte.asciiSpace a).
    { destruct (IH t) as [x Hx]; [lia|]. exists (String a x). simpl. by rewrite <- Hx. }
    destruct t as [|b u]; [by exists EmptyString|]. simpl in Hn.
    destruct (isSpace2 a b).
    { destruct (IH u) as [x Hx]; [lia|]. exists (String a (String b x)). simpl. by rewrite <- Hx. }
    destruct u as [|c v]; [by exists EmptyString|]. simpl in Hn.
    destruct (isSpace3 a b c).
    { destruct (IH v) as [x Hx]; [lia|].
      exists (String a (String b (String c x))). simpl. by rewrite <- Hx. }
    by exists EmptyString.
Qed.

Lemma trimLeft_suffix s : exists a, s = a +:+ trimLeft s.
Proof. by apply (trimLeft_suffix_aux (String.length s)). Qed.

Lemma trimLeftRev_suffix_aux n : forall s, (String.length s <= n)%nat ->
  exists a, s = a +:+ trimLeftRev s.
Proof.
  induction n as [|n IH]; intros s Hn.
  - destruct s; [|simpl in Hn; lia]. by exists EmptyString.
  - destruct s as [|a t]; [by exists EmptyString|]. simpl in Hn. simpl.
    destruct (Byte.asciiSpace a).
    { destruct (IH t) as [x Hx]; [lia|]. exists (String a x). simpl. by rewrite <- Hx. }
    destruct t as [|b u]; [by exists EmptyString|]. simpl in Hn.
    destruct (isSpace2 b a).
    { destruct (IH u) as [x Hx]; [lia|]. exists (String a (String b x)). simpl. by rewrite <- Hx. }
    destruct u as [|c v]; [by exists EmptyString|]. simpl in Hn.
    destruct (isSpace3 c b a).
    { destruct (IH v) as [x Hx]; [lia|].
      exists (String a (String b (String c x))). simpl. by rewrite <- Hx. }
    by exists EmptyString.
Qed.

Lemma trimRight_prefix s : exists b, s = trimRight s +:+ b.
Proof.
  unfold trimRight.
  destruct (trimLeftRev_suffix_aux _ (rev s) (le_n _)) as [a Ha].
  exists (rev a). rewrite <- rev_app, <- Ha. by rewrite rev_involutive.
Qed.

Lemma TrimSpace_occursIn s : occursIn (TrimSpace s) s.
Proof.
  unfold TrimSpace. destruct (trimLeft_suffix s) as [a Ha].
  destruct (trimRight_prefix (trimLeft s)) as [b Hb].
  exists a, b. by rewrite <- Hb.
Qed.

End StringFacts.

(** ** Lines: [Split], [Join] and the line reader *)

Module LineFacts.

Import Strings Spec StringFacts.

Lemma Split_nonempty s sep : Split s sep <> [].
Proof.
  destruct s as [|c s]; simpl; [done|].
  destruct (Byte.eqb c sep); [done|]. by destruct (Split s sep).
Qed.

Lemma Split_cons_ne c s sep :
  Byte.eqb c sep = false ->
  exists p rest, Split s sep = p :: rest /\ Split (String c s) sep = String c p :: rest.
Proof.
  intros E. simpl. rewrite E.
  destruct (Split s sep) as [|p rest] eqn:Es; [by apply Split_nonempty in Es|eauto].
Qed.

Lemma Split_pieces s sep : Forall (fun p => hasByte sep p = false) (Split s sep).
Proof.
  induction s as [|c s IH]; simpl.
  - by repeat constructor.
  - destruct (Byte.eqb c sep) eqn:E.
    + by constructor.
    + destruct (Split s sep) as [|p rest].
      { constructor; [simpl; by rewrite E|constructor]. }
      inversion IH; subst. constructor; [|done]. simpl. by rewrite E.
Qed.

Lemma Join_cons e x rest sep :
  Join (e :: x :: rest) sep = e +:+ sep +:+ Join (x :: rest) sep.
Proof. done. Qed.

Lemma Join_Split s : Join (Split s Byte.LF) Writer.nl = s.
Proof.
  induction s as [|c s IH]; [done|].
  simpl Split. destruct (Byte.eqb c Byte.LF) eqn:E.
  - apply byte_eqb_eq in E as ->.
    destruct (Split s Byte.LF) as [|p rest] eqn:Es; [by apply Split_nonempty in Es|].
    rewrite Join_cons, IH. done.
  - destruct (Split s Byte.LF) as [|p rest] eqn:Es; [by apply Split_nonempty in Es|].
    destruct rest as [|q rest]; simpl in *; by rewrite <- IH.
Qed.

Lemma Split_oneLine s : oneLine s -> Split s Byte.LF = [s].
Proof.
  unfold oneLine. induction s as [|c s IH]; simpl; [done|].
  intros H. apply orb_false_iff in H as [H1 H2]. rewrite H1, (IH H2). done.
Qed.

Lemma Split_app_sep a b sep :
  Split (a +:+ String sep b) sep =
  match Split a sep with
  | [] => Split b sep
  | _ => Split a sep ++ Split b sep
  end.
Proof.
  induction a as [|c a IH]; simpl.
  - by rewrite byte_eqb_refl.
  - destruct (Byte.eqb c sep) eqn:E.
    + rewrite IH. destruct (Split a sep) eqn:Ea; [by apply Split_nonempty in Ea|done].
    + rewrite IH. destruct (Split a sep) as [|p rest] eqn:Ea;
        [by apply Split_nonempty in Ea|done].
Qed.

Lemma Split_app a b sep :
  Split (a +:+ String sep b) sep = Split a sep ++ Split b sep.
Proof.
  rewrite Split_app_sep. destruct (Split a sep) eqn:E; [by apply Split_nonempty in E|done].
Qed.

Lemma nl_app x : Writer.nl +:+ x = String Byte.LF x.
Proof. done. Qed.

(** Joining single lines and splitting again gives the lines back. *)
Lemma Split_Join ls :
  ls <> [] -> Forall oneLine ls -> Split (Join ls Writer.nl) Byte.LF = ls.
Proof.
  induction ls as [|l ls IH]; [done|]. intros _ H.
  inversion H as [|? ? Hl Hls]; subst.
  destruct ls as [|x ls].
  - simpl. by apply Split_oneLine.
  - rewrite Join_cons, nl_app, Split_app, (Split_oneLine l Hl), IH by done. done.
Qed.

Lemma hasByte_app c a b : hasByte c (a +:+ b) = hasByte c a || hasByte c b.
Proof. induction a as [|x a IH]; simpl; [done|]. by rewrite IH, orb_assoc. Qed.

Lemma oneLine_app a b : oneLine (a +:+ b) <-> oneLine a /\ oneLine b.
Proof. unfold oneLine. rewrite hasByte_app. apply orb_false_iff. Qed.

Lemma oneLine_occursIn t s : occursIn t s -> oneLine s -> oneLine t.
Proof.
  intros (a & b & ->) H. apply oneLine_app in H as [_ H].
  by apply oneLine_app in H as [H _].
Qed.

Lemma hasByte_rev c s : hasByte c (rev s) = hasByte c s.
Proof.
  induction s as [|x s IH]; [done|].
  rewrite rev_cons, hasByte_app, IH. simpl. rewrite orb_false_r. apply orb_comm.
Qed.

Lemma oneLine_TrimSpace s : oneLine s -> oneLine (TrimSpace s).
Proof. apply oneLine_occursIn, TrimSpace_occursIn. Qed.

End LineFacts.

(** ** Result evaluation *)

Module PromptFacts.

Import Strings Spec StringFacts Plan Prompt.

(** A line carries a sentinel when it contains the success sentinel or
    the failure tag. *)
Definition carriesSentinel (l : string) : bool :=
  Contains l "STEP_COMPLETE" || Contains l "STEP_FAILED:".

Lemma Contains_TrimSpace l t : Contains (TrimSpace l) t = true -> Contains l t = true.
Proof.
  rewrite !Contains_spec. intros H.
  eapply occursIn_trans; [exact H|apply TrimSpace_occursIn].
Qed.

Lemma HasPrefix_Contains s p : HasPrefix s p = true -> Contains s p = true.
Proof.
  rewrite HasPrefix_spec, Contains_spec. intros [r ->]. apply occursIn_prefix.
Qed.

Lemma checkLine_None output l : carriesSentinel l = false -> checkLine output l = None.
Proof.
  unfold carriesSentinel. intros H. apply orb_false_iff in H as [H1 H2].
  assert (Contains (TrimSpace l) "STEP_COMPLETE" = false) as C1.
  { destruct (Contains (TrimSpace l) "STEP_COMPLETE") eqn:E; [|done].
    apply Contains_TrimSpace in E. congruence. }
  assert (Contains (TrimSpace l) "STEP_FAILED:" = false) as C2.
  { destruct (Contains (TrimSpace l) "STEP_FAILED:") eqn:E; [|done].
    apply Contains_TrimSpace in E. congruence. }
  unfold checkLine.
  destruct (String.eqb_spec (TrimSpace l) "STEP_COMPLETE") as [E|_].
  { rewrite E in C1. vm_compute in C1. discriminate. }
  destruct (HasPrefix (TrimSpace l) "STEP_FAILED:") eqn:E.
  { apply HasPrefix_Contains in E. congruence. }
  by rewrite C1, C2.
Qed.

Lemma scanMarkers_skip output post rest :
  Forall (fun l => carriesSentinel l = false) post ->
  scanMarkers output (List.rev post ++ rest) = scanMarkers output rest.
Proof.
  induction post as [|l post IH] using rev_ind; intros H; [done|].
  apply Forall_app in H as [H1 H2]. inversion H2; subst.
  rewrite rev_unit. simpl. rewrite checkLine_None by done. auto.
Qed.

Lemma checkLine_success output l :
  TrimSpace l = "STEP_COMPLETE"
  \/ (HasPrefix (TrimSpace l) "STEP_FAILED:" = false
      /\ Contains (TrimSpace l) "STEP_COMPLETE" = true) ->
  checkLine output l = Some (mkResult true output EmptyString EmptyString 0).
Proof.
  unfold checkLine. intros [->|[H1 H2]]; [done|].
  rewrite H1, H2. by destruct (String.eqb _ _).
Qed.

End PromptFacts.

(** ** The matcher against a declarative reading of the patterns *)

Module RegexpFacts.

Import Spec StringFacts Regexp.

(** Every byte of [s] is in the class [p]. *)
Fixpoint allIn (p : ascii -> bool) (s : string) : bool :=
  match s with
  | EmptyString => true
  | String c s' => p c && allIn p s'
  end.

(** [den r a b cs cs']: the pattern [r] can consume [a] when [b] is
    what follows, turning the captures [cs] into [cs']. *)
Fixpoint den (r : re) (a b : string) (cs cs' : caps) : Prop :=
  match r with
  | Lit l => a = l /\ cs' = cs
  | Cls p => exists c, a = String c EmptyString /\ p c = true /\ cs' = cs
  | Star p => allIn p a = true /\ cs' = cs
  | Plus p => a <> EmptyString /\ allIn p a = true /\ cs' = cs
  | Opt r' => den r' a b cs cs' \/ (a = EmptyString /\ cs' = cs)
  | Grp i r' => exists cs1, den r' a b cs cs1 /\ cs' = (i, a) :: cs1
  | Eol => a = EmptyString /\ b = EmptyString /\ cs' = cs
  | Seq r1 r2 =>
      exists a1 a2 cs1,
        a = a1 +:+ a2 /\ den r1 a1 (a2 +:+ b) cs cs1 /\ den r2 a2 b cs1 cs'
  end.

Lemma take_app_length a b :
  Strings.take (String.length (a +:+ b) - String.length b) (a +:+ b) = a.
Proof.
  rewrite length_app. replace (_ + _ - _)%nat with (String.length a) by lia.
  induction a as [|c a IH]; simpl; [by destruct b|by rewrite IH].
Qed.

Lemma star_sound p s k x :
  star p s k = Some x ->
  exists a b, s = a +:+ b /\ allIn p a = true /\ k b = Some x.
Proof.
  revert x. induction s as [|c s IH]; intros x; simpl.
  - intros H. by exists EmptyString, EmptyString.
  - destruct (p c) eqn:Ep.
    + destruct (star p s k) as [y|] eqn:Es.
      * intros [= ->]. destruct (IH _ eq_refl) as (a & b & -> & Ha & Hk).
        exists (String c a), b. simpl. by rewrite Ep, Ha.
      * intros H. by exists EmptyString, (String c s).
    + intros H. by exists EmptyString, (String c s).
Qed.

Lemma star_complete p a b k :
  allIn p a = true -> is_Some (k b) -> is_Some (star p (a +:+ b) k).
Proof.
  intros Ha Hk. induction a as [|c a IH]; simpl in *.
  - destruct b as [|c b]; simpl; [done|].
    destruct (p c); [|done]. by destruct (star p b k).
  - apply andb_true_iff in Ha as [-> Ha].
    destruct (IH Ha) as [y ->]. eauto.
Qed.

(** Whether a match succeeds never depends on the captures. *)
Definition blind (k : string -> caps -> result) : Prop :=
  forall s cs1 cs2, is_Some (k s cs1) -> is_Some (k s cs2).

Lemma star_ext p s k1 k2 :
  (forall t, is_Some (k1 t) -> is_Some (k2 t)) ->
  is_Some (star p s k1) -> is_Some (star p s k2).
Proof.
  intros Hk. induction s as [|c s IH]; simpl; [apply Hk|].
  destruct (p c); [|apply Hk].
  destruct (star p s k1) eqn:E1.
  - intros _. destruct (IH (mk_is_Some _ _ eq_refl)) as [y ->]. eauto.
  - intros H. destruct (star p s k2); [eauto|by apply Hk].
Qed.

Lemma rmatch_blind r : forall s cs1 cs2 k1 k2,
  (forall t c1 c2, is_Some (k1 t c1) -> is_Some (k2 t c2)) ->
  is_Some (rmatch r s cs1 k1) -> is_Some (rmatch r s cs2 k2).
Proof.
  induction r as [l|p|p|p|r IH|i r IH| |r1 IH1 r2 IH2]; intros s cs1 cs2 k1 k2 Hk; simpl.
  - destruct (Strings.stripPrefix l s); [apply Hk|done].
  - destruct s as [|c s]; [done|]. destruct (p c); [apply Hk|done].
  - apply star_ext. intros t. apply Hk.
  - destruct s as [|c s]; [done|]. destruct (p c); [|done].
    apply star_ext. intros t. apply Hk.
  - destruct (rmatch r s cs1 k1) eqn:E1.
    + intros _. destruct (IH s cs1 cs2 k1 k2 Hk) as [y ->]; [by rewrite E1|eauto].
    + intros H. destruct (rmatch r s cs2 k2); [eauto|]. by eapply Hk.
  - apply IH. intros t c1 c2. apply Hk.
  - destruct s; [apply Hk|done].
  - apply IH1. intros t c1 c2. apply IH2, Hk.
Qed.

(** A successful match consumes a text that the pattern denotes. *)
Lemma rmatch_sound r : forall s cs k x,
  rmatch r s cs k = Some x ->
  exists a b cs', s = a +:+ b /\ den r a b cs cs' /\ k b cs' = Some x.
Proof.
  induction r as [l|p|p|p|r IH|i r IH| |r1 IH1 r2 IH2]; intros s cs k x; simpl.
  - destruct (Strings.stripPrefix l s) as [s'|] eqn:E; [|done].
    apply stripPrefix_spec in E as ->. intros H. by exists l, s', cs.
  - destruct s as [|c s]; [done|]. destruct (p c) eqn:Ep; [|done].
    intros H. exists (String c EmptyString), s, cs. eauto 6.
  - intros H. apply star_sound in H as (a & b & -> & Ha & Hk). by exists a, b, cs.
  - destruct s as [|c s]; [done|]. destruct (p c) eqn:Ep; [|done].
    intros H. apply star_sound in H as (a & b & -> & Ha & Hk).
    exists (String c a), b, cs. simpl. by rewrite Ep, Ha.
  - destruct (rmatch r s cs k) as [y|] eqn:E.
    + intros [= ->]. apply IH in E as (a & b & cs' & -> & Hd & Hk).
      exists a, b, cs'. auto.
    + intros H. exists EmptyString, s, cs. auto.
  - intros H. apply IH in H as (a & b & cs' & -> & Hd & Hk).
    rewrite take_app_length in Hk. exists a, b, ((i, a) :: cs'). eauto.
  - destruct s; [|done]. intros H. by exists EmptyString, EmptyString, cs.
  - intros H. apply IH1 in H as (a1 & b1 & cs1 & -> & Hd1 & H).
    apply IH2 in H as (a2 & b & cs2 & -> & Hd2 & Hk).
    exists (a1 +:+ a2), b, cs2. rewrite app_assoc. eauto 10.
Qed.

(** A text that the pattern denotes is matched (perhaps in another,
    preferred way) when what follows can be. *)
Lemma rmatch_complete r : forall a b cs cs' cs0 k,
  blind k -> den r a b cs cs' -> is_Some (k b cs') ->
  is_Some (rmatch r (a +:+ b) cs0 k).
Proof.
  induction r as [l|p|p|p|r IH|i r IH| |r1 IH1 r2 IH2];
    intros a b cs cs' cs0 k Hb; simpl.
  - intros [-> ->] Hk. rewrite stripPrefix_app. by eapply Hb.
  - intros (c & -> & Hc & ->) Hk. simpl. rewrite Hc. by eapply Hb.
  - intros [Ha ->] Hk. apply star_complete; [done|]. by eapply Hb.
  - intros (Hne & Ha & ->) Hk. destruct a as [|c a]; [done|]. simpl in *.
    apply andb_true_iff in Ha as [-> Ha]. apply star_complete; [done|]. by eapply Hb.
  - intros [Hd|[-> ->]] Hk.
    + destruct (IH a b cs cs' cs0 k Hb Hd Hk) as [y ->]. eauto.
    + simpl. destruct (rmatch r b cs0 k); [eauto|]. by eapply Hb.
  - intros (cs1 & Hd & ->) Hk.
    eapply IH; [|exact Hd|].
    + intros s c1 c2. apply Hb.
    + eapply Hb, Hk.
  - intros (-> & -> & ->) Hk. simpl. by eapply Hb.
  - intros (a1 & a2 & cs1 & -> & Hd1 & Hd2) Hk. rewrite app_assoc.
    eapply IH1; [|exact Hd1|].
    + intros s c1 c2. apply rmatch_blind. intros t c3 c4. apply Hb.
    + eapply IH2; [exact Hb|exact Hd2|exact Hk].
Qed.

Lemma Find_sound r s cs :
  FindStringSubmatch r s = Some cs ->
  exists a b, s = a +:+ b /\ den r a b [] cs.
Proof.
  unfold FindStringSubmatch.
  destruct (rmatch _ _ _ _) as [[rest cs1]|] eqn:E; [|done].
  intros [= ->]. apply rmatch_sound in E as (a & b & cs' & -> & Hd & [= <- <-]).
  eauto.
Qed.

Lemma Find_complete r a b cs cs' :
  den r a b cs cs' -> is_Some (FindStringSubmatch r (a +:+ b)).
Proof.
  intros Hd. unfold FindStringSubmatch.
  destruct (rmatch_complete r a b cs cs' [] (fun rest cs => Some (rest, cs)))
    as [[rest cs1] ->]; [by intros ???|done|done|eauto].
Qed.

Lemma Match_Find r s : MatchString r s = true <-> is_Some (FindStringSubmatch r s).
Proof.
  unfold MatchString. destruct (FindStringSubmatch r s); split; try done; eauto.
Qed.

Lemma Match_false_Find r s : MatchString r s = false <-> FindStringSubmatch r s = None.
Proof. unfold MatchString. by destruct (FindStringSubmatch r s). Qed.

End RegexpFacts.

(** ** What a line is to the parser and to the writer *)

Module LineKinds.

Import Spec StringFacts RegexpFacts Regexp Plan Parser.

(** Destructs what [den] unfolds to. *)
Ltac den_destruct :=
  repeat match goal with
    | H : ex _ |- _ => destruct H
    | H : _ /\ _ |- _ => destruct H
    end.

Ltac find_shape H :=
  apply Find_sound in H; destruct H as (? & ? & ? & H);
  cbv delta [projectNameRegex contextSectionRegex sectionHeaderRegex
             stepLineRegex notesSectionRegex statusRegex lastRunRegex
             notesRegex retriesRegex] in H;
  cbn [den] in H; den_destruct; subst.

(** Exposes the first byte of every non-empty run of a class. *)
Ltac heads :=
  repeat match goal with
    | H1 : ?x <> EmptyString, H2 : allIn ?p ?x = true |- _ =>
        is_var x;
        let c := fresh "c" in let t := fresh "t" in
        let Hc := fresh "Hc" in let Ht := fresh "Ht" in
        destruct x as [|c t]; [done|]; clear H1; simpl in H2;
        apply andb_true_iff in H2 as [Hc Ht]
    end.

Lemma allIn_head p s : s <> EmptyString -> allIn p s = true ->
  exists c t, s = String c t /\ p c = true /\ allIn p t = true.
Proof.
  destruct s as [|c t]; [done|]. simpl. intros _ H.
  apply andb_true_iff in H as [H1 H2]. eauto.
Qed.

(** The literal text each pattern begins with. *)
Lemma project_prefix l cs : FindStringSubmatch projectNameRegex l = Some cs ->
  exists c r, l = String "#" (String c r) /\ Byte.reSpace c = true.
Proof.
  intros H. find_shape H.
  heads. simpl. eauto.
Qed.

Lemma context_prefix l cs : FindStringSubmatch contextSectionRegex l = Some cs ->
  exists c r, l = String "#" (String "#" (String c r)) /\ Byte.reSpace c = true.
Proof.
  intros H. find_shape H.
  heads. simpl. eauto.
Qed.

Lemma section_prefix l cs : FindStringSubmatch sectionHeaderRegex l = Some cs ->
  exists c r, l = String "#" (String "#" (String c r)) /\ Byte.reSpace c = true.
Proof.
  intros H. find_shape H.
  heads. simpl. eauto.
Qed.

Lemma step_prefix l cs : FindStringSubmatch stepLineRegex l = Some cs ->
  exists r, l = String "-" r.
Proof. intros H. find_shape H. simpl. eauto. Qed.

Lemma header_prefix l cs : FindStringSubmatch notesSectionRegex l = Some cs ->
  exists r, l = "###" +:+ r.
Proof. intros H. find_shape H. rewrite !app_assoc. eauto. Qed.

Lemma status_prefix l cs : FindStringSubmatch statusRegex l = Some cs ->
  exists r, l = "**Status**:" +:+ r.
Proof. intros H. find_shape H. rewrite !app_assoc. eauto. Qed.

Lemma lastRun_prefix l cs : FindStringSubmatch lastRunRegex l = Some cs ->
  exists r, l = "**Last Run**:" +:+ r.
Proof. intros H. find_shape H. rewrite !app_assoc. eauto. Qed.

Lemma notes_prefix l cs : FindStringSubmatch notesRegex l = Some cs ->
  exists r, l = "**Notes**:" +:+ r.
Proof. intros H. find_shape H. rewrite !app_assoc. eauto. Qed.

Lemma retries_prefix l cs : FindStringSubmatch retriesRegex l = Some cs ->
  exists r, l = "**Retries**:" +:+ r.
Proof. intros H. find_shape H. rewrite !app_assoc. eauto. Qed.

(** What the chain of checks of [Parse] makes of a line, with what it
    captures. *)
Inductive kind : Type :=
| KProject (name : string)
| KContext
| KStep (marker desc : string)
| KHeader (num : Z)
| KStatus (v : string)
| KLastRun (v : string)
| KNotes (v : string)
| KRetries (v : string)
| KOther.

Definition classifyBody (l : string) : kind :=
  match FindStringSubmatch stepLineRegex l with
  | Some m => KStep (group m 1) (group m 3)
  | None =>
  match FindStringSubmatch notesSectionRegex l with
  | Some m => KHeader (parseStepNumber (group m 1))
  | None =>
  match FindStringSubmatch statusRegex l with
  | Some m => KStatus (group m 1)
  | None =>
  match FindStringSubmatch lastRunRegex l with
  | Some m => KLastRun (group m 1)
  | None =>
  match FindStringSubmatch notesRegex l with
  | Some m => KNotes (group m 1)
  | None =>
  match FindStringSubmatch retriesRegex l with
  | Some m => KRetries (group m 1)
  | None => KOther
  end end end end end end.

Definition classify (l : string) : kind :=
  match FindStringSubmatch projectNameRegex l with
  | Some m => KProject (group m 1)
  | None =>
      if MatchString contextSectionRegex l then KContext else classifyBody l
  end.

(** Which patterns match a line of each kind. *)
Record matches (l : string)
       (step header status lastRun notes : bool) : Prop := mkMatches {
  m_step : is_Some (FindStringSubmatch stepLineRegex l) <-> step = true;
  m_header : is_Some (FindStringSubmatch notesSectionRegex l) <-> header = true;
  m_status : MatchString statusRegex l = status;
  m_lastRun : MatchString lastRunRegex l = lastRun;
  m_notes : MatchString notesRegex l = notes
}.

Ltac no_match :=
  unfold MatchString, FindStringSubmatch; simpl; reflexivity.

Ltac excl l H lemma :=
  let r := fresh "r" in let c := fresh "c" in let E := fresh "E" in
  pose proof H as E; apply lemma in E; den_destruct; subst l.

Lemma Find_not_Some r l : FindStringSubmatch r l = None ->
  is_Some (FindStringSubmatch r l) <-> false = true.
Proof. intros ->. split; [by intros [? ?]|done]. Qed.

Lemma Find_is_Some r l cs : FindStringSubmatch r l = Some cs ->
  is_Some (FindStringSubmatch r l) <-> true = true.
Proof. intros ->. split; eauto. Qed.

Lemma Match_of_Find_None r l : FindStringSubmatch r l = None -> MatchString r l = false.
Proof. by apply Match_false_Find. Qed.

Lemma Match_of_Find_Some r l cs : FindStringSubmatch r l = Some cs -> MatchString r l = true.
Proof. intros H. apply Match_Find. rewrite H. eauto. Qed.

Lemma space_not_hash c : Byte.reSpace c = true -> Byte.eqb "#" c = false.
Proof.
  intros H. destruct (Byte.eqb "#" c) eqn:E; [|done].
  apply byte_eqb_eq in E as <-. discriminate.
Qed.

(** A title line or a context marker matches none of the patterns of
    the writer, and does not begin with "### Step". *)
Lemma hash_space_line c r :
  Byte.reSpace c = true ->
  matches (String "#" (String c r)) false false false false false
  /\ Strings.HasPrefix (String "#" (String c r)) "### Step" = false.
Proof.
  intros Hc.
  destruct c as [[] [] [] [] [] [] [] []]; try discriminate Hc.
  all: split; [split|]; try no_match; by apply Find_not_Some.
Qed.

Lemma hash2_space_line c r :
  Byte.reSpace c = true ->
  matches (String "#" (String "#" (String c r))) false false false false false
  /\ Strings.HasPrefix (String "#" (String "#" (String c r))) "### Step" = false.
Proof.
  intros Hc.
  destruct c as [[] [] [] [] [] [] [] []]; try discriminate Hc.
  all: split; [split|]; try no_match; by apply Find_not_Some.
Qed.

Lemma classify_project l name : classify l = KProject name ->
  matches l false false false false false /\ Strings.HasPrefix l "### Step" = false.
Proof.
  unfold classify. destruct (FindStringSubmatch projectNameRegex l) eqn:E.
  - intros _. apply project_prefix in E as (c' & r' & -> & Hc). by apply hash_space_line.
  - destruct (MatchString _ _); [done|]. unfold classifyBody.
    repeat destruct (FindStringSubmatch _ _); done.
Qed.

Lemma classify_context l : classify l = KContext ->
  matches l false false false false false /\ Strings.HasPrefix l "### Step" = false.
Proof.
  unfold classify. destruct (FindStringSubmatch projectNameRegex l) eqn:E; [done|].
  destruct (MatchString contextSectionRegex l) eqn:E2.
  - intros _. apply Match_Find in E2 as [cs E2].
    apply context_prefix in E2 as (c' & r' & -> & Hc). by apply hash2_space_line.
  - unfold classifyBody. repeat destruct (FindStringSubmatch _ _); done.
Qed.

Lemma classify_body l :
  (forall name, classify l <> KProject name) -> classify l <> KContext ->
  classify l = classifyBody l.
Proof.
  unfold classify. destruct (FindStringSubmatch projectNameRegex l).
  - intros H. by destruct (H (group c 1)).
  - destruct (MatchString _ _); [by intros _ []|done].
Qed.

Lemma classifyBody_step l m d : classifyBody l = KStep m d ->
  matches l true false false false false /\ Strings.HasPrefix l "### Step" = false.
Proof.
  unfold classifyBody. destruct (FindStringSubmatch stepLineRegex l) eqn:E.
  - intros _. pose proof E as E'. apply step_prefix in E' as [r ->].
    split; [split|]; try no_match.
    + by eapply Find_is_Some.
    + by apply Find_not_Some.
  - repeat destruct (FindStringSubmatch _ _); done.
Qed.

Lemma classifyBody_header l num : classifyBody l = KHeader num ->
  matches l false true false false false
  /\ exists cs, FindStringSubmatch notesSectionRegex l = Some cs
                /\ parseStepNumber (group cs 1) = num.
Proof.
  unfold classifyBody. destruct (FindStringSubmatch stepLineRegex l) eqn:E0; [done|].
  destruct (FindStringSubmatch notesSectionRegex l) eqn:E.
  - intros [= <-]. pose proof E as E'. apply header_prefix in E' as [r ->].
    split; [split|eauto]; try no_match.
    + by apply Find_not_Some.
    + by eapply Find_is_Some.
  - repeat destruct (FindStringSubmatch _ _); done.
Qed.

Lemma classifyBody_status l v : classifyBody l = KStatus v ->
  matches l false false true false false /\ Strings.HasPrefix l "### Step" = false.
Proof.
  unfold classifyBody. destruct (FindStringSubmatch stepLineRegex l) eqn:E0; [done|].
  destruct (FindStringSubmatch notesSectionRegex l) eqn:E1; [done|].
  destruct (FindStringSubmatch statusRegex l) eqn:E.
  - intros _. pose proof E as E'. apply status_prefix in E' as [r ->].
    split; [split|]; try no_match.
    + by apply Find_not_Some.
    + by apply Find_not_Some.
    + by eapply Match_of_Find_Some.
  - repeat destruct (FindStringSubmatch _ _); done.
Qed.

Lemma classifyBody_lastRun l v : classifyBody l = KLastRun v ->
  matches l false false false true false /\ Strings.HasPrefix l "### Step" = false.
Proof.
  unfold classifyBody. destruct (FindStringSubmatch stepLineRegex l) eqn:E0; [done|].
  destruct (FindStringSubmatch notesSectionRegex l) eqn:E1; [done|].
  destruct (FindStringSubmatch statusRegex l) eqn:E2; [done|].
  destruct (FindStringSubmatch lastRunRegex l) eqn:E.
  - intros _. pose proof E as E'. apply lastRun_prefix in E' as [r ->].
    split; [split|]; try no_match.
    + by apply Find_not_Some.
    + by apply Find_not_Some.
    + by eapply Match_of_Find_Some.
  - repeat destruct (FindStringSubmatch _ _); done.
Qed.

Lemma classifyBody_notes l v : classifyBody l = KNotes v ->
  matches l false false false false true /\ Strings.HasPrefix l "### Step" = false.
Proof.
  unfold classifyBody. destruct (FindStringSubmatch stepLineRegex l) eqn:E0; [done|].
  destruct (FindStringSubmatch notesSectionRegex l) eqn:E1; [done|].
  destruct (FindStringSubmatch statusRegex l) eqn:E2; [done|].
  destruct (FindStringSubmatch lastRunRegex l) eqn:E3; [done|].
  destruct (FindStringSubmatch notesRegex l) eqn:E.
  - intros _. pose proof E as E'. apply notes_prefix in E' as [r ->].
    split; [split|]; try no_match.
    + by apply Find_not_Some.
    + by apply Find_not_Some.
    + by eapply Match_of_Find_Some.
  - repeat destruct (FindStringSubmatch _ _); done.
Qed.

Lemma classifyBody_retries l v : classifyBody l = KRetries v ->
  matches l false false false false false /\ Strings.HasPrefix l "### Step" = false.
Proof.
  unfold classifyBody. destruct (FindStringSubmatch stepLineRegex l) eqn:E0; [done|].
  destruct (FindStringSubmatch notesSectionRegex l) eqn:E1; [done|].
  destruct (FindStringSubmatch statusRegex l) eqn:E2; [done|].
  destruct (FindStringSubmatch lastRunRegex l) eqn:E3; [done|].
  destruct (FindStringSubmatch notesRegex l) eqn:E4; [done|].
  destruct (FindStringSubmatch retriesRegex l) eqn:E; [|done].
  intros _. pose proof E as E'. apply retries_prefix in E' as [r ->].
  split; [split|]; try no_match.
  + by apply Find_not_Some.
  + by apply Find_not_Some.
Qed.

Lemma classifyBody_other l : classifyBody l = KOther ->
  matches l false false false false false.
Proof.
  unfold classifyBody. destruct (FindStringSubmatch stepLineRegex l) eqn:E0; [done|].
  destruct (FindStringSubmatch notesSectionRegex l) eqn:E1; [done|].
  destruct (FindStringSubmatch statusRegex l) eqn:E2; [done|].
  destruct (FindStringSubmatch lastRunRegex l) eqn:E3; [done|].
  destruct (FindStringSubmatch notesRegex l) eqn:E4; [done|].
  destruct (FindStringSubmatch retriesRegex l) eqn:E; [done|].
  intros _. split; try by apply Find_not_Some.
  all: by apply Match_of_Find_None.
Qed.

End LineKinds.

(** ** The parser as two independent scans *)

Module ParserFacts.

Import Spec StringFacts RegexpFacts Regexp Plan Parser LineKinds.

(** What the scan carries besides the title and the context. *)
Definition core (st : scan) : list Step * Z * gmap Z stepNotes * Z * bool :=
  (steps st, stepNumber st, notesMap st, currentNoteStep st, inNotesSection st).

Lemma scanBody_core st1 st2 l :
  core st1 = core st2 -> core (scanBody st1 l) = core (scanBody st2 l).
Proof.
  destruct st1, st2. unfold core. simpl. intros [= -> -> -> -> ->].
  unfold scanBody, updNotes. simpl.
  repeat (destruct (FindStringSubmatch _ l); [reflexivity|]).
  destruct (_ && _); [|reflexivity].
  repeat (destruct (FindStringSubmatch _ l); [reflexivity|]).
  destruct (Strings.HasPrefix l "#"); reflexivity.
Qed.

Lemma scanBody_context st l :
  inContextSection (scanBody st l) = inContextSection st.
Proof.
  unfold scanBody, updNotes.
  repeat (destruct (FindStringSubmatch _ l); [reflexivity|]).
  destruct (_ && _); [|reflexivity].
  repeat (destruct (FindStringSubmatch _ l); [reflexivity|]).
  destruct (Strings.HasPrefix l "#"); reflexivity.
Qed.

Lemma fold_scanBody_core ls : forall st1 st2,
  core st1 = core st2 ->
  core (fold_left scanBody ls st1) = core (fold_left scanBody ls st2).
Proof.
  induction ls as [|l ls IH]; intros st1 st2 H; [done|].
  simpl. apply IH. by apply scanBody_core.
Qed.

(** The lines inside the context block, title lines and context markers
    never reach the checks for steps and annotations. *)
Lemma scanLine_outside lines : forall st st0,
  core st = core st0 ->
  core (fold_left scanLine lines st)
  = core (fold_left scanBody (outsideContext (inContextSection st) lines) st0).
Proof.
  induction lines as [|l lines IH]; intros st st0 H; [done|].
  change (fold_left scanLine (l :: lines) st)
    with (fold_left scanLine lines (scanLine st l)).
  remember (scanLine st l) as st' eqn:Hst. unfold scanLine in Hst.
  cbn [outsideContext].
  destruct (FindStringSubmatch projectNameRegex l) eqn:E1.
  { rewrite (Match_of_Find_Some _ _ _ E1). subst st'.
    rewrite (IH _ st0); [done|exact H]. }
  rewrite (Match_of_Find_None _ _ E1).
  destruct (MatchString contextSectionRegex l).
  { subst st'. rewrite (IH _ st0); [done|exact H]. }
  destruct (inContextSection st) eqn:Ec.
  - destruct (MatchString sectionHeaderRegex l).
    + subst st'. cbn [fold_left]. rewrite (IH _ (scanBody st0 l)).
      * by rewrite scanBody_context.
      * apply scanBody_core. exact H.
    + subst st'. rewrite (IH _ st0); [done|exact H].
  - subst st'. cbn [fold_left]. rewrite (IH _ (scanBody st0 l)).
    + by rewrite scanBody_context, Ec.
    + by apply scanBody_core.
Qed.

(** The step read from a checkbox line, given its number. *)
Definition stepOf (n : Z) (l : string) : Step :=
  match FindStringSubmatch stepLineRegex l with
  | Some m => mkStep n (Strings.TrimSpace (group m 3)) (parseCheckbox (group m 1))
                     None EmptyString 0
  | None => mkStep n EmptyString EmptyString None EmptyString 0
  end.

Fixpoint numbered (n : Z) (ls : list string) : list Step :=
  match ls with
  | [] => []
  | l :: rest => stepOf (n + 1) l :: numbered (n + 1) rest
  end.

Definition isStep (l : string) : Prop := MatchString stepLineRegex l = true.

Lemma body_steps ls : forall st,
  steps (fold_left scanBody ls st)
  = steps st ++ numbered (stepNumber st) (filter isStep ls)
  /\ stepNumber (fold_left scanBody ls st)
     = stepNumber st + Z.of_nat (length (filter isStep ls)).
Proof.
  induction ls as [|l ls IH]; intros st.
  { simpl. rewrite List.app_nil_r. split; [done|lia]. }
  simpl fold_left. destruct (IH (scanBody st l)) as [IH1 IH2].
  rewrite IH1, IH2. clear IH IH1 IH2.
  destruct (FindStringSubmatch stepLineRegex l) eqn:E.
  - assert (isStep l) as Hl by (by apply Match_of_Find_Some in E).
    rewrite filter_cons_True by done.
    assert (steps (scanBody st l) = steps st ++ [stepOf (stepNumber st + 1) l]
            /\ stepNumber (scanBody st l) = stepNumber st + 1) as [-> ->].
    { unfold scanBody, stepOf. by rewrite E. }
    simpl. rewrite <- List.app_assoc. simpl. split; [done|lia].
  - assert (~ isStep l) as Hl.
    { unfold isStep. by rewrite (Match_of_Find_None _ _ E). }
    rewrite filter_cons_False by done.
    assert (steps (scanBody st l) = steps st
            /\ stepNumber (scanBody st l) = stepNumber st) as [-> ->]; [|done].
    unfold scanBody, updNotes. rewrite E.
    destruct (FindStringSubmatch notesSectionRegex l); [done|].
    destruct (_ && _); [|done].
    repeat (destruct (FindStringSubmatch _ l); [done|]).
    by destruct (Strings.HasPrefix l "#").
Qed.

Lemma applyNotes_fields tp m s :
  Number (applyNotes tp m s) = Number s
  /\ Description (applyNotes tp m s) = Description s
  /\ Status (applyNotes tp m s) = Status s.
Proof. unfold applyNotes. by destruct (m !! Number s). Qed.

(** The steps of a parsed plan: the checkbox lines outside the context
    block, numbered in order, then annotated. *)
Lemma Parse_steps tp content p :
  Parse tp content = Some p ->
  Steps p = map (applyNotes tp (notesMap (scanAll (Bufio.Lines content))))
                (numbered 0 (checkboxLines content)).
Proof.
  unfold Parse. destruct (Bufio.Err content); [done|]. intros [= <-].
  unfold finish. simpl. f_equal.
  pose proof (scanLine_outside (Bufio.Lines content) scan0 scan0 eq_refl) as H.
  unfold core in H. injection H as H _ _ _ _. unfold scanAll. rewrite H.
  destruct (body_steps (outsideContext false (Bufio.Lines content)) scan0) as [-> _].
  done.
Qed.

Lemma numbered_length n ls : length (numbered n ls) = length ls.
Proof. revert n. induction ls as [|l ls IH]; intros n; simpl; [done|by rewrite IH]. Qed.

Lemma numbered_lookup ls : forall n k s,
  numbered n ls !! k = Some s ->
  exists l, ls !! k = Some l /\ s = stepOf (n + Z.of_nat k + 1) l.
Proof.
  induction ls as [|l ls IH]; intros n k s; [done|].
  destruct k as [|k]; simpl.
  - intros [= <-]. exists l. split; [done|]. f_equal. lia.
  - intros H. apply IH in H as (l' & H1 & ->). exists l'. split; [done|].
    f_equal. lia.
Qed.

Lemma numbered_numbers ls : forall n,
  map Number (numbered n ls) = map (fun i => n + Z.of_nat i) (seq 1 (length ls)).
Proof.
  induction ls as [|l ls IH]; intros n; [done|].
  simpl. unfold stepOf at 1. f_equal.
  - by destruct (FindStringSubmatch _ _).
  - rewrite IH, <- (List.seq_shift (length ls) 1), List.map_map.
    apply List.map_ext. intros i. lia.
Qed.

End ParserFacts.

(** ** The shape of a checkbox line *)

Module StepLineFacts.

Import Spec StringFacts RegexpFacts Regexp Plan Parser LineKinds ParserFacts.

Lemma stepLine_shape l m :
  FindStringSubmatch stepLineRegex l = Some m ->
  exists ws c rest,
    l = "-" +:+ ws +:+ "[" +:+ String c ("]" +:+ rest)
    /\ ws <> EmptyString /\ allIn Byte.reSpace ws = true
    /\ oneOf " x!-" c = true
    /\ group m 1 = String c EmptyString.
Proof.
  intros H. find_shape H.
  match goal with
  | H1 : ?ws <> EmptyString, H2 : allIn Byte.reSpace ?ws = true,
    H3 : oneOf " x!-" ?c = true |- _ =>
      let G := fresh "G" in
      match goal with
      | |- context [String.append ws (String.append "[" (String.append (String c EmptyString) ?r))] =>
          exists ws, c; eexists; split; [|split; [exact H1|split; [exact H2|split; [exact H3|]]]]
      end
  end.
  - rewrite !app_assoc. simpl. reflexivity.
  - match goal with H : _ \/ _ |- _ => destruct H end; den_destruct; subst; reflexivity.
Qed.

Lemma parseCheckbox_marker c :
  oneOf " x!-" c = true -> parseCheckbox (String c EmptyString) = markerStatus c.
Proof.
  unfold oneOf. intros H.
  repeat (apply orb_true_iff in H as [H|H]; [apply byte_eqb_eq in H as <-; reflexivity|]).
  discriminate.
Qed.

Lemma numbered_Forall2 (P : Step -> string -> Prop) (f : Step -> Step) ls : forall n,
  (forall k l, In l ls -> P (f (stepOf k l)) l) ->
  Forall2 P (map f (numbered n ls)) ls.
Proof.
  induction ls as [|l ls IH]; intros n H; simpl; [constructor|].
  constructor; [apply H; by left|]. apply IH. intros k l' Hl. apply H. by right.
Qed.

(** A [**Status**:] line is nothing else to the parser. *)
Lemma status_line_only l :
  MatchString statusRegex l = true ->
  MatchString projectNameRegex l = false
  /\ MatchString contextSectionRegex l = false
  /\ MatchString sectionHeaderRegex l = false
  /\ MatchString stepLineRegex l = false.
Proof.
  intros H. apply Match_Find in H as [cs H]. apply status_prefix in H as [r ->].
  repeat split; no_match.
Qed.

Lemma outside_checkboxes_same ls1 ls2 : forall inCtx,
  Forall2 sameButStatus ls1 ls2 ->
  filter isStep (outsideContext inCtx ls1) = filter isStep (outsideContext inCtx ls2).
Proof.
  intros inCtx H. revert inCtx.
  induction H as [|a b ls1 ls2 Hab _ IH]; intros inCtx; [done|].
  destruct Hab as [->|[Ha Hb]].
  { cbn [outsideContext].
    destruct (MatchString projectNameRegex b); [apply IH|].
    destruct (MatchString contextSectionRegex b); [apply IH|].
    destruct inCtx.
    - destruct (MatchString sectionHeaderRegex b); [|apply IH].
      rewrite !filter_cons. by rewrite IH.
    - rewrite !filter_cons. by rewrite IH. }
  destruct (status_line_only a Ha) as (A1 & A2 & A3 & A4).
  destruct (status_line_only b Hb) as (B1 & B2 & B3 & B4).
  cbn [outsideContext]. rewrite A1, A2, A3, B1, B2, B3.
  destruct inCtx; [apply IH|].
  rewrite !filter_cons_False; [apply IH|..]; unfold isStep; congruence.
Qed.

Lemma dropFinalEmpty_Forall (P : string -> Prop) ls :
  Forall P ls -> Forall P (Bufio.dropFinalEmpty ls).
Proof.
  induction ls as [|l ls IH]; intros H; [done|].
  inversion H; subst. simpl.
  destruct l; [destruct ls; [constructor|]|]; constructor; auto.
Qed.

Lemma linesFit_no_error content : linesFit content -> Bufio.Err content = false.
Proof.
  unfold linesFit, Bufio.Err, Bufio.pieces. intros H.
  apply dropFinalEmpty_Forall in H.
  induction H as [|l ls Hl _ IH]; [done|].
  simpl. rewrite IH, orb_false_r. apply Z.leb_gt. exact Hl.
Qed.

Lemma scanLine_unrecognized st l : unrecognized l -> scanLine st l = skipped st l.
Proof.
  unfold unrecognized. intros H.
  repeat match goal with
         | H : Forall _ (_ :: _) |- _ => inversion H; clear H; subst
         end.
  repeat match goal with
         | H : MatchString _ _ = false |- _ => apply Match_false_Find in H
         end.
  unfold scanLine, skipped, scanBody, MatchString.
  repeat match goal with
         | H : FindStringSubmatch _ _ = None |- _ => rewrite H; clear H
         end.
  destruct (inContextSection st); [done|].
  destruct (inNotesSection st && (0 <? currentNoteStep st)); simpl; [|done].
  by destruct (Strings.HasPrefix l "#").
Qed.

End StepLineFacts.

(** ** The retry policy: float64 arithmetic of the backoff *)

Module LoopFacts.

Import Spec Loop.

Lemma pow2_succ k : 0 <= k -> 2 ^ (k + 1) = 2 * 2 ^ k.
Proof. intros. rewrite Z.pow_add_r by lia. simpl (2 ^ 1). lia. Qed.

Lemma digits2_pos_bounds p :
  2 ^ (Z.pos (digits2_pos p) - 1) <= Z.pos p < 2 ^ Z.pos (digits2_pos p).
Proof.
  induction p as [p IH|p IH|]; simpl digits2_pos.
  - rewrite Pos2Z.inj_succ.
    replace (Z.succ (Z.pos (digits2_pos p)) - 1) with (Z.pos (digits2_pos p) - 1 + 1) by lia.
    replace (Z.succ (Z.pos (digits2_pos p))) with (Z.pos (digits2_pos p) - 1 + 1 + 1) by lia.
    replace (Z.pos (digits2_pos p)) with (Z.pos (digits2_pos p) - 1 + 1) in IH at 2 by lia.
    rewrite !pow2_succ in * by lia. lia.
  - rewrite Pos2Z.inj_succ.
    replace (Z.succ (Z.pos (digits2_pos p)) - 1) with (Z.pos (digits2_pos p) - 1 + 1) by lia.
    replace (Z.succ (Z.pos (digits2_pos p))) with (Z.pos (digits2_pos p) - 1 + 1 + 1) by lia.
    replace (Z.pos (digits2_pos p)) with (Z.pos (digits2_pos p) - 1 + 1) in IH at 2 by lia.
    rewrite !pow2_succ in * by lia. lia.
  - simpl. lia.
Qed.

Lemma digits2_le_53 p : Z.pos p < 2 ^ 53 -> Z.pos (digits2_pos p) <= 53.
Proof.
  intros H. destruct (digits2_pos_bounds p) as [H1 _].
  destruct (Z_le_gt_dec (Z.pos (digits2_pos p)) 53) as [|G]; [done|].
  assert (2 ^ 53 <= 2 ^ (Z.pos (digits2_pos p) - 1)) by (apply Z.pow_le_mono_r; lia).
  lia.
Qed.

Lemma iter_xO p d : Z.pos (Pos.iter xO p d) = Z.pos p * 2 ^ Z.pos d.
Proof.
  revert p. induction d using Pos.peano_ind; intros p.
  - simpl. lia.
  - rewrite Pos.iter_succ, Pos2Z.inj_succ, Z.pow_succ_r by lia.
    rewrite Pos2Z.inj_xO, IHd. lia.
Qed.

Lemma digits2_iter_xO p d : digits2_pos (Pos.iter xO p d) = (digits2_pos p + d)%positive.
Proof.
  induction d using Pos.peano_ind.
  - simpl. lia.
  - rewrite Pos.iter_succ. simpl. rewrite IHd. lia.
Qed.

Lemma round_aux_53 m e :
  digits2_pos m = 53%positive -> -1074 <= e <= 971 ->
  binary_round_aux 53 1024 false (Z.pos m) e loc_Exact = S754_finite false m e.
Proof.
  intros Hd He.
  assert (fexp 53 1024 (53 + e) - e = 0) as Hs by (unfold fexp, emin; lia).
  unfold binary_round_aux, shr_fexp, Zdigits2. rewrite Hd, Hs.
  cbn [shr shr_record_of_loc shr_m loc_of_shr_record round_nearest_even].
  rewrite Hd, Hs.
  cbn [shr shr_record_of_loc shr_m].
  destruct (e <=? 1024 - 53) eqn:E; [done|]. apply Z.leb_gt in E. lia.
Qed.

(** The mantissa and exponent of [float64 x] for 0 < x < 2^53. *)
Lemma float64_exact p :
  Z.pos p < 2 ^ 53 ->
  exists mz ez,
    float64 (Z.pos p) = S754_finite false mz ez
    /\ digits2_pos mz = 53%positive
    /\ -52 <= ez <= 0
    /\ Z.pos mz = Z.pos p * 2 ^ (- ez).
Proof.
  intros Hp. pose proof (digits2_le_53 p Hp) as Hk.
  unfold float64, binary_normalize, binary_round.
  assert (fexp 53 1024 (Z.pos (digits2_pos p) + 0) = Z.pos (digits2_pos p) - 53) as ->.
  { unfold fexp, emin. lia. }
  unfold shl_align.
  destruct (Z.pos (digits2_pos p) - 53 - 0) as [|d|d] eqn:Ed; [| lia |].
  - assert (digits2_pos p = 53%positive) as Hd by lia.
    exists p, 0. split; [|split; [done|split; [lia|simpl; lia]]].
    by apply round_aux_53.
  - exists (Pos.iter xO p d), (Z.pos (digits2_pos p) - 53).
    assert (digits2_pos (Pos.iter xO p d) = 53%positive) as Hd.
    { rewrite digits2_iter_xO. lia. }
    split; [|split; [done|split; [lia|]]].
    + apply round_aux_53; [done|lia].
    + rewrite iter_xO. f_equal. f_equal. lia.
Qed.

Lemma shift_out_52 mz :
  SpecFloat.iter_pos shr_1 52 (shr_record_of_loc (Z.pos (Pos.iter xO mz 52)) loc_Exact)
  = Build_shr_record (Z.pos mz) false false.
Proof. reflexivity. Qed.

Lemma mul_two mz ez :
  digits2_pos mz = 53%positive -> -52 <= ez <= 0 ->
  SFmul 53 1024 (S754_finite false mz ez) two = S754_finite false mz (ez + 1).
Proof.
  intros Hd He. unfold SFmul, two. cbn [xorb].
  rewrite Pos.mul_comm.
  replace (4503599627370496 * mz)%positive with (Pos.iter xO mz 52) by reflexivity.
  assert (fexp 53 1024 (105 + (ez + -51)) - (ez + -51) = 52) as Hs
    by (unfold fexp, emin; lia).
  assert (fexp 53 1024 (53 + (ez + -51 + 52)) - (ez + -51 + 52) = 0) as Hs'
    by (unfold fexp, emin; lia).
  unfold binary_round_aux, shr_fexp, Zdigits2.
  rewrite digits2_iter_xO, Hd.
  change (Z.pos (53 + 52)) with 105. rewrite Hs.
  cbn [shr]. rewrite shift_out_52.
  cbn [shr_m loc_of_shr_record round_nearest_even].
  rewrite Hd, Hs'.
  cbn [shr shr_record_of_loc shr_m].
  replace (ez + -51 + 52) with (ez + 1) by lia.
  destruct (ez + 1 <=? 1024 - 53) eqn:E; [done|]. apply Z.leb_gt in E. lia.
Qed.

Lemma scale_two x : 0 <= x -> 2 * x < 2 ^ 53 -> scale two x = Some (2 * x).
Proof.
  intros H0 H. unfold scale. destruct x as [|p|p]; [vm_compute; reflexivity| |lia].
  destruct (float64_exact p) as (mz & ez & -> & Hd & He & Hm); [lia|].
  rewrite mul_two by done. unfold toInt64.
  assert ((if 0 <=? ez + 1 then Z.pos mz * 2 ^ (ez + 1) else Z.pos mz / 2 ^ (- (ez + 1)))
          = 2 * Z.pos p) as ->.
  { destruct (0 <=? ez + 1) eqn:E.
    - apply Z.leb_le in E. assert (ez = 0 \/ ez = -1) as [->| ->] by lia.
      + simpl in *. lia.
      + simpl in *. lia.
    - apply Z.leb_gt in E. rewrite Hm.
      replace (- ez) with (1 + (- (ez + 1))) by lia.
      rewrite Z.pow_add_r by lia. simpl (2 ^ 1).
      rewrite Z.mul_assoc, Z.div_mul; [lia|].
      apply Z.pow_nonzero; lia. }
  assert (2 ^ 53 = 9007199254740992) as E53 by reflexivity.
  destruct (_ && _) eqn:E; [done|].
  apply andb_false_iff in E as [E|E]; [apply Z.leb_gt in E|apply Z.leb_gt in E]; lia.
Qed.

Lemma backoffLoop_last factor turns : forall delay,
  backoffLoop factor (S turns) delay
  = match backoffLoop factor turns delay with
    | Some d => scale factor d
    | None => None
    end.
Proof.
  induction turns as [|n IH]; intros delay.
  - simpl. by destruct (scale factor delay).
  - change (backoffLoop factor (S (S n)) delay)
      with (match scale factor delay with
            | Some d => backoffLoop factor (S n) d
            | None => None
            end).
    destruct (scale factor delay) as [d|] eqn:E.
    + rewrite IH. simpl. by rewrite E.
    + simpl. by rewrite E.
Qed.

Lemma backoffLoop_two turns : forall delay,
  0 <= delay -> delay * 2 ^ Z.of_nat turns < 2 ^ 53 ->
  backoffLoop two turns delay = Some (delay * 2 ^ Z.of_nat turns).
Proof.
  induction turns as [|n IH]; intros delay H0 H.
  - simpl. f_equal. lia.
  - rewrite Nat2Z.inj_succ, Z.pow_succ_r in * by lia.
    simpl. rewrite scale_two; [|done|].
    + rewrite IH; [f_equal; lia|lia|lia].
    + assert (0 < 2 ^ Z.of_nat n) by (apply Z.pow_pos_nonneg; lia).
      nia.
Qed.

Lemma floatValue_two : (floatValue two == inject_Z 2)%Q.
Proof. reflexivity. Qed.

End LoopFacts.

(** ** The writer reads three fields of the result *)

Module WriterInputs.

Import Plan Writer.

Definition sameInputs (r r' : StepResult) : Prop :=
  Success r = Success r' /\ Output r = Output r' /\ Reason r = Reason r'.

Lemma statusText_same r r' : sameInputs r r' -> statusText r = statusText r'.
Proof. intros (H & _ & _). unfold statusText. by rewrite H. Qed.

Lemma notesText_same r r' : sameInputs r r' -> notesText r = notesText r'.
Proof. intros (H1 & H2 & H3). unfold notesText. by rewrite H1, H2, H3. Qed.

Lemma firstPass_same n r r' lines : forall st,
  sameInputs r r' -> firstPass n r st lines = firstPass n r' st lines.
Proof.
  intros st H. revert st. induction lines as [|l lines IH]; intros st; [done|].
  simpl. assert (firstLine n r st l = firstLine n r' st l) as ->.
  { unfold firstLine. destruct H as (H & _ & _). by rewrite H. }
  destruct (firstLine n r' st l) as [st1 l']. by rewrite IH.
Qed.

Lemma secondPass_same n r r' now lines : forall st,
  sameInputs r r' -> secondPass n r now st lines = secondPass n r' now st lines.
Proof.
  intros st H. revert st. induction lines as [|l lines IH]; intros st; [done|].
  simpl. assert (secondLine n r now st l = secondLine n r' now st l) as ->.
  { unfold secondLine. by rewrite (statusText_same _ _ H), (notesText_same _ _ H). }
  destruct (secondLine n r' now st l) as [[st1 l']|]; [|done]. by rewrite IH.
Qed.

Lemma updateStepInContent_same content n r r' now :
  sameInputs r r' ->
  updateStepInContent content n r now = updateStepInContent content n r' now.
Proof.
  intros H. unfold updateStepInContent, createNotesSectionForStep.
  rewrite (firstPass_same _ _ _ _ _ H), (statusText_same _ _ H), (notesText_same _ _ H).
  destruct (firstPass n r' _ _) as [[c e] ls].
  by rewrite (secondPass_same n r r' now ls pass2_0 H).
Qed.

End WriterInputs.

(** ** The checkbox of a step line under [updateCheckbox] *)

Module CheckboxFacts.

Import Spec StringFacts LineFacts RegexpFacts Regexp Plan Parser Writer LineKinds.

(** [ReplaceAllString] for the checkbox pattern, read directly. *)
Fixpoint replBox (repl s : string) : string :=
  match s with
  | EmptyString => EmptyString
  | String a t =>
      if Byte.eqb "[" a then
        match t with
        | String c (String b rest) =>
            if oneOf " x!" c && Byte.eqb "]" b
            then repl +:+ replBox repl rest
            else String a (replBox repl t)
        | _ => String a (replBox repl t)
        end
      else String a (replBox repl t)
  end.

Lemma rmatch_checkbox s :
  rmatch checkboxRegex s [] (fun rest cs => Some (rest, cs))
  = match s with
    | String a (String c (String b rest)) =>
        if Byte.eqb "[" a && oneOf " x!" c && Byte.eqb "]" b
        then Some (rest, [(1%nat, String c EmptyString)])
        else None
    | _ => None
    end.
Proof.
  unfold checkboxRegex. cbn [rmatch Strings.stripPrefix].
  destruct s as [|a [|c [|b rest]]]; cbn [rmatch Strings.stripPrefix]; try done.
  - by destruct (Byte.eqb "[" a).
  - destruct (Byte.eqb "[" a); [|done]. cbn [andb]. by destruct (oneOf " x!" c).
  - destruct (Byte.eqb "[" a); [|done]. cbn [andb].
    destruct (oneOf " x!" c); [|done]. cbn [andb].
    destruct (Byte.eqb "]" b); [|done].
    cbn. do 3 f_equal. rewrite Nat.sub_succ_l by lia. by rewrite Nat.sub_diag.
Qed.

Lemma replaceAll_checkbox repl fuel : forall s,
  (String.length s <= fuel)%nat -> replaceAll fuel checkboxRegex s repl = replBox repl s.
Proof.
  induction fuel as [|fuel IH]; intros s Hs.
  - destruct s; [done|simpl in Hs; lia].
  - destruct s as [|a t]; [done|].
    cbn [replaceAll]. rewrite rmatch_checkbox. cbn [replBox].
    destruct t as [|c [|b rest]].
    + destruct (Byte.eqb "[" a); by rewrite IH by (simpl in *; lia).
    + destruct (Byte.eqb "[" a); by rewrite IH by (simpl in *; lia).
    + destruct (Byte.eqb "[" a); cbn [andb]; [|by rewrite IH by (simpl in *; lia)].
      destruct (oneOf " x!" c); cbn [andb]; [|by rewrite IH by (simpl in *; lia)].
      destruct (Byte.eqb "]" b); [|by rewrite IH by (simpl in *; lia)].
      assert ((String.length rest <? String.length (String a (String c (String b rest))))%nat = true) as ->.
      { apply Nat.ltb_lt. simpl. lia. }
      rewrite IH by (simpl in *; lia). done.
Qed.

Lemma updateCheckbox_replBox l marker :
  updateCheckbox l marker = replBox ("[" +:+ marker +:+ "]") l.
Proof. unfold updateCheckbox, ReplaceAllString. by apply replaceAll_checkbox. Qed.

(** The replacement text of [updateCheckbox] for a marker of one byte. *)
Definition box (m : ascii) : string := String "[" (String m (String "]" EmptyString)).

Lemma replBox_head m a t : exists t', replBox (box m) (String a t) = String a t'.
Proof.
  cbn [replBox]. destruct (Byte.eqb "[" a) eqn:E; [|eauto].
  apply byte_eqb_eq in E as <-.
  destruct t as [|c [|b rest]]; [eauto..|].
  destruct (_ && _); [|eauto]. unfold box. simpl. eauto.
Qed.

Lemma replBox_box m rest :
  oneOf " x!" m = true ->
  replBox (box m) (String "[" (String m (String "]" rest))) = box m +:+ replBox (box m) rest.
Proof. intros H. cbn [replBox]. rewrite byte_eqb_refl, H, byte_eqb_refl. done. Qed.

Lemma replBox_copy m a t :
  Byte.eqb "[" a = false -> replBox (box m) (String a t) = String a (replBox (box m) t).
Proof. intros H. cbn [replBox]. by rewrite H. Qed.

Lemma cls_not_bracket c : oneOf " x!" c = true -> Byte.eqb "[" c = false.
Proof.
  unfold oneOf. intros H.
  repeat (apply orb_true_iff in H as [H|H]; [apply byte_eqb_eq in H as <-; reflexivity|]).
  discriminate.
Qed.

Lemma replBox_short m s : (String.length s <= 2)%nat -> replBox (box m) s = s.
Proof.
  destruct s as [|a [|c [|b rest]]]; simpl String.length; intros H; try lia.
  - reflexivity.
  - cbn [replBox]. by destruct (Byte.eqb "[" a).
  - cbn [replBox]. destruct (Byte.eqb "[" a), (Byte.eqb "[" c); reflexivity.
Qed.

Lemma replBox_bracket_no m c b rest :
  oneOf " x!" c && Byte.eqb "]" b = false ->
  replBox (box m) (String "[" (String c (String b rest)))
  = String "[" (replBox (box m) (String c (String b rest))).
Proof. intros H. cbn [replBox]. rewrite byte_eqb_refl, H. done. Qed.

Lemma replBox_idem_aux m : oneOf " x!" m = true -> forall n s,
  (String.length s <= n)%nat ->
  replBox (box m) (replBox (box m) s) = replBox (box m) s.
Proof.
  intros Hm. induction n as [|n IH]; intros s Hs.
  { destruct s; [done|simpl in Hs; lia]. }
  destruct s as [|a t]; [done|]. simpl in Hs.
  destruct (Byte.eqb "[" a) eqn:Ea.
  2:{ rewrite !replBox_copy by done. rewrite IH by lia. done. }
  apply byte_eqb_eq in Ea as <-.
  destruct t as [|c [|b rest]].
  - by rewrite !(replBox_short m (String "[" EmptyString)) by (simpl; lia).
  - by rewrite !(replBox_short m (String "[" (String c EmptyString))) by (simpl; lia).
  - destruct (oneOf " x!" c && Byte.eqb "]" b) eqn:E.
    + apply andb_true_iff in E as [Ec Eb]. apply byte_eqb_eq in Eb as <-.
      assert (replBox (box m) (String "[" (String c (String "]" rest)))
              = box m +:+ replBox (box m) rest) as ->.
      { cbn [replBox]. by rewrite byte_eqb_refl, Ec, byte_eqb_refl. }
      change (box m +:+ replBox (box m) rest)
        with (String "[" (String m (String "]" (replBox (box m) rest)))).
      rewrite replBox_box by done. rewrite IH by (simpl in *; lia). done.
    + rewrite (replBox_bracket_no m c b rest E).
      destruct (replBox_head m c (String b rest)) as [t' Ht'].
      assert (replBox (box m) (String "[" (replBox (box m) (String c (String b rest))))
              = String "[" (replBox (box m) (replBox (box m) (String c (String b rest)))))
        as ->; [|by rewrite IH by (simpl in *; lia)].
      rewrite Ht'. destruct t' as [|b' rest'].
      { by rewrite !replBox_short by (simpl; lia). }
      apply replBox_bracket_no.
      destruct (oneOf " x!" c) eqn:Ec; [|done]. cbn [andb] in *.
      rewrite replBox_copy in Ht' by (by apply cls_not_bracket).
      destruct (replBox_head m b rest) as [t2 Ht2]. rewrite Ht2 in Ht'.
      injection Ht' as <- _. exact E.
Qed.

Lemma updateCheckbox_idem l m :
  oneOf " x!" m = true ->
  updateCheckbox (updateCheckbox l (String m EmptyString)) (String m EmptyString)
  = updateCheckbox l (String m EmptyString).
Proof.
  intros H. rewrite !updateCheckbox_replBox.
  change ("[" +:+ String m EmptyString +:+ "]") with (box m).
  by apply (replBox_idem_aux m H (String.length l)).
Qed.

Lemma space_not_bracket c : Byte.reSpace c = true -> Byte.eqb "[" c = false.
Proof.
  intros H. destruct (Byte.eqb "[" c) eqn:E; [|done].
  apply byte_eqb_eq in E as <-. discriminate.
Qed.

Lemma replBox_spaces m ws x :
  allIn Byte.reSpace ws = true -> replBox (box m) (ws +:+ x) = ws +:+ replBox (box m) x.
Proof.
  induction ws as [|c ws IH]; [done|]. cbn [allIn String.append]. intros H.
  apply andb_true_iff in H as [Hc Hws].
  rewrite replBox_copy by (by apply space_not_bracket). by rewrite IH.
Qed.

Lemma replBox_nonempty m s : s <> EmptyString -> replBox (box m) s <> EmptyString.
Proof.
  destruct s as [|a t]; [done|]. intros _.
  destruct (replBox_head m a t) as [t' ->]. done.
Qed.

Lemma replBox_bracket_yes m c rest :
  oneOf " x!" c = true ->
  replBox (box m) (String "[" (String c (String "]" rest)))
  = box m +:+ replBox (box m) rest.
Proof. intros H. cbn [replBox]. by rewrite byte_eqb_refl, H, byte_eqb_refl. Qed.

Lemma hasByte_replBox_aux c m : hasByte c (box m) = false -> forall n s,
  (String.length s <= n)%nat ->
  hasByte c s = false -> hasByte c (replBox (box m) s) = false.
Proof.
  intros Hb. induction n as [|n IH]; intros s Hs Hc.
  { destruct s; [done|simpl in Hs; lia]. }
  destruct s as [|a t]; [done|]. simpl in Hs.
  cbn [hasByte] in Hc. apply orb_false_iff in Hc as [Ha Ht].
  destruct (Byte.eqb "[" a) eqn:Ea.
  2:{ rewrite replBox_copy by done. cbn [hasByte]. rewrite Ha. apply IH; [lia|done]. }
  apply byte_eqb_eq in Ea as <-.
  destruct t as [|x [|y rest]].
  - rewrite replBox_short by (simpl; lia). cbn [hasByte]. by rewrite Ha.
  - rewrite replBox_short by (simpl; lia). cbn [hasByte] in *. by rewrite Ha, Ht.
  - destruct (oneOf " x!" x && Byte.eqb "]" y) eqn:E.
    + apply andb_true_iff in E as [Ex Ey]. apply byte_eqb_eq in Ey as <-.
      rewrite replBox_bracket_yes by done. rewrite hasByte_app, Hb.
      cbn [hasByte] in Ht. apply orb_false_iff in Ht as [_ Ht].
      apply orb_false_iff in Ht as [_ Ht].
      apply IH; [simpl in *; lia|done].
    + rewrite replBox_bracket_no by done. cbn [hasByte]. rewrite Ha.
      apply IH; [simpl in *; lia|done].
Qed.

Lemma oneLine_updateCheckbox l m :
  oneOf " x!" m = true -> oneLine l -> oneLine (updateCheckbox l (String m EmptyString)).
Proof.
  intros Hm Hl. rewrite updateCheckbox_replBox.
  change ("[" +:+ String m EmptyString +:+ "]") with (box m).
  apply (hasByte_replBox_aux Byte.LF m) with (n := String.length l); try done.
  unfold oneOf in Hm.
  repeat (apply orb_true_iff in Hm as [Hm|Hm]; [apply byte_eqb_eq in Hm as <-; reflexivity|]).
  discriminate.
Qed.

Lemma oneLine_allDot s : oneLine s -> allIn Byte.reDot s = true.
Proof.
  unfold oneLine. induction s as [|c s IH]; [done|]. simpl. intros H.
  apply orb_false_iff in H as [H1 H2]. unfold Byte.reDot. rewrite H1. simpl. auto.
Qed.

Lemma stepLine_shape_full l m :
  FindStringSubmatch stepLineRegex l = Some m ->
  exists ws c c0 u,
    l = "-" +:+ ws +:+ "[" +:+ String c ("]" +:+ String c0 u)
    /\ ws <> EmptyString /\ allIn Byte.reSpace ws = true
    /\ oneOf " x!-" c = true
    /\ Byte.reSpace c0 = true /\ u <> EmptyString
    /\ group m 1 = String c EmptyString.
Proof.
  intros H. find_shape H.
  match goal with
  | |- context [String.append ?ws (String.append "[" (String.append (String ?c EmptyString)
                 (String.append "]" (String.append ?w2 (String.append ?o (String.append ?g _))))))] =>
      match goal with
      | H4 : w2 <> EmptyString, H5 : allIn Byte.reSpace w2 = true,
        H6 : g <> EmptyString |- _ =>
          destruct w2 as [|c0 t0]; [done|];
          cbn [allIn] in H5; apply andb_true_iff in H5 as [H5 _];
          exists ws, c, c0, (t0 +:+ o +:+ g)
      end
  end.
  split; [rewrite !app_assoc, !app_nil_r; reflexivity|].
  repeat (split; [assumption|]).
  split.
  - intros Hu. apply app_eq_nil in Hu as [_ Hu]. apply app_eq_nil in Hu as [_ Hu]. done.
  - match goal with H : _ \/ _ |- _ => destruct H end; den_destruct; subst; reflexivity.
Qed.

Lemma stepLine_intro ws c c0 u :
  ws <> EmptyString -> allIn Byte.reSpace ws = true -> oneOf " x!-" c = true ->
  Byte.reSpace c0 = true -> u <> EmptyString -> allIn Byte.reDot u = true ->
  is_Some (FindStringSubmatch stepLineRegex
             ("-" +:+ ws +:+ "[" +:+ String c ("]" +:+ String c0 u))).
Proof.
  intros Hne Hws Hc Hc0 Hu Hdot.
  rewrite <- (app_nil_r (_ +:+ _)).
  eapply (Find_complete stepLineRegex _ EmptyString []).
  unfold stepLineRegex. cbn [den].
  exists "-", (ws +:+ "[" +:+ String c ("]" +:+ String c0 u)), [].
  split; [reflexivity|]. split; [done|].
  exists ws, ("[" +:+ String c ("]" +:+ String c0 u)), [].
  split; [reflexivity|]. split; [done|].
  exists "[", (String c ("]" +:+ String c0 u)), [].
  split; [reflexivity|]. split; [done|].
  exists (String c EmptyString), ("]" +:+ String c0 u), [(1%nat, String c EmptyString)].
  split; [reflexivity|]. split; [exists []; split; [exists c; done|done]|].
  exists "]", (String c0 u), [(1%nat, String c EmptyString)].
  split; [reflexivity|]. split; [done|].
  exists (String c0 EmptyString), u, [(1%nat, String c EmptyString)].
  split; [reflexivity|]. split; [split; [done|split; [simpl; by rewrite Hc0|done]]|].
  exists EmptyString, u, [(1%nat, String c EmptyString)].
  split; [reflexivity|]. split; [right; done|].
  exists u, EmptyString, ((3%nat, u) :: [(1%nat, String c EmptyString)]).
  split; [by rewrite app_nil_r|]. split; [|done].
  exists [(1%nat, String c EmptyString)]. done.
Qed.

Lemma spaces_bracket_unique ws1 : forall ws2 x y,
  allIn Byte.reSpace ws1 = true -> allIn Byte.reSpace ws2 = true ->
  ws1 +:+ String "[" x = ws2 +:+ String "[" y -> ws1 = ws2 /\ x = y.
Proof.
  induction ws1 as [|a ws1 IH]; intros [|b ws2] x y H1 H2; cbn [allIn String.append] in *.
  - by intros [= ->].
  - intros [= <- _]. apply andb_true_iff in H2 as [H2 _]. discriminate.
  - intros [= -> _]. apply andb_true_iff in H1 as [H1 _]. discriminate.
  - intros [= -> H]. apply andb_true_iff in H1 as [_ H1]. apply andb_true_iff in H2 as [_ H2].
    destruct (IH _ _ _ H1 H2 H) as [-> ->]. done.
Qed.

(** [updateCheckbox] on a checkbox line gives a checkbox line with the
    new marker, or with the old one when that is the skipped marker. *)
Lemma updateCheckbox_stepLine l m0 M :
  oneLine l -> oneOf " x!" M = true ->
  FindStringSubmatch stepLineRegex l = Some m0 ->
  exists m1,
    FindStringSubmatch stepLineRegex (updateCheckbox l (String M EmptyString)) = Some m1
    /\ group m1 1 = (if String.eqb (group m0 1) "-" then "-" else String M EmptyString).
Proof.
  intros Hl HM H0.
  destruct (stepLine_shape_full l m0 H0) as (ws & c & c0 & u & -> & Hne & Hws & Hc & Hc0 & Hu & Hg).
  rewrite updateCheckbox_replBox.
  change ("[" +:+ String M EmptyString +:+ "]") with (box M).
  assert (oneLine u) as Hlu.
  { apply oneLine_app in Hl as [_ Hl]. apply oneLine_app in Hl as [_ Hl].
    apply oneLine_app in Hl as [_ Hl].
    change (String c ("]" +:+ String c0 u)) with ((String c (String "]" (String c0 EmptyString))) +:+ u) in Hl.
    by apply oneLine_app in Hl as [_ Hl]. }
  assert (exists c', replBox (box M) ("-" +:+ ws +:+ "[" +:+ String c ("]" +:+ String c0 u))
                     = "-" +:+ ws +:+ "[" +:+ String c' ("]" +:+ String c0 (replBox (box M) u))
                     /\ oneOf " x!-" c' = true
                     /\ String c' EmptyString
                        = (if String.eqb (String c EmptyString) "-" then "-" else String M EmptyString))
    as (c' & -> & Hc' & Hmark).
  { change ("-" +:+ ws +:+ "[" +:+ String c ("]" +:+ String c0 u))
      with (String "-" (ws +:+ String "[" (String c (String "]" (String c0 u))))).
    rewrite replBox_copy by done. rewrite replBox_spaces by done.
    destruct (oneOf " x!" c) eqn:Ec3.
    - exists M. rewrite replBox_bracket_yes by done.
      rewrite replBox_copy by (by apply space_not_bracket).
      split; [reflexivity|]. split.
      + unfold oneOf in *. destruct (Byte.eqb " " M), (Byte.eqb "x" M), (Byte.eqb "!" M); done.
      + destruct (String.eqb_spec (String c EmptyString) "-") as [[= ->]|]; done.
    - assert (c = "-"%char) as ->.
      { unfold oneOf in *.
        destruct (Byte.eqb " " c), (Byte.eqb "x" c), (Byte.eqb "!" c); try done.
        cbn [orb] in Hc. rewrite orb_false_r in Hc. by apply byte_eqb_eq in Hc. }
      exists "-"%char. rewrite replBox_bracket_no by done.
      rewrite !replBox_copy by done.
      rewrite replBox_copy by (by apply space_not_bracket).
      done. }
  destruct (stepLine_intro ws c' c0 (replBox (box M) u)) as [m1 Hm1]; try done.
  { by apply replBox_nonempty. }
  { apply oneLine_allDot.
    apply (hasByte_replBox_aux Byte.LF M) with (n := String.length u); try done.
    unfold oneOf in HM.
    repeat (apply orb_true_iff in HM as [HM|HM]; [apply byte_eqb_eq in HM as <-; reflexivity|]).
    discriminate. }
  exists m1. split; [done|].
  destruct (stepLine_shape_full _ m1 Hm1) as (ws' & c2 & c0' & u' & Heq & _ & Hws' & _ & _ & _ & ->).
  injection Heq as Heq.
  apply spaces_bracket_unique in Heq as [_ [= <- _]]; try done.
  by rewrite Hg.
Qed.

End CheckboxFacts.

(** ** The lines that the writer produces *)

Module WrittenLines.

Import Spec StringFacts LineFacts RegexpFacts Regexp Plan Parser Writer LineKinds
       CheckboxFacts.

#[local] Arguments Byte.eqb : simpl never.

(** *** Decimal text *)

Lemma uint_digits u : allIn Byte.reDigit (NilEmpty.string_of_uint u) = true.
Proof. induction u; simpl; try done. Qed.

Lemma itoa_nonneg_digits n :
  0 <= n -> allIn Byte.reDigit (Fmt.itoa n) = true /\ Fmt.itoa n <> EmptyString.
Proof.
  intros H. destruct n as [|p|p]; [done| |lia]. unfold Fmt.itoa. split.
  - apply uint_digits.
  - intros E. pose proof (DecimalN.Unsigned.of_to (N.pos p)) as Hof.
    destruct (N.to_uint (N.pos p)) eqn:Eu; try discriminate E. discriminate Hof.
Qed.

Lemma scanInt_itoa n : 0 <= n <= Fmt.maxInt -> Fmt.scanInt (Fmt.itoa n) = Some n.
Proof.
  intros H. unfold Fmt.scanInt. destruct n as [|p|p]; [done| |lia].
  unfold Fmt.itoa. rewrite NilEmpty.usu, DecimalN.Unsigned.of_to.
  simpl Z.of_N. destruct (Z.pos p <=? Fmt.maxInt) eqn:E; [done|].
  apply Z.leb_gt in E. lia.
Qed.

Lemma digits_no_byte c s :
  Byte.reDigit c = false -> allIn Byte.reDigit s = true -> hasByte c s = false.
Proof.
  intros Hc. induction s as [|a s IH]; [done|]. simpl. intros H.
  apply andb_true_iff in H as [Ha Hs]. rewrite IH by done.
  destruct (Byte.eqb a c) eqn:E; [|done]. apply byte_eqb_eq in E as ->. congruence.
Qed.

(** *** The timestamp *)

Lemma zeros_no_byte c n : Byte.eqb "0" c = false -> hasByte c (Time.zeros n) = false.
Proof. intros H. induction n as [|n IH]; [done|]. simpl. by rewrite H. Qed.

Lemma pad_no_byte c w x :
  Byte.reDigit c = false -> Byte.eqb "-" c = false -> hasByte c (Time.pad w x) = false.
Proof.
  intros Hd Hm. unfold Time.pad. rewrite !hasByte_app.
  rewrite zeros_no_byte.
  - rewrite (digits_no_byte c (Fmt.itoa (Z.abs x))); [|done|apply itoa_nonneg_digits; lia].
    destruct (x <? 0); simpl; by rewrite ?Hm.
  - destruct (Byte.eqb "0" c) eqn:E; [|done]. apply byte_eqb_eq in E as <-. discriminate.
Qed.

Lemma Format_no_byte c t :
  Byte.reDigit c = false -> Byte.eqb "-" c = false -> Byte.eqb " " c = false ->
  Byte.eqb ":" c = false -> hasByte c (Time.Format t) = false.
Proof.
  intros Hd H1 H2 H3. unfold Time.Format.
  rewrite !hasByte_app, !pad_no_byte by done. simpl. by rewrite H1, H2, H3.
Qed.

Lemma Format_oneLine t : oneLine (Time.Format t).
Proof. by apply Format_no_byte. Qed.

Lemma Format_noCR t : hasByte Byte.CR (Time.Format t) = false.
Proof. by apply Format_no_byte. Qed.

Lemma Format_nonempty t : Time.Format t <> EmptyString.
Proof.
  unfold Time.Format. intros E.
  apply app_eq_nil in E as [_ E]. discriminate E.
Qed.


(** *** Carriage returns at the end of a line *)

Definition lastByte (s : string) : option ascii :=
  match Strings.rev s with
  | String c _ => Some c
  | EmptyString => None
  end.

Lemma dropCR_lastByte s : lastByte s <> Some Byte.CR -> Bufio.dropCR s = s.
Proof.
  unfold lastByte, Bufio.dropCR. destruct (Strings.rev s) as [|c t]; [done|].
  intros H. destruct (Byte.eqb c Byte.CR) eqn:E; [|done].
  apply byte_eqb_eq in E as ->. done.
Qed.

Lemma lastByte_app a b : b <> EmptyString -> lastByte (a +:+ b) = lastByte b.
Proof.
  intros Hb. unfold lastByte. rewrite rev_app.
  destruct (Strings.rev b) as [|c t] eqn:E; [|done].
  apply (f_equal Strings.rev) in E. rewrite rev_involutive in E. done.
Qed.

Lemma lastByte_hasByte s c : lastByte s = Some c -> hasByte c s = true.
Proof.
  unfold lastByte. intros H. rewrite <- hasByte_rev.
  destruct (Strings.rev s) as [|a t]; [done|]. injection H as ->.
  cbn [hasByte]. by rewrite byte_eqb_refl.
Qed.

Lemma dropCR_noCR s : hasByte Byte.CR s = false -> Bufio.dropCR s = s.
Proof.
  intros H. apply dropCR_lastByte. intros E. apply lastByte_hasByte in E. congruence.
Qed.

(** *** Trimmed text begins and ends with a byte that is not a space *)

Lemma trimLeft_head_aux n : forall s, (String.length s <= n)%nat ->
  Strings.trimLeft s = EmptyString
  \/ exists c t, Strings.trimLeft s = String c t /\ Byte.asciiSpace c = false.
Proof.
  induction n as [|n IH]; intros s Hn.
  - destruct s; [by left|simpl in Hn; lia].
  - destruct s as [|a t]; [by left|]. simpl in Hn. cbn [Strings.trimLeft].
    destruct (Byte.asciiSpace a) eqn:Ea; [apply IH; lia|].
    destruct t as [|b u]; [right; eauto|]. simpl in Hn.
    destruct (Strings.isSpace2 a b); [apply IH; lia|].
    destruct u as [|c v]; [right; eauto|]. simpl in Hn.
    destruct (Strings.isSpace3 a b c); [apply IH; lia|right; eauto].
Qed.

Lemma trimLeftRev_head_aux n : forall s, (String.length s <= n)%nat ->
  Strings.trimLeftRev s = EmptyString
  \/ exists c t, Strings.trimLeftRev s = String c t /\ Byte.asciiSpace c = false.
Proof.
  induction n as [|n IH]; intros s Hn.
  - destruct s; [by left|simpl in Hn; lia].
  - destruct s as [|a t]; [by left|]. simpl in Hn. cbn [Strings.trimLeftRev].
    destruct (Byte.asciiSpace a) eqn:Ea; [apply IH; lia|].
    destruct t as [|b u]; [right; eauto|]. simpl in Hn.
    destruct (Strings.isSpace2 b a); [apply IH; lia|].
    destruct u as [|c v]; [right; eauto|]. simpl in Hn.
    destruct (Strings.isSpace3 c b a); [apply IH; lia|right; eauto].
Qed.

Lemma TrimSpace_first s c t :
  Strings.TrimSpace s = String c t -> Byte.asciiSpace c = false.
Proof.
  unfold Strings.TrimSpace. intros H.
  destruct (trimRight_prefix (Strings.trimLeft s)) as [b Hb]. rewrite H in Hb.
  destruct (trimLeft_head_aux _ (Strings.trimLeft s) (le_n _)) as [E|(c' & t' & E & Hc)].
  - destruct (trimLeft_head_aux _ s (le_n _)) as [E'|(c' & t' & E' & Hc)].
    + rewrite E' in Hb. discriminate.
    + rewrite E' in Hb. injection Hb as <- _. done.
  - destruct (trimLeft_head_aux _ s (le_n _)) as [E'|(c2 & t2 & E' & Hc2)].
    + rewrite E' in Hb. discriminate.
    + rewrite E' in Hb. injection Hb as <- _. done.
Qed.

Lemma TrimSpace_last s c :
  lastByte (Strings.TrimSpace s) = Some c -> Byte.asciiSpace c = false.
Proof.
  unfold lastByte, Strings.TrimSpace, Strings.trimRight. rewrite rev_involutive.
  destruct (trimLeftRev_head_aux _ (Strings.rev (Strings.trimLeft s)) (le_n _))
    as [->|(c' & t' & -> & Hc)]; [done|].
  by intros [= <-].
Qed.

End WrittenLines.

(** ** What the writer sees of a line *)

Module WriterViews.

Import Spec StringFacts LineFacts RegexpFacts Regexp Plan Parser Writer LineKinds
       CheckboxFacts WrittenLines.

#[local] Arguments Byte.eqb : simpl never.

(** The tests that the two passes of the writer make on a line. *)
Record view : Type := mkView {
  vStep : bool;
  vHeader : option Z;
  vStatus : bool;
  vLastRun : bool;
  vNotes : bool;
  vPrefix : bool
}.

Definition wview (l : string) : view :=
  mkView (MatchString stepLineRegex l) (headerNum l)
         (MatchString statusRegex l) (MatchString lastRunRegex l)
         (MatchString notesRegex l) (Strings.HasPrefix l "### Step").

Definition firstLineV (n : Z) (r : StepResult) (st : Z * bool) (v : view) (l : string)
  : (Z * bool) * string :=
  let c := if vStep v then fst st + 1 else fst st in
  ((c, match vHeader v with Some _ => true | None => snd st end),
   if vStep v && (c =? n) then updateCheckbox l (if Success r then "x" else "!") else l).

Lemma firstLine_view n r st l : firstLine n r st l = firstLineV n r st (wview l) l.
Proof.
  destruct st as [c e]. unfold firstLine, firstLineV, wview, headerNum, MatchString. simpl.
  destruct (FindStringSubmatch stepLineRegex l);
    destruct (FindStringSubmatch notesSectionRegex l); simpl;
    try destruct (c + 1 =? n); reflexivity.
Qed.

(** The second pass on a line: the header it may be, the field
    it may rewrite, the block it may leave. *)
Definition enter (n : Z) (st : pass2) (v : view) : pass2 :=
  match vHeader v with
  | Some num => mkPass2 true num (if num =? n then true else foundNotesSection st)
  | None => st
  end.

Definition field (n : Z) (r : StepResult) (now : Time.t) (st1 : pass2)
           (v : view) (l : string) : string :=
  if inNotesSection st1 && (notesStepNum st1 =? n) then
    if vStatus v then "**Status**: " +:+ statusText r
    else if vLastRun v then "**Last Run**: " +:+ Time.Format now
    else if vNotes v then "**Notes**: " +:+ notesText r
    else l
  else l.

Definition leave (st1 : pass2) (v : view) : option pass2 :=
  if inNotesSection st1 && vPrefix v then
    match vHeader v with
    | None => None
    | Some num =>
        if negb (notesStepNum st1 =? num)
        then Some (mkPass2 false (notesStepNum st1) (foundNotesSection st1))
        else Some st1
    end
  else Some st1.

Lemma secondLine_view n r now st l :
  secondLine n r now st l =
  match leave (enter n st (wview l)) (wview l) with
  | Some s => Some (s, field n r now (enter n st (wview l)) (wview l) l)
  | None => None
  end.
Proof.
  unfold secondLine, leave, enter, field, wview, headerNum. simpl.
  destruct (FindStringSubmatch notesSectionRegex l); simpl.
  - destruct (Strings.HasPrefix l "### Step"); simpl; [|done].
    by destruct (negb _).
  - destruct (inNotesSection st && Strings.HasPrefix l "### Step"); done.
Qed.

(** *** The views of the lines of a document *)

Definition stepView : view := mkView true None false false false false.
Definition statusView : view := mkView false None true false false false.
Definition lastRunView : view := mkView false None false true false false.
Definition notesView : view := mkView false None false false true false.
Definition plainView : view := mkView false None false false false false.

Ltac view_prefix :=
  unfold wview, headerNum, MatchString, FindStringSubmatch, Strings.HasPrefix; reflexivity.

Lemma view_step l : MatchString stepLineRegex l = true -> wview l = stepView.
Proof.
  intros H. pose proof H as H'. apply Match_Find in H' as [m Hm].
  apply step_prefix in Hm as [x ->].
  unfold wview. rewrite H. unfold headerNum, MatchString, FindStringSubmatch. reflexivity.
Qed.

Lemma view_status l : MatchString statusRegex l = true -> wview l = statusView.
Proof.
  intros H. pose proof H as H'. apply Match_Find in H' as [m Hm].
  apply status_prefix in Hm as [x ->].
  unfold wview. rewrite H. unfold headerNum, MatchString, FindStringSubmatch. reflexivity.
Qed.

Lemma view_lastRun l : MatchString lastRunRegex l = true -> wview l = lastRunView.
Proof.
  intros H. pose proof H as H'. apply Match_Find in H' as [m Hm].
  apply lastRun_prefix in Hm as [x ->].
  unfold wview. rewrite H. unfold headerNum, MatchString, FindStringSubmatch. reflexivity.
Qed.

Lemma view_notes l : MatchString notesRegex l = true -> wview l = notesView.
Proof.
  intros H. pose proof H as H'. apply Match_Find in H' as [m Hm].
  apply notes_prefix in Hm as [x ->].
  unfold wview. rewrite H. unfold headerNum, MatchString, FindStringSubmatch. reflexivity.
Qed.

(** *** The views of the lines that the writer produces *)

Lemma view_updateCheckbox l M :
  oneLine l -> oneOf " x!" M = true -> MatchString stepLineRegex l = true ->
  wview (updateCheckbox l (String M EmptyString)) = stepView.
Proof.
  intros Hl HM H. apply Match_Find in H as [m Hm].
  destruct (updateCheckbox_stepLine l m M Hl HM Hm) as (m1 & Hm1 & _).
  apply view_step. by eapply Match_of_Find_Some.
Qed.

Lemma view_statusLine r : wview ("**Status**: " +:+ statusText r) = statusView.
Proof. unfold statusText. destruct (Success r); vm_compute; reflexivity. Qed.

Lemma lastRunLine_matches x :
  x <> EmptyString -> oneLine x -> MatchString lastRunRegex ("**Last Run**: " +:+ x) = true.
Proof.
  intros Hx Hl. apply Match_Find. rewrite <- (app_nil_r (_ +:+ x)).
  eapply (Find_complete lastRunRegex _ EmptyString []).
  unfold lastRunRegex. cbn [den].
  exists "**Last Run**:", (" " +:+ x), []. split; [reflexivity|]. split; [done|].
  exists " ", x, []. split; [reflexivity|]. split; [done|].
  exists x, EmptyString, [(1%nat, x)]. split; [by rewrite app_nil_r|]. split; [|done].
  exists []. split; [|done]. split; [done|]. split; [by apply oneLine_allDot|done].
Qed.

Lemma view_lastRunLine now : wview ("**Last Run**: " +:+ Time.Format now) = lastRunView.
Proof.
  apply view_lastRun, lastRunLine_matches; [apply Format_nonempty|apply Format_oneLine].
Qed.

Lemma notesLine_matches x :
  oneLine x -> MatchString notesRegex ("**Notes**: " +:+ x) = true.
Proof.
  intros Hl. apply Match_Find. rewrite <- (app_nil_r (_ +:+ x)).
  eapply (Find_complete notesRegex _ EmptyString []).
  unfold notesRegex. cbn [den].
  exists "**Notes**:", (" " +:+ x), []. split; [reflexivity|]. split; [done|].
  exists " ", x, []. split; [reflexivity|]. split; [done|].
  exists x, EmptyString, [(1%nat, x)]. split; [by rewrite app_nil_r|]. split; [|done].
  exists []. split; [|done]. split; [by apply oneLine_allDot|done].
Qed.

Lemma view_notesLine x : oneLine x -> wview ("**Notes**: " +:+ x) = notesView.
Proof. intros H. by apply view_notes, notesLine_matches. Qed.


Lemma space_not_digit c : Byte.reSpace c = true -> Byte.reDigit c = false.
Proof. destruct c as [[] [] [] [] [] [] [] []]; try done. Qed.


Lemma headerLine_group D m :
  allIn Byte.reDigit D = true ->
  FindStringSubmatch notesSectionRegex ("### Step " +:+ D) = Some m ->
  group m 1 = D.
Proof.
  intros Hd Hm.
  apply Find_sound in Hm as (a & b & Heq & H).
  unfold notesSectionRegex in H. cbn [den] in H.
  destruct H as (a1 & a2 & cs1 & -> & [-> ->] & H).
  destruct H as (w1 & a3 & cs2 & -> & (N1 & A1 & ->) & H).
  destruct H as (a4 & a5 & cs3 & -> & [-> ->] & H).
  destruct H as (w2 & a6 & cs4 & -> & (N2 & A2 & ->) & H).
  destruct H as (g & a7 & cs5 & -> & (cs6 & (Ng & Ag & ->) & ->) & (-> & -> & ->)).
  rewrite !app_nil_r in Heq.
  destruct w1 as [|c1 [|d1 t1]]; [done| |]; cbn [String.append allIn] in Heq, A1.
  2: { injection Heq as ? ? ?; subst. vm_compute in A1. discriminate. }
  destruct w2 as [|c2 [|d2 t2]]; [done| |]; cbn [String.append allIn] in Heq, A2.
  { injection Heq as ? ? ?; subst. reflexivity. }
  destruct D as [|d D]; [injection Heq as ? ?; destruct t2; discriminate|].
  cbn [String.append] in Heq. injection Heq as ? ? ? ?; subst.
  apply andb_true_iff in A2 as [_ A2]. apply andb_true_iff in A2 as [A2 _].
  cbn [allIn] in Hd. apply andb_true_iff in Hd as [Hd _].
  apply space_not_digit in A2. congruence.
Qed.

Definition headerView (n : Z) : view := mkView false (Some n) false false false true.

Lemma view_headerLine n :
  0 <= n <= Fmt.maxInt -> wview ("### Step " +:+ Fmt.itoa n) = headerView n.
Proof.
  intros Hn. destruct (itoa_nonneg_digits n) as [Hd Hne]; [lia|].
  assert (is_Some (FindStringSubmatch notesSectionRegex ("### Step " +:+ Fmt.itoa n)))
    as [m Hm].
  { rewrite <- (app_nil_r (_ +:+ Fmt.itoa n)).
    eapply (Find_complete notesSectionRegex _ EmptyString []).
    unfold notesSectionRegex. cbn [den].
    exists "###", (" Step " +:+ Fmt.itoa n), []. split; [reflexivity|]. split; [done|].
    exists " ", ("Step " +:+ Fmt.itoa n), []. split; [reflexivity|]. split; [done|].
    exists "Step", (" " +:+ Fmt.itoa n), []. split; [reflexivity|]. split; [done|].
    exists " ", (Fmt.itoa n), []. split; [reflexivity|]. split; [done|].
    exists (Fmt.itoa n), EmptyString, [(1%nat, Fmt.itoa n)].
    split; [by rewrite app_nil_r|]. split; [|done].
    exists []. done. }
  unfold wview, headerNum. rewrite Hm, (headerLine_group _ _ Hd Hm).
  unfold parseStepNumber. rewrite scanInt_itoa by done.
  unfold MatchString, FindStringSubmatch, Strings.HasPrefix. reflexivity.
Qed.

Lemma view_empty : wview EmptyString = plainView.
Proof. vm_compute. reflexivity. Qed.

Lemma view_notesHeading : wview "## Notes" = plainView.
Proof. vm_compute. reflexivity. Qed.

(** *** The written notes are a single line *)

Lemma hasByte_take c n : forall s, hasByte c s = false -> hasByte c (Strings.take n s) = false.
Proof.
  induction n as [|n IH]; intros [|a s]; simpl; try done.
  intros H. apply orb_false_iff in H as [-> H]. by rewrite IH.
Qed.

Lemma lastMeaningful_oneLine ls : Forall oneLine ls -> oneLine (lastMeaningful ls).
Proof.
  induction 1 as [|l ls Hl _ IH]; [done|]. cbn [lastMeaningful].
  pose proof (oneLine_TrimSpace l Hl) as Ht.
  destruct (_ && _); [|done].
  destruct (100 <? _); [|done].
  apply oneLine_app. split; [|done]. by apply hasByte_take.
Qed.

Lemma summarizeOutput_oneLine out : oneLine (summarizeOutput out).
Proof.
  unfold summarizeOutput. destruct (_ =? 0); [done|].
  apply lastMeaningful_oneLine, List.Forall_rev, Split_pieces.
Qed.

Lemma notesText_oneLine r : oneLine (Reason r) -> oneLine (notesText r).
Proof.
  intros H. unfold notesText. destruct (_ && _).
  - apply oneLine_app. by split.
  - apply summarizeOutput_oneLine.
Qed.

Lemma statusText_oneLine r : oneLine (statusText r).
Proof. unfold statusText. by destruct (negb _). Qed.

(** *** One line, patched twice *)

Lemma firstLine_plain n r st l :
  vStep (wview l) = false ->
  firstLine n r st l
  = ((fst st, match vHeader (wview l) with Some _ => true | None => snd st end), l).
Proof. intros H. rewrite firstLine_view. unfold firstLineV. by rewrite H. Qed.

Lemma firstLine_stable n r st l st' l' :
  oneLine l -> firstLine n r st l = (st', l') ->
  wview l' = wview l /\ oneLine l' /\ firstLine n r st l' = (st', l').
Proof.
  intros Hl. rewrite firstLine_view. unfold firstLineV.
  destruct (vStep (wview l)) eqn:Es.
  - pose proof (view_step l Es) as Hv. rewrite Hv. cbn [andb].
    destruct (fst st + 1 =? n) eqn:En; intros [= <- <-].
    + assert (forall M, oneOf " x!" M = true ->
                (if Success r then "x" else "!") = String M EmptyString ->
                wview (updateCheckbox l (String M EmptyString)) = stepView
                /\ oneLine (updateCheckbox l (String M EmptyString))
                /\ firstLine n r st (updateCheckbox l (String M EmptyString))
                   = (fst st + 1, snd st, updateCheckbox l (String M EmptyString)))
        as HM.
      { intros M HM EM. pose proof (view_updateCheckbox l M Hl HM Es) as Hv'.
        split; [done|]. split; [by apply oneLine_updateCheckbox|].
        rewrite firstLine_view, Hv'. unfold firstLineV, stepView.
        cbn [vStep vHeader andb]. rewrite En, EM. by rewrite updateCheckbox_idem. }
      unfold stepView. cbn [vStep vHeader].
      destruct (Success r); by apply HM.
    + split; [done|]. split; [done|].
      rewrite firstLine_view, Hv. unfold firstLineV, stepView. cbn [vStep vHeader andb].
      by rewrite En.
  - intros [= <- <-]. split; [done|]. split; [done|].
    rewrite firstLine_view. unfold firstLineV. by rewrite Es.
Qed.


Lemma field_view n r now st1 l :
  oneLine (notesText r) -> wview (field n r now st1 (wview l) l) = wview l.
Proof.
  intros HN. unfold field. destruct (_ && _); [|done].
  destruct (vStatus (wview l)) eqn:E1.
  { rewrite (view_status l E1). apply view_statusLine. }
  destruct (vLastRun (wview l)) eqn:E2.
  { rewrite (view_lastRun l E2). apply view_lastRunLine. }
  destruct (vNotes (wview l)) eqn:E3; [|done].
  rewrite (view_notes l E3). by apply view_notesLine.
Qed.

Lemma field_oneLine n r now st1 l :
  oneLine (notesText r) -> oneLine l -> oneLine (field n r now st1 (wview l) l).
Proof.
  intros HN Hl. unfold field. destruct (_ && _); [|done].
  destruct (vStatus _).
  { apply oneLine_app. split; [done|apply statusText_oneLine]. }
  destruct (vLastRun _).
  { apply oneLine_app. split; [done|apply Format_oneLine]. }
  destruct (vNotes _); [|done].
  apply oneLine_app. by split.
Qed.

Lemma field_step n r now st1 l :
  vStep (wview l) = true -> field n r now st1 (wview l) l = l.
Proof.
  intros H. rewrite (view_step l H). unfold field, stepView. cbn [vStatus vLastRun vNotes].
  by destruct (_ && _).
Qed.

Lemma field_again n r t1 t2 st1 v l :
  field n r t2 st1 v (field n r t1 st1 v l) = field n r t2 st1 v l.
Proof.
  unfold field. destruct (_ && _); [|done].
  destruct (vStatus v); [done|]. destruct (vLastRun v); [done|].
  destruct (vNotes v); done.
Qed.

Lemma secondLine_stable n r t1 t2 st l st' l' :
  oneLine (notesText r) -> oneLine l ->
  secondLine n r t1 st l = Some (st', l') ->
  wview l' = wview l /\ oneLine l'
  /\ (vStep (wview l) = true -> l' = l)
  /\ secondLine n r t2 st l = Some (st', field n r t2 (enter n st (wview l)) (wview l) l)
  /\ secondLine n r t2 st l' = secondLine n r t2 st l.
Proof.
  intros HN Hl. rewrite !secondLine_view.
  destruct (leave _ _) as [s|] eqn:E; [|done]. intros [= <- <-].
  split; [by apply field_view|]. split; [by apply field_oneLine|].
  split; [apply field_step|]. split; [done|].
  rewrite field_view by done. rewrite E. by rewrite field_again.
Qed.

(** *** Both passes, run twice *)

Definition sameView (l l' : string) : Prop :=
  wview l' = wview l /\ (vStep (wview l) = true -> l' = l).

Lemma firstPass_stable n r : forall L st st' L1,
  Forall oneLine L -> firstPass n r st L = (st', L1) ->
  Forall2 (fun l l1 => wview l1 = wview l) L L1 /\ Forall oneLine L1
  /\ firstPass n r st L1 = (st', L1).
Proof.
  induction L as [|l L IH]; intros st st' L1 HL; cbn [firstPass].
  - intros [= <- <-]. by repeat split.
  - apply List.Forall_cons_iff in HL as [Hl HL].
    destruct (firstLine n r st l) as [st1 l1] eqn:E1.
    destruct (firstPass n r st1 L) as [st2 L2] eqn:E2. intros [= <- <-].
    destruct (firstLine_stable _ _ _ _ _ _ Hl E1) as (V1 & O1 & F1).
    destruct (IH _ _ _ HL E2) as (V2 & O2 & F2).
    split; [by constructor|]. split; [by constructor|].
    cbn [firstPass]. by rewrite F1, F2.
Qed.

Lemma firstPass_transfer n r : forall L L2 st st',
  Forall2 sameView L L2 ->
  firstPass n r st L = (st', L) -> firstPass n r st L2 = (st', L2).
Proof.
  intros L L2 st st' H. revert st st'.
  induction H as [|l l2 L L2 [Hv Hs] _ IH]; intros st st'; [done|].
  cbn [firstPass].
  destruct (firstLine n r st l) as [st1 l1] eqn:E1.
  destruct (firstPass n r st1 L) as [st2 L1] eqn:E2. intros [= <- -> ->].
  rewrite firstLine_view in E1. rewrite firstLine_view, Hv.
  assert (firstLineV n r st (wview l) l2 = (st1, l2)) as ->.
  { destruct (vStep (wview l)) eqn:Es; [by rewrite (Hs eq_refl)|].
    unfold firstLineV in *. rewrite Es in *. cbn [andb] in *. by injection E1 as <-. }
  by rewrite (IH _ _ E2).
Qed.

Lemma secondPass_stable n r t1 t2 : forall L st st' L2,
  oneLine (notesText r) -> Forall oneLine L ->
  secondPass n r t1 st L = Some (st', L2) ->
  Forall2 sameView L L2 /\ Forall oneLine L2
  /\ (exists L2', secondPass n r t2 st L = Some (st', L2')
                  /\ secondPass n r t2 st L2 = Some (st', L2')).
Proof.
  induction L as [|l L IH]; intros st st' L2 HN HL; cbn [secondPass].
  - intros [= <- <-]. repeat split; try done. by exists [].
  - apply List.Forall_cons_iff in HL as [Hl HL].
    destruct (secondLine n r t1 st l) as [[st1 l1]|] eqn:E1; [|done].
    destruct (secondPass n r t1 st1 L) as [[st2 L1]|] eqn:E2; [|done]. intros [= <- <-].
    destruct (secondLine_stable n r t1 t2 _ _ _ _ HN Hl E1) as (V1 & O1 & S1 & N1 & A1).
    destruct (IH _ _ _ HN HL E2) as (V2 & O2 & L2' & N2 & A2).
    split; [by constructor|]. split; [by constructor|].
    eexists. cbn [secondPass]. rewrite A1, N1, N2, A2. done.
Qed.


(** *** The two flags of the writer *)

Lemma firstPass_flag n r : forall L st st' L1,
  firstPass n r st L = (st', L1) -> snd st' = snd st || existsb isHeader L.
Proof.
  induction L as [|l L IH]; intros st st' L1; cbn [firstPass existsb].
  - intros [= <- <-]. by rewrite orb_false_r.
  - destruct (firstLine n r st l) as [st1 l1] eqn:E1.
    destruct (firstPass n r st1 L) as [st2 L2] eqn:E2. intros [= <- <-].
    rewrite (IH _ _ _ E2). rewrite firstLine_view in E1. injection E1 as <- _.
    unfold isHeader. cbn [snd wview vHeader].
    destruct (headerNum l); [by rewrite orb_true_r|done].
Qed.

Lemma secondLine_found n r t st l st' l' :
  secondLine n r t st l = Some (st', l') ->
  foundNotesSection st' = foundNotesSection st || headerOf n l.
Proof.
  rewrite secondLine_view. unfold leave, enter, headerOf. cbn [wview vHeader vPrefix].
  destruct (headerNum l) as [m|]; cbn [inNotesSection notesStepNum foundNotesSection].
  - destruct (true && _); [destruct (negb _)|]; intros [= <- <-];
      cbn [foundNotesSection]; destruct (m =? n); by rewrite ?orb_true_r, ?orb_false_r.
  - destruct (_ && _); [done|]. intros [= <- <-]. by rewrite orb_false_r.
Qed.

Lemma secondPass_found n r t : forall L st st' L',
  secondPass n r t st L = Some (st', L') ->
  foundNotesSection st' = foundNotesSection st || existsb (headerOf n) L.
Proof.
  induction L as [|l L IH]; intros st st' L'; cbn [secondPass existsb].
  - intros [= <- <-]. by rewrite orb_false_r.
  - destruct (secondLine n r t st l) as [[st1 l1]|] eqn:E1; [|done].
    destruct (secondPass n r t st1 L) as [[st2 L1]|] eqn:E2; [|done]. intros [= <- <-].
    rewrite (IH _ _ _ E2), (secondLine_found _ _ _ _ _ _ _ E1). by rewrite orb_assoc.
Qed.

Lemma secondPass_noHeader n r t : forall L st,
  existsb isHeader L = false -> inNotesSection st = false ->
  secondPass n r t st L = Some (st, L).
Proof.
  induction L as [|l L IH]; intros st HL Hst; [done|].
  cbn [existsb] in HL. apply orb_false_iff in HL as [Hl HL].
  cbn [secondPass]. rewrite secondLine_view.
  unfold leave, enter, field, isHeader in *. cbn [wview vHeader].
  destruct (headerNum l); [done|]. rewrite Hst. cbn [andb].
  by rewrite (IH _ HL Hst).
Qed.

Lemma existsb_isHeader L L1 :
  Forall2 (fun l l1 => wview l1 = wview l) L L1 ->
  existsb isHeader L1 = existsb isHeader L.
Proof.
  induction 1 as [|l l1 L L1 Hv _ IH]; [done|]. cbn [existsb]. rewrite IH.
  unfold isHeader. change (headerNum l1) with (vHeader (wview l1)). by rewrite Hv.
Qed.

Lemma existsb_headerOf n L L1 :
  Forall2 (fun l l1 => wview l1 = wview l) L L1 ->
  existsb (headerOf n) L1 = existsb (headerOf n) L.
Proof.
  induction 1 as [|l l1 L L1 Hv _ IH]; [done|]. cbn [existsb]. rewrite IH.
  unfold headerOf. change (headerNum l1) with (vHeader (wview l1)). by rewrite Hv.
Qed.

Lemma headerOf_isHeader n L : existsb (headerOf n) L = true -> existsb isHeader L = true.
Proof.
  induction L as [|l L IH]; [done|]. cbn [existsb]. intros H.
  apply orb_true_iff in H as [H|H]; [|by rewrite IH, orb_true_r].
  unfold headerOf, isHeader in *. by destruct (headerNum l).
Qed.

(** *** The passes over a document and the lines appended to it *)

Lemma firstPass_app n r : forall A B st,
  firstPass n r st (A ++ B) =
  let '(st1, A') := firstPass n r st A in
  let '(st2, B') := firstPass n r st1 B in (st2, A' ++ B').
Proof.
  induction A as [|l A IH]; intros B st; cbn [firstPass app].
  - by destruct (firstPass n r st B).
  - destruct (firstLine n r st l) as [st1 l1]. rewrite IH.
    destruct (firstPass n r st1 A) as [st2 A']. by destruct (firstPass n r st2 B).
Qed.

Lemma secondPass_app n r t : forall A B st,
  secondPass n r t st (A ++ B) =
  match secondPass n r t st A with
  | Some (st1, A') =>
      match secondPass n r t st1 B with
      | Some (st2, B') => Some (st2, A' ++ B')
      | None => None
      end
  | None => None
  end.
Proof.
  induction A as [|l A IH]; intros B st; cbn [secondPass app].
  - by destruct (secondPass n r t st B) as [[? ?]|].
  - destruct (secondLine n r t st l) as [[st1 l1]|]; [|done]. rewrite IH.
    destruct (secondPass n r t st1 A) as [[st2 A']|]; [|done].
    by destruct (secondPass n r t st2 B) as [[? ?]|].
Qed.

Lemma Join_flat ys : ys <> [] -> forall xs,
  Strings.Join (xs ++ [Strings.Join ys nl]) nl = Strings.Join (xs ++ ys) nl.
Proof.
  intros Hy. induction xs as [|x xs IH]; [done|].
  cbn [app]. destruct xs as [|x' xs].
  - destruct ys; done.
  - cbn [app] in *. by rewrite !Join_cons, IH.
Qed.

(** The lines of a new block. *)
Definition blockLines (n : Z) (r : StepResult) (now : Time.t) : list string :=
  ["### Step " +:+ Fmt.itoa n; "**Status**: " +:+ statusText r;
   "**Last Run**: " +:+ Time.Format now; "**Notes**: " +:+ notesText r].

Lemma block_lines n r now :
  createNotesSectionForStep n r now = Strings.Join (blockLines n r now) nl.
Proof.
  unfold createNotesSectionForStep, blockLines. cbn [Strings.Join].
  by rewrite !app_assoc.
Qed.

Lemma blockLines_oneLine n r now :
  0 <= n -> oneLine (notesText r) -> Forall oneLine (blockLines n r now).
Proof.
  intros Hn HN. destruct (itoa_nonneg_digits n Hn) as [Hd _].
  repeat apply List.Forall_cons; try apply List.Forall_nil.
  - apply oneLine_app. split; [done|]. by apply digits_no_byte.
  - apply oneLine_app. split; [done|apply statusText_oneLine].
  - apply oneLine_app. split; [done|apply Format_oneLine].
  - apply oneLine_app. by split.
Qed.

Lemma firstPass_block n r now c e :
  0 <= n <= Fmt.maxInt -> oneLine (notesText r) ->
  firstPass n r (c, e) (EmptyString :: "## Notes" :: EmptyString :: blockLines n r now)
  = ((c, true), EmptyString :: "## Notes" :: EmptyString :: blockLines n r now).
Proof.
  intros Hn HN. unfold blockLines. cbn [firstPass].
  rewrite !firstLine_plain;
    rewrite ?view_empty, ?view_notesHeading, ?view_headerLine, ?view_statusLine,
            ?view_lastRunLine, ?view_notesLine by done; done.
Qed.

Lemma secondLine_plain n r t st l :
  wview l = plainView -> secondLine n r t st l = Some (st, l).
Proof.
  intros H. rewrite secondLine_view, H. unfold leave, enter, field, plainView.
  cbn [vHeader vStatus vLastRun vNotes vPrefix]. rewrite andb_false_r.
  by destruct (_ && _).
Qed.

Lemma secondLine_header n r t st l :
  wview l = headerView n -> secondLine n r t st l = Some (mkPass2 true n true, l).
Proof.
  intros H. rewrite secondLine_view, H. unfold leave, enter, field, headerView.
  cbn [vHeader vStatus vLastRun vNotes vPrefix inNotesSection notesStepNum
       foundNotesSection andb].
  rewrite !Z.eqb_refl. reflexivity.
Qed.

Lemma secondLine_field n r t f l :
  vHeader (wview l) = None -> vPrefix (wview l) = false ->
  secondLine n r t (mkPass2 true n f) l
  = Some (mkPass2 true n f, field n r t (mkPass2 true n f) (wview l) l).
Proof.
  intros H1 H2. rewrite secondLine_view. unfold leave, enter. rewrite H1, H2.
  by rewrite andb_false_r.
Qed.

Lemma secondPass_block n r t1 t2 :
  0 <= n <= Fmt.maxInt -> oneLine (notesText r) ->
  secondPass n r t2 pass2_0
             (EmptyString :: "## Notes" :: EmptyString :: blockLines n r t1)
  = Some (mkPass2 true n true,
          EmptyString :: "## Notes" :: EmptyString :: blockLines n r t2).
Proof.
  intros Hn HN. unfold blockLines. cbn [secondPass].
  rewrite (secondLine_plain _ _ _ _ _ view_empty).
  rewrite (secondLine_plain _ _ _ _ _ view_notesHeading).
  rewrite (secondLine_plain _ _ _ _ _ view_empty).
  rewrite (secondLine_header _ _ _ _ _ (view_headerLine n Hn)).
  rewrite !secondLine_field;
    rewrite ?view_statusLine, ?view_lastRunLine, ?view_notesLine by done; try done.
  unfold field, statusView, lastRunView, notesView.
  cbn [vStatus vLastRun vNotes inNotesSection notesStepNum andb].
  by rewrite Z.eqb_refl.
Qed.

End WriterViews.

(** ** The plan and its next step *)

Module PlanFacts.

Import Plan.

(** A step that [NextStep] would return. *)
Definition isOpen (s : Step) : bool :=
  String.eqb (Status s) StatusPending || String.eqb (Status s) StatusFailed.

Definition isClosed (s : Step) : bool :=
  String.eqb (Status s) StatusCompleted || String.eqb (Status s) StatusSkipped.

Lemma closed_not_open s : isClosed s = true -> isOpen s = false.
Proof.
  unfold isClosed, isOpen. intros H.
  apply orb_true_iff in H as [H|H]; apply String.eqb_eq in H; by rewrite H.
Qed.

Lemma nextStep_split steps s :
  nextStep steps = Some s ->
  exists before after,
    steps = before ++ s :: after /\ isOpen s = true
    /\ Forall (fun x => isOpen x = false) before.
Proof.
  induction steps as [|x steps IH]; [done|]. cbn [nextStep].
  fold (isOpen x). destruct (isOpen x) eqn:E.
  - intros [= <-]. exists [], steps. by repeat split.
  - intros H. destruct (IH H) as (b & a & -> & Hs & Hb).
    exists (x :: b), a. repeat split; [done|]. by constructor.
Qed.

Lemma nextStep_None steps :
  nextStep steps = None <-> Forall (fun x => isOpen x = false) steps.
Proof.
  induction steps as [|x steps IH]; [done|]. cbn [nextStep].
  fold (isOpen x). destruct (isOpen x) eqn:E.
  - split; [done|]. intros H. apply List.Forall_cons_iff in H as [H _]. congruence.
  - rewrite IH. split; [by constructor|]. intros H. by apply List.Forall_cons_iff in H as [_ H].
Qed.

End PlanFacts.

(** ** The prompt *)

Module BuildFacts.

Import Spec StringFacts LineFacts PromptFacts Plan Prompt.

(** The end of every prompt. *)
Definition closing : string :=
  "5. Make sure STEP_COMPLETE or STEP_FAILED appears at the end of your response"
  +:+ nl +:+ nl +:+ "Begin working on the step now." +:+ nl.

Definition endsWith (s t : string) : Prop := exists h, s = h +:+ t.

Lemma endsWith_refl t : endsWith t t.
Proof. by exists EmptyString. Qed.

Lemma endsWith_app a b t : endsWith b t -> endsWith (a +:+ b) t.
Proof. intros [h ->]. exists (a +:+ h). by rewrite app_assoc. Qed.

Lemma Build_closing p step : endsWith (Build p step) (nl +:+ closing).
Proof.
  unfold Build. repeat first [apply endsWith_refl | apply endsWith_app].
Qed.

Lemma ParseResult_closing head :
  ParseResult (head +:+ nl +:+ closing)
  = mkResult true (head +:+ nl +:+ closing) EmptyString EmptyString 0.
Proof.
  unfold ParseResult. generalize (head +:+ nl +:+ closing) at 1 3. intros output.
  rewrite nl_app, Split_app, rev_app_distr.
  change (Strings.Split closing Byte.LF)
    with ["5. Make sure STEP_COMPLETE or STEP_FAILED appears at the end of your response";
          EmptyString; "Begin working on the step now."; EmptyString].
  cbn [List.rev app scanMarkers].
  change (checkLine output EmptyString) with (@None StepResult).
  replace (checkLine output "Begin working on the step now.") with (@None StepResult)
    by (vm_compute; reflexivity).
  cbn iota.
  by rewrite checkLine_success by (right; vm_compute; done).
Qed.

End BuildFacts.

(** ** The summary of an output *)

Module SummaryFacts.

Import Spec StringFacts LineFacts Plan Writer WriterViews.

Lemma length_take n : forall s, (n <= String.length s)%nat ->
  String.length (Strings.take n s) = n.
Proof.
  induction n as [|n IH]; intros [|c s]; simpl; try done; [lia|].
  intros H. rewrite IH; lia.
Qed.

Lemma stripPrefix_take p : forall n s t,
  (String.length p <= n)%nat -> (n <= String.length s)%nat ->
  Strings.HasPrefix (Strings.take n s +:+ t) p = Strings.HasPrefix s p.
Proof.
  unfold Strings.HasPrefix.
  induction p as [|a p IH]; intros n s t Hp Hn; [done|].
  destruct n as [|n]; [simpl in Hp; lia|].
  destruct s as [|b s]; [simpl in Hn; lia|].
  cbn [Strings.take String.append Strings.stripPrefix].
  destruct (Byte.eqb a b); [|done].
  apply IH; simpl in *; lia.
Qed.

(** What the loop of [summarizeOutput] returns. *)
Definition summary (s : string) : Prop :=
  oneLine s /\ s <> EmptyString /\ Strings.len s <= 100
  /\ Strings.HasPrefix s "STEP_" = false.

Lemma lastMeaningful_summary ls : Forall oneLine ls -> summary (lastMeaningful ls).
Proof.
  induction 1 as [|l ls Hl _ IH]; [by vm_compute|]. cbn [lastMeaningful].
  pose proof (oneLine_TrimSpace l Hl) as Ht.
  destruct (negb (String.eqb (Strings.TrimSpace l) EmptyString)) eqn:E1; [|done].
  destruct (negb (Strings.HasPrefix (Strings.TrimSpace l) "STEP_")) eqn:E2; [|done].
  cbn [andb]. apply negb_true_iff in E1, E2. apply String.eqb_neq in E1.
  destruct (100 <? Strings.len (Strings.TrimSpace l)) eqn:E3.
  - apply Z.ltb_lt in E3. rewrite len_length in E3.
    repeat split.
    + apply oneLine_app. split; [by apply hasByte_take|done].
    + intros H. apply app_eq_nil in H as [_ H]. discriminate.
    + rewrite len_app, len_length, length_take by lia. by vm_compute.
    + rewrite stripPrefix_take; [done|simpl; lia|lia].
  - apply Z.ltb_ge in E3. by repeat split.
Qed.

Lemma summarizeOutput_summary output : summary (summarizeOutput output).
Proof.
  unfold summarizeOutput. destruct (_ =? 0) eqn:E.
  - apply Z.eqb_eq in E. pose proof (Split_nonempty (Strings.TrimSpace output) Byte.LF).
    destruct (Strings.Split _ _); [done|simpl in E; lia].
  - apply lastMeaningful_summary, List.Forall_rev, Split_pieces.
Qed.

Lemma lastMeaningful_skip post rest :
  Forall (fun l => meaningful l = false) post ->
  lastMeaningful (List.rev post ++ rest) = lastMeaningful rest.
Proof.
  induction post as [|l post IH] using rev_ind; intros H; [done|].
  apply Forall_app in H as [H1 H2]. apply List.Forall_cons_iff in H2 as [H2 _].
  rewrite rev_unit. cbn [app lastMeaningful]. unfold meaningful in H2. rewrite H2. auto.
Qed.

Lemma nonempty_lines (ls : list string) : ls <> [] -> (Z.of_nat (length ls) =? 0) = false.
Proof. destruct ls; [done|]. intros _. apply Z.eqb_neq. simpl. lia. Qed.

End SummaryFacts.

(** ** The patch of the writer, applied again *)

Module PatchFacts.

Import Spec StringFacts LineFacts Plan Writer WriterViews.

Lemma patch_again d n r t1 t2 d1 :
  oneLine (Reason r) ->
  hasBlock n d \/ (noHeader d /\ 0 <= n <= Fmt.maxInt) ->
  updateStepInContent d n r t1 = Some d1 ->
  updateStepInContent d1 n r t2 = updateStepInContent d n r t2.
Proof.
  intros HR Hd. apply notesText_oneLine in HR.
  unfold updateStepInContent, hasBlock, noHeader in *.
  pose proof (Split_pieces d Byte.LF) as HL.
  pose proof (Split_nonempty d Byte.LF) as HL0.
  set (L := Strings.Split d Byte.LF) in *. clearbody L.
  destruct (firstPass n r (0, false) L) as [[c e] L1] eqn:E1.
  destruct (firstPass_stable _ _ _ _ _ _ HL E1) as (V1 & O1 & F1).
  pose proof (firstPass_flag _ _ _ _ _ _ E1) as He. cbn [snd orb] in He.
  destruct (secondPass n r t1 pass2_0 L1) as [[st L2]|] eqn:E2; [|done].
  destruct (secondPass_stable n r t1 t2 _ _ _ _ HR O1 E2) as (V2 & O2 & L2' & N2 & A2).
  pose proof (secondPass_found _ _ _ _ _ _ _ E2) as Hf. cbn [pass2_0 foundNotesSection orb] in Hf.
  rewrite (existsb_headerOf _ _ _ V1) in Hf.
  destruct Hd as [Hd|[Hd Hn]].
  - rewrite Hd in Hf. rewrite (headerOf_isHeader _ _ Hd) in He. subst e. rewrite Hf.
    cbn [negb]. intros [= <-].
    assert (L2 <> []) as HL2.
    { intros ->. apply Forall2_length in V2. apply Forall2_length in V1.
      destruct L; [done|]. simpl in *. lia. }
    rewrite (Split_Join _ HL2 O2).
    rewrite (firstPass_transfer _ _ _ _ _ _ V2 F1), A2, N2. done.
  - rewrite Hd in He. subst e. cbn [negb].
    assert (existsb isHeader L1 = false) as H1 by (by rewrite (existsb_isHeader _ _ V1)).
    rewrite (secondPass_noHeader n r t1 L1 pass2_0 H1 eq_refl) in E2.
    injection E2 as <- <-. intros [= <-].
    rewrite (secondPass_noHeader n r t2 L1 pass2_0 H1 eq_refl).
    rewrite !block_lines.
    change [EmptyString; "## Notes"; EmptyString; Strings.Join (blockLines n r t1) nl]
      with ([EmptyString; "## Notes"; EmptyString] ++ [Strings.Join (blockLines n r t1) nl]).
    change [EmptyString; "## Notes"; EmptyString; Strings.Join (blockLines n r t2) nl]
      with ([EmptyString; "## Notes"; EmptyString] ++ [Strings.Join (blockLines n r t2) nl]).
    rewrite !List.app_assoc, !Join_flat by done. rewrite <- !List.app_assoc.
    assert (0 <= n) as Hn0 by lia.
    rewrite Split_Join.
    2: { by destruct L1. }
    2: { apply Forall_app. split; [done|].
         do 3 (apply List.Forall_cons; [done|]). by apply blockLines_oneLine. }
    rewrite firstPass_app, F1.
    change ([EmptyString; "## Notes"; EmptyString] ++ blockLines n r t1)
      with (EmptyString :: "## Notes" :: EmptyString :: blockLines n r t1).
    rewrite (firstPass_block n r t1 c false Hn HR).
    rewrite secondPass_app, (secondPass_noHeader n r t2 L1 pass2_0 H1 eq_refl).
    rewrite (secondPass_block n r t1 t2 Hn HR). done.
Qed.

End PatchFacts.

(** ** What the patch changes *)

Module PatchLines.

Import Spec StringFacts LineFacts Regexp Plan Parser Writer WriterViews.

Lemma firstLine_patched n r st l st' l' :
  firstLine n r st l = (st', l') ->
  l' = l \/ (MatchString stepLineRegex l = true /\ l' = updateCheckbox l (newMarker r)).
Proof.
  rewrite firstLine_view. unfold firstLineV. cbn [wview vStep].
  destruct (MatchString stepLineRegex l); cbn [andb]; [|intros [= <- <-]; by left].
  destruct (_ =? n); intros [= <- <-]; [right|left]; done.
Qed.

Lemma field_patched n r now st1 l :
  field n r now st1 (wview l) l = l
  \/ (MatchString statusRegex l = true
      /\ field n r now st1 (wview l) l = "**Status**: " +:+ statusText r)
  \/ (MatchString lastRunRegex l = true
      /\ field n r now st1 (wview l) l = "**Last Run**: " +:+ Time.Format now)
  \/ (MatchString notesRegex l = true
      /\ field n r now st1 (wview l) l = "**Notes**: " +:+ notesText r).
Proof.
  unfold field. cbn [wview vStatus vLastRun vNotes].
  destruct (_ && _); [|by left].
  destruct (MatchString statusRegex l); [right; left; done|].
  destruct (MatchString lastRunRegex l); [right; right; left; done|].
  destruct (MatchString notesRegex l); [right; right; right; done|by left].
Qed.

Lemma firstPass_changes n r : forall L st st' L1,
  firstPass n r st L = (st', L1) ->
  Forall2 (fun l l1 => l1 = l \/ (MatchString stepLineRegex l = true
                                  /\ l1 = updateCheckbox l (newMarker r))) L L1.
Proof.
  induction L as [|l L IH]; intros st st' L1; cbn [firstPass].
  - intros [= <- <-]. constructor.
  - destruct (firstLine n r st l) as [st1 l1] eqn:E1.
    destruct (firstPass n r st1 L) as [st2 L2] eqn:E2. intros [= <- <-].
    constructor; [by eapply firstLine_patched|by eapply IH].
Qed.

(** The second pass, after the first: a line that the first pass has
    changed is a checkbox line, which the second pass leaves alone. *)
Lemma secondPass_patched n r now : forall L L1 st st' L2,
  Forall oneLine L ->
  Forall2 (fun l l1 => l1 = l \/ (MatchString stepLineRegex l = true
                                  /\ l1 = updateCheckbox l (newMarker r))) L L1 ->
  secondPass n r now st L1 = Some (st', L2) -> Forall2 (patched r now) L L2.
Proof.
  intros L L1 st st' L2 HL H. revert st st' L2.
  induction H as [|l l1 L L1 Hl _ IH]; intros st st' L2; cbn [secondPass].
  - intros [= <- <-]. constructor.
  - apply List.Forall_cons_iff in HL as [Ho HL].
    destruct (secondLine n r now st l1) as [[st1 l2]|] eqn:E1; [|done].
    destruct (secondPass n r now st1 L1) as [[st2 L2']|] eqn:E2; [|done]. intros [= <- <-].
    constructor; [|by eapply IH].
    rewrite secondLine_view in E1. destruct (leave _ _); [|done]. injection E1 as _ <-.
    destruct Hl as [->|[Hs ->]].
    + destruct (field_patched n r now (enter n st (wview l)) l) as [->|[H|[H|H]]];
        unfold patched; tauto.
    + assert (exists M, newMarker r = String M EmptyString /\ oneOf " x!" M = true)
        as (M & EM & HM).
      { unfold newMarker. destruct (Success r); eexists; split; reflexivity. }
      rewrite EM. rewrite field_step.
      * right; left. by rewrite <- EM.
      * by rewrite (view_updateCheckbox l M Ho HM Hs).
Qed.

Lemma insertAfter_split (slice : list string) index value :
  insertAfter slice index value
  = take index slice ++ [EmptyString; value] ++ drop index slice.
Proof.
  unfold insertAfter. destruct (length slice <=? index)%nat eqn:E; [|done].
  apply Nat.leb_le in E. by rewrite take_ge, drop_ge, List.app_nil_r by lia.
Qed.

Lemma update_shape d n r now d' :
  updateStepInContent d n r now = Some d' ->
  exists st1 L1 st2 pre post ins,
    firstPass n r (0, false) (Strings.Split d Byte.LF) = (st1, L1)
    /\ secondPass n r now pass2_0 L1 = Some (st2, pre ++ post)
    /\ d' = Strings.Join (pre ++ ins ++ post) nl
    /\ added n r now ins post.
Proof.
  unfold updateStepInContent, added.
  destruct (firstPass n r (0, false) _) as [[c e] L1] eqn:E1.
  destruct (secondPass n r now pass2_0 L1) as [[st L2]|] eqn:E2; [|done].
  intros [= <-]. exists (c, e), L1, st.
  destruct e; cbn [negb].
  - destruct (foundNotesSection st); cbn [negb].
    + exists L2, [], []. rewrite !List.app_nil_r. auto 8.
    + unfold insertBlock. destruct (lastBoundary L2 0 None) as [i|].
      * rewrite insertAfter_split.
        set (idx := advance (drop (S i) L2) (S i)).
        exists (take idx L2), (drop idx L2),
               [EmptyString; createNotesSectionForStep n r now].
        rewrite take_drop. auto 8.
      * exists L2, [], []. rewrite !List.app_nil_r. auto 8.
  - exists L2, [], [EmptyString; "## Notes"; EmptyString; createNotesSectionForStep n r now].
    rewrite !List.app_nil_r. auto 8.
Qed.

Lemma patched_lines d n r now d' :
  updateStepInContent d n r now = Some d' ->
  exists pre post ins,
    d' = Strings.Join (pre ++ ins ++ post) nl
    /\ Forall2 (patched r now) (Strings.Split d Byte.LF) (pre ++ post)
    /\ added n r now ins post.
Proof.
  intros H. destruct (update_shape _ _ _ _ _ H) as (st1 & L1 & st2 & pre & post & ins & E1 & E2 & -> & Ha).
  exists pre, post, ins. split; [done|]. split; [|done].
  eapply secondPass_patched; [apply Split_pieces| |exact E2]. by eapply firstPass_changes.
Qed.

(** *** The checkbox lines after the patch *)

Definition tick (r : StepResult) (l : string) : string := updateCheckbox l (newMarker r).

Lemma isStep_tick r l : oneLine l -> ParserFacts.isStep l -> ParserFacts.isStep (tick r l).
Proof.
  intros Hl Hs. unfold tick, newMarker, ParserFacts.isStep.
  change (MatchString stepLineRegex ?x) with (vStep (wview x)).
  destruct (Success r); by rewrite view_updateCheckbox.
Qed.

Lemma firstPass_steps n r : forall L c e st' L1,
  Forall oneLine L -> firstPass n r (c, e) L = (st', L1) ->
  filter ParserFacts.isStep L1
  = (if c <? n then alter (tick r) (Z.to_nat (n - c - 1)) (filter ParserFacts.isStep L)
     else filter ParserFacts.isStep L).
Proof.
  induction L as [|l L IH]; intros c e st' L1 HL; cbn [firstPass].
  - intros [= <- <-]. by destruct (c <? n).
  - apply List.Forall_cons_iff in HL as [Hl HL].
    destruct (firstLine n r (c, e) l) as [[c1 e1] l1] eqn:E1.
    destruct (firstPass n r (c1, e1) L) as [st2 L2] eqn:E2. intros [= <- <-].
    pose proof (IH _ _ _ _ HL E2) as IH'.
    rewrite firstLine_view in E1. unfold firstLineV in E1. cbn [fst snd wview vStep] in E1.
    destruct (MatchString stepLineRegex l) eqn:Es; cbn [andb] in E1.
    + rewrite (filter_cons_True ParserFacts.isStep l L) by done.
      destruct (c + 1 =? n) eqn:En; injection E1 as <- _ <-.
      * apply Z.eqb_eq in En.
        rewrite filter_cons_True by (by apply (isStep_tick r l)).
        rewrite IH'.
        replace (c + 1 <? n) with false by (symmetry; apply Z.ltb_ge; lia).
        replace (c <? n) with true by (symmetry; apply Z.ltb_lt; lia).
        by replace (Z.to_nat (n - c - 1)) with 0%nat by lia.
      * apply Z.eqb_neq in En. rewrite filter_cons_True by done. rewrite IH'.
        destruct (c <? n) eqn:Ec.
        -- apply Z.ltb_lt in Ec.
           replace (c + 1 <? n) with true by (symmetry; apply Z.ltb_lt; lia).
           by replace (Z.to_nat (n - c - 1)) with (S (Z.to_nat (n - (c + 1) - 1))) by lia.
        -- apply Z.ltb_ge in Ec.
           by replace (c + 1 <? n) with false by (symmetry; apply Z.ltb_ge; lia).
    + injection E1 as <- _ <-.
      assert (~ ParserFacts.isStep l) as Hn by (unfold ParserFacts.isStep; congruence).
      by rewrite !(filter_cons_False ParserFacts.isStep l) by done.
Qed.

Lemma sameView_steps L1 L2 :
  Forall2 sameView L1 L2 -> filter ParserFacts.isStep L2 = filter ParserFacts.isStep L1.
Proof.
  induction 1 as [|l l2 L1 L2 [Hv Hs] _ IH]; [done|].
  destruct (vStep (wview l)) eqn:E.
  - rewrite (Hs eq_refl). rewrite !filter_cons_True by done. by rewrite IH.
  - assert (~ ParserFacts.isStep l) by (unfold ParserFacts.isStep; cbn [wview vStep] in E; congruence).
    assert (~ ParserFacts.isStep l2).
    { unfold ParserFacts.isStep. change (MatchString stepLineRegex l2) with (vStep (wview l2)).
      rewrite Hv. congruence. }
    by rewrite !filter_cons_False by done.
Qed.

Lemma itoa_oneLine n : oneLine (Fmt.itoa n).
Proof.
  destruct n as [|p|p]; [done| |]; unfold Fmt.itoa.
  - apply WrittenLines.digits_no_byte; [done|apply WrittenLines.uint_digits].
  - apply oneLine_app. split; [done|].
    apply WrittenLines.digits_no_byte; [done|apply WrittenLines.uint_digits].
Qed.

Lemma blockLines_single n r now :
  oneLine (notesText r) -> Forall oneLine (blockLines n r now).
Proof.
  intros HN. repeat apply List.Forall_cons; try apply List.Forall_nil.
  - apply oneLine_app. split; [done|apply itoa_oneLine].
  - apply oneLine_app. split; [done|apply statusText_oneLine].
  - apply oneLine_app. split; [done|apply WrittenLines.Format_oneLine].
  - apply oneLine_app. by split.
Qed.

Lemma blockLines_no_step n r now : filter ParserFacts.isStep (blockLines n r now) = [].
Proof.
  unfold blockLines.
  rewrite !filter_cons_False; [done|..]; unfold ParserFacts.isStep;
    unfold MatchString, FindStringSubmatch; cbn; congruence.
Qed.

Lemma Join_app xs ys :
  xs <> [] -> ys <> [] ->
  Strings.Join (xs ++ ys) nl = Strings.Join xs nl +:+ nl +:+ Strings.Join ys nl.
Proof.
  intros Hx Hy. induction xs as [|x xs IH]; [done|].
  destruct xs as [|x' xs].
  - destruct ys; [done|]. reflexivity.
  - cbn [app] in *. rewrite !Join_cons, IH by done. by rewrite !app_assoc.
Qed.

Lemma Join_flat_mid ys xs zs :
  ys <> [] ->
  Strings.Join (xs ++ [Strings.Join ys nl] ++ zs) nl = Strings.Join (xs ++ ys ++ zs) nl.
Proof.
  intros Hy.
  assert (forall zs, Strings.Join ([Strings.Join ys nl] ++ zs) nl
                     = Strings.Join (ys ++ zs) nl) as Hz.
  { intros [|z zs']; [by rewrite !List.app_nil_r|].
    by rewrite !Join_app by done. }
  destruct xs as [|x xs]; [apply Hz|].
  rewrite !(Join_app (x :: xs)); try done.
  - by rewrite Hz.
  - by destruct ys.
Qed.

Lemma stepLines_patch d n r now d' :
  oneLine (notesText r) ->
  updateStepInContent d n r now = Some d' ->
  stepLines d'
  = (if 0 <? n then alter (tick r) (Z.to_nat (n - 1)) (stepLines d) else stepLines d).
Proof.
  intros HN H.
  destruct (update_shape _ _ _ _ _ H)
    as ([c e] & L1 & st2 & pre & post & ins & E1 & E2 & -> & Ha).
  pose proof (Split_pieces d Byte.LF) as HL.
  destruct (firstPass_stable _ _ _ _ _ _ HL E1) as (V1 & O1 & _).
  destruct (secondPass_stable n r now now _ _ _ _ HN O1 E2) as (V2 & O2 & _).
  pose proof (firstPass_steps _ _ _ _ _ _ _ HL E1) as HS.
  rewrite <- (sameView_steps _ _ V2) in HS.
  replace (n - 0 - 1) with (n - 1) in HS by lia.
  unfold stepLines. change (fun l => MatchString stepLineRegex l = true) with ParserFacts.isStep.
  rewrite <- HS. clear HS.
  assert (pre ++ post <> []) as Hne.
  { intros E. rewrite E in V2. apply Forall2_length in V2. apply Forall2_length in V1.
    pose proof (Split_nonempty d Byte.LF). destruct (Strings.Split d Byte.LF); [done|].
    simpl in *. lia. }
  apply Forall_app in O2 as [Opre Opost].
  assert (forall hd, Forall oneLine hd -> filter ParserFacts.isStep hd = [] ->
            filter ParserFacts.isStep
              (Strings.Split
                 (Strings.Join (pre ++ (hd ++ [createNotesSectionForStep n r now]) ++ post) nl)
                 Byte.LF)
            = filter ParserFacts.isStep (pre ++ post)) as HH.
  { intros hd Oh Fh. rewrite block_lines.
    rewrite <- (List.app_assoc hd), (List.app_assoc pre hd), Join_flat_mid by done.
    rewrite Split_Join.
    - rewrite !filter_app, Fh, blockLines_no_step. by rewrite List.app_nil_r.
    - destruct pre; [by destruct hd|done].
    - repeat (apply Forall_app; split); try done. by apply blockLines_single. }
  destruct Ha as [->|[->|[-> ->]]].
  - cbn [app]. by rewrite Split_Join by (try done; by apply Forall_app).
  - apply (HH [EmptyString]); [by repeat constructor|].
    rewrite filter_cons_False; [done|]. unfold ParserFacts.isStep. by vm_compute.
  - apply (HH [EmptyString; "## Notes"; EmptyString]); [by repeat constructor|].
    rewrite !filter_cons_False; [done|..]; unfold ParserFacts.isStep; by vm_compute.
Qed.

End PatchLines.

(** ** A turn of the loop *)

Module TurnFacts.

Import Spec Regexp Plan Parser Loop PlanFacts.

Lemma closed_lines_no_next tp m ls : forall n,
  Forall closedLine ls ->
  nextStep (map (applyNotes tp m) (ParserFacts.numbered n ls)) = None.
Proof.
  induction ls as [|l ls IH]; intros n H; [done|].
  apply List.Forall_cons_iff in H as [(c & Hc & Hm) H].
  cbn [ParserFacts.numbered map nextStep].
  destruct (ParserFacts.applyNotes_fields tp m (ParserFacts.stepOf (n + 1) l)) as (_ & _ & ->).
  unfold ParserFacts.stepOf. rewrite Hc. cbn [Status].
  destruct Hm as [-> | ->]; cbn; by apply IH.
Qed.

Section Turn.

Variable time_Parse : string -> option Time.t.
Variable Duration_String : Duration -> string.
Variable config : Config.

Lemma persist_events env content n result events after content' events' next :
  persist env content n result events after = (content', events', next) ->
  (next = Panic /\ content' = content /\ events' = events)
  \/ (next = after /\ events' = events ++ [WriteFile content']).
Proof.
  unfold persist. destruct (UpdateStep env content n result); intros [= <- <- <-]; auto.
Qed.

Ltac fin := repeat split; eauto; try done; cbn; try lia.

Lemma turn_events env content content' events next :
  turn time_Parse Duration_String config env content = (content', events, next) ->
  (length (filter (fun e => isInvoke e = true) events) <= 1)%nat
  /\ (next = Continue -> exists before, events = before ++ [WriteFile content'])
  /\ (filter (fun e => isWrite e = true) events = [] -> content' = content)
  /\ (length (filter (fun e => isWrite e = true) events) <= 1)%nat.
Proof.
  unfold turn.
  destruct (cancelledAtTop env); [intros [= <- <- <-]; fin|].
  destruct (Parse time_Parse content) as [p|]; [|intros [= <- <- <-]; fin].
  destruct (NextStep p) as [step|]; [|intros [= <- <- <-]; fin].
  assert (forall ws : list Event,
            (ws = [] \/ exists d, ws = [Wait d]) ->
            forall n result after,
              persist env content n result (ws ++ [Invoke (Prompt.Build p step)]) after
              = (content', events, next) ->
              (length (filter (fun e => isInvoke e = true) events) <= 1)%nat
              /\ (next = Continue -> exists before, events = before ++ [WriteFile content'])
              /\ (filter (fun e => isWrite e = true) events = [] -> content' = content)
              /\ (length (filter (fun e => isWrite e = true) events) <= 1)%nat) as HP.
  { intros ws Hws n result after H.
    apply persist_events in H as [(-> & -> & ->)|(-> & ->)].
    - destruct Hws as [->|[d ->]]; fin.
    - destruct Hws as [->|[d ->]]; fin. }
  destruct (MaxRetries config <=? RetryCount step).
  { intros H. apply persist_events in H as [(-> & -> & ->)|(-> & ->)];
      fin. }
  set (ws := if String.eqb (Status step) StatusFailed && (0 <? RetryCount step)
             then [Wait (calculateBackoff config (RetryCount step))] else []).
  assert (ws = [] \/ exists d, ws = [Wait d]) as Hws.
  { unfold ws. destruct (_ && _); eauto. }
  destruct (match ws with [] => false | _ => cancelledInWait env end).
  { intros [= <- <- <-]. destruct Hws as [->|[d ->]]; fin. }
  destruct (deadlineExceeded _); [by apply HP|].
  destruct (runErr _).
  - destruct (parentCancelled _); [by apply HP|].
    intros [= <- <- <-]. destruct Hws as [->|[d ->]]; fin.
  - by apply HP.
Qed.

Lemma finished_turn env content :
  cancelledAtTop env = false -> linesFit content ->
  Forall closedLine (checkboxLines content) ->
  turn time_Parse Duration_String config env content = (content, [], ReturnNil).
Proof.
  intros Hc Hf Hl. unfold turn. rewrite Hc.
  destruct (Parse time_Parse content) as [p|] eqn:E.
  - unfold NextStep. rewrite (ParserFacts.Parse_steps _ _ _ E).
    by rewrite closed_lines_no_next.
  - unfold Parse in E. by rewrite StepLineFacts.linesFit_no_error in E.
Qed.

End Turn.

End TurnFacts.

(** ** The plan written anew and read again *)

Module RenderFacts.

Import Spec StringFacts LineFacts RegexpFacts Regexp Plan Parser Render.

#[local] Arguments Byte.eqb : simpl never.

(** *** The lines of the text *)

Definition stepLine (s : Step) : string :=
  "- [" +:+ marker s +:+ "] Step " +:+ Fmt.itoa (Number s) +:+ ": " +:+ Description s.

Definition blockOf (s : Step) : list string :=
  [EmptyString; "### Step " +:+ Fmt.itoa (Number s); "**Status**: " +:+ Status s;
   "**Last Run**: " +:+ lastRunText s; "**Notes**: " +:+ notesText s].

Definition contextPart (p : Plan) : list string :=
  if negb (String.eqb (Context p) EmptyString)
  then "## Context" :: EmptyString :: Strings.Split (Context p) Byte.LF ++ [EmptyString]
  else [].

Definition linesOf (p : Plan) : list string :=
  ("# Project: " +:+ ProjectName p) :: EmptyString
    :: contextPart p
    ++ "## Plan" :: EmptyString :: map stepLine (Steps p)
    ++ EmptyString :: "## Notes" :: concat (map blockOf (Steps p)).

(** [unlines ls]: every line followed by a newline. *)
Fixpoint unlines (ls : list string) : string :=
  match ls with
  | [] => EmptyString
  | l :: rest => l +:+ nl +:+ unlines rest
  end.

Lemma unlines_app a b : unlines (a ++ b) = unlines a +:+ unlines b.
Proof. induction a as [|l a IH]; [done|]. cbn [app unlines]. by rewrite IH, !app_assoc. Qed.

Lemma planSection_unlines steps : planSection steps = unlines (map stepLine steps).
Proof.
  induction steps as [|s steps IH]; [done|]. cbn [planSection map unlines].
  unfold stepLine. by rewrite IH, !app_assoc.
Qed.

Lemma notesSection_unlines steps :
  notesSection steps = unlines (concat (map blockOf steps)).
Proof.
  induction steps as [|s steps IH]; [done|].
  cbn [notesSection map concat]. rewrite unlines_app, <- IH.
  unfold blockOf. cbn [unlines]. by rewrite !app_assoc, ?app_nil_r.
Qed.

Lemma unlines_Split ctx : unlines (Strings.Split ctx Byte.LF) = ctx +:+ nl.
Proof.
  induction ctx as [|c ctx IH]; [done|]. cbn [Strings.Split].
  destruct (Byte.eqb c Byte.LF) eqn:E.
  - apply byte_eqb_eq in E as ->. cbn [unlines]. by rewrite IH.
  - destruct (Strings.Split ctx Byte.LF) as [|x xs] eqn:Ex.
    + by apply Split_nonempty in Ex.
    + cbn [unlines] in *. cbn [String.append]. by rewrite IH.
Qed.

Lemma WriteFile_unlines p : WriteFile p = unlines (linesOf p).
Proof.
  unfold WriteFile, linesOf, contextPart.
  rewrite planSection_unlines, notesSection_unlines.
  destruct (negb _); cbn [unlines app];
    rewrite ?unlines_app; cbn [unlines]; rewrite ?unlines_app; cbn [unlines];
    rewrite ?unlines_Split; by rewrite ?app_assoc, ?app_nil_r.
Qed.

End RenderFacts.

(** ** What the patterns capture *)

Module RegexEval.

Import Spec StringFacts LineFacts RegexpFacts Regexp Plan Parser.
Local Open Scope re_scope.

(** The text [s] does not begin with a byte of the class [p]. *)
Definition stops (p : ascii -> bool) (s : string) : Prop :=
  match s with
  | String c _ => p c = false
  | EmptyString => True
  end.

Lemma star_stop p s k : stops p s -> star p s k = k s.
Proof. destruct s as [|c s]; [done|]. simpl. by intros ->. Qed.

Lemma star_greedy p a b k x :
  allIn p a = true -> stops p b -> k b = Some x -> star p (a +:+ b) k = Some x.
Proof.
  intros Ha Hb Hk. induction a as [|c a IH].
  - cbn [String.append]. by rewrite star_stop.
  - cbn [allIn] in Ha. apply andb_true_iff in Ha as [Hc Ha].
    cbn [String.append star]. by rewrite Hc, IH.
Qed.

(** The first way through a pattern that succeeds is the match. *)
Lemma seq_first r1 r2 s cs k x :
  rmatch r1 s cs (fun s' cs' => rmatch r2 s' cs' k) = Some x ->
  rmatch (r1 >>> r2) s cs k = Some x.
Proof. done. Qed.

Lemma lit_first l s cs k x : k s cs = Some x -> rmatch (Lit l) (l +:+ s) cs k = Some x.
Proof. intros H. cbn [rmatch]. by rewrite stripPrefix_app. Qed.

Lemma plus_first p c a b cs k x :
  p c = true -> allIn p a = true -> stops p b -> k b cs = Some x ->
  rmatch (Plus p) (String c (a +:+ b)) cs k = Some x.
Proof. intros Hc Ha Hb Hk. cbn [rmatch]. rewrite Hc. by apply star_greedy. Qed.

Lemma space_first b cs k x :
  stops Byte.reSpace b -> k b cs = Some x ->
  rmatch (Plus Byte.reSpace) (" " +:+ b) cs k = Some x.
Proof. intros Hb Hk. by apply (plus_first Byte.reSpace " " EmptyString b). Qed.

Lemma grp_cls_first i p c s cs k x :
  p c = true -> k s ((i, String c EmptyString) :: cs) = Some x ->
  rmatch (Grp i (Cls p)) (String c s) cs k = Some x.
Proof.
  intros Hc Hk. cbn [rmatch]. rewrite Hc.
  replace (String.length (String c s) - String.length s)%nat with 1%nat
    by (cbn [String.length]; lia).
  done.
Qed.

Lemma grp_plus_first i p c a b cs k x :
  p c = true -> allIn p a = true -> stops p b ->
  k b ((i, String c a) :: cs) = Some x ->
  rmatch (Grp i (Plus p)) (String c (a +:+ b)) cs k = Some x.
Proof.
  intros Hc Ha Hb Hk. cbn [rmatch]. rewrite Hc.
  apply star_greedy; [done|done|]. cbv beta.
  change (String c (a +:+ b)) with (String c a +:+ b).
  by rewrite (take_app_length (String c a) b).
Qed.

Lemma grp_star_first i p a b cs k x :
  allIn p a = true -> stops p b ->
  k b ((i, a) :: cs) = Some x ->
  rmatch (Grp i (Star p)) (a +:+ b) cs k = Some x.
Proof.
  intros Ha Hb Hk. cbn [rmatch].
  apply star_greedy; [done|done|]. cbv beta.
  by rewrite (take_app_length a b).
Qed.

Lemma opt_first r s cs k x :
  rmatch r s cs k = Some x -> rmatch (Opt r) s cs k = Some x.
Proof. intros H. cbn [rmatch]. by rewrite H. Qed.

Lemma eol_first cs k x : k EmptyString cs = Some x -> rmatch Eol EmptyString cs k = Some x.
Proof. done. Qed.

Lemma digit_not_space c : Byte.reDigit c = true -> Byte.reSpace c = false.
Proof. destruct c as [[] [] [] [] [] [] [] []]; try done. Qed.

Lemma Find_first r s cs :
  rmatch r s [] (fun rest cs' => Some (rest, cs')) = Some (EmptyString, cs) ->
  FindStringSubmatch r s = Some cs.
Proof. unfold FindStringSubmatch. by intros ->. Qed.

Lemma stepLine_find M D DESC :
  oneOf " x!-" M = true ->
  D <> EmptyString -> allIn Byte.reDigit D = true ->
  DESC <> EmptyString -> stops Byte.reSpace DESC -> allIn Byte.reDot DESC = true ->
  FindStringSubmatch stepLineRegex
    ("- [" +:+ String M EmptyString +:+ "] Step " +:+ D +:+ ": " +:+ DESC)
  = Some [(3%nat, DESC); (2%nat, D); (1%nat, String M EmptyString)].
Proof.
  intros HM HD Hd HE Hs He.
  destruct D as [|d D]; [done|]. destruct DESC as [|e DESC]; [done|].
  cbn [allIn] in Hd, He. apply andb_true_iff in Hd as [Hd1 Hd2].
  apply andb_true_iff in He as [He1 He2].
  apply Find_first. unfold stepLineRegex.
  change ("- [" +:+ String M EmptyString +:+ "] Step " +:+ String d D +:+ ": " +:+ String e DESC)
    with ("-" +:+ " " +:+ "[" +:+ String M ("]" +:+ " " +:+ "Step" +:+ " "
            +:+ String d (D +:+ ":" +:+ " " +:+ String e DESC))).
  apply seq_first, lit_first. cbv beta.
  apply seq_first, space_first; [done|]. cbv beta.
  apply seq_first, lit_first. cbv beta.
  apply seq_first, grp_cls_first; [done|]. cbv beta.
  apply seq_first, lit_first. cbv beta.
  apply seq_first, space_first; [done|]. cbv beta.
  apply seq_first, opt_first.
  apply seq_first, lit_first. cbv beta.
  apply seq_first, space_first; [by apply digit_not_space|]. cbv beta.
  apply seq_first, grp_plus_first; [done|done|done|]. cbv beta.
  apply seq_first, lit_first. cbv beta.
  apply space_first; [done|]. cbv beta.
  apply seq_first. rewrite <- (app_nil_r DESC).
  apply grp_plus_first; [done|done|done|]. cbv beta.
  apply eol_first. by rewrite app_nil_r.
Qed.

End RegexEval.

(** ** The scan of the text that [WriteFile] writes *)

Module RenderScan.

Import Spec StringFacts LineFacts RegexpFacts Regexp Plan Parser Render
       RenderFacts RegexEval WrittenLines.

Lemma Split_unlines ls :
  Forall oneLine ls -> Strings.Split (unlines ls) Byte.LF = ls ++ [EmptyString].
Proof.
  induction 1 as [|l ls Hl _ IH]; [done|]. cbn [unlines].
  rewrite nl_app, Split_app, IH. by rewrite (Split_oneLine l Hl).
Qed.

Lemma dropFinalEmpty_snoc ls : Bufio.dropFinalEmpty (ls ++ [EmptyString]) = ls.
Proof.
  induction ls as [|l ls IH]; [done|]. cbn [app Bufio.dropFinalEmpty].
  rewrite IH. destruct l; [|done]. by destruct ls.
Qed.

Lemma pieces_unlines ls : Forall oneLine ls -> Bufio.pieces (unlines ls) = ls.
Proof. intros H. unfold Bufio.pieces. by rewrite Split_unlines, dropFinalEmpty_snoc. Qed.

Lemma endsWithCR_dropCR s : endsWithCR s = false -> Bufio.dropCR s = s.
Proof.
  unfold endsWithCR, Bufio.dropCR. destruct (Strings.rev s); [done|]. by intros ->.
Qed.

Lemma endsWithCR_app a b :
  endsWithCR a = false -> endsWithCR b = false -> endsWithCR (a +:+ b) = false.
Proof.
  unfold endsWithCR. rewrite rev_app. by destruct (Strings.rev b).
Qed.

Lemma noCR_endsWithCR s : hasByte Byte.CR s = false -> endsWithCR s = false.
Proof.
  intros H. unfold endsWithCR. destruct (Strings.rev s) as [|c t] eqn:E; [done|].
  destruct (Byte.eqb c Byte.CR) eqn:Ec; [|done]. apply byte_eqb_eq in Ec as ->.
  assert (lastByte s = Some Byte.CR) as HL by (unfold lastByte; by rewrite E).
  apply lastByte_hasByte in HL. congruence.
Qed.

Lemma lastByte_endsWithCR s : lastByte s <> Some Byte.CR -> endsWithCR s = false.
Proof.
  unfold lastByte, endsWithCR. destruct (Strings.rev s) as [|c t]; [done|].
  intros H. destruct (Byte.eqb c Byte.CR) eqn:Ec; [|done].
  apply byte_eqb_eq in Ec as ->. done.
Qed.

Lemma trimmed_endsWithCR s : Strings.TrimSpace s = s -> endsWithCR s = false.
Proof.
  intros H. apply lastByte_endsWithCR. intros E. rewrite <- H in E.
  by apply TrimSpace_last in E.
Qed.


(** *** The scan, as far as the steps and their annotations go *)

Definition view (st : scan)
  : list Step * Z * gmap Z stepNotes * Z * bool * bool :=
  (steps st, stepNumber st, notesMap st, currentNoteStep st, inNotesSection st,
   inContextSection st).

(** A state of the scan with the given view. *)
Definition K (S : list Step) (n : Z) (m : gmap Z stepNotes) (cur : Z) (inN inC : bool)
  : scan :=
  mkScan EmptyString EmptyString S n m cur inN inC [].

Lemma view_K st :
  view st = view (K (steps st) (stepNumber st) (notesMap st) (currentNoteStep st)
                    (inNotesSection st) (inContextSection st)).
Proof. done. Qed.

Lemma scanBody_view st1 st2 l :
  view st1 = view st2 -> view (scanBody st1 l) = view (scanBody st2 l).
Proof.
  destruct st1, st2. unfold view. simpl. intros [= -> -> -> -> -> ->].
  unfold scanBody, updNotes. simpl.
  repeat (destruct (FindStringSubmatch _ l); [reflexivity|]).
  destruct (_ && _); [|reflexivity].
  repeat (destruct (FindStringSubmatch _ l); [reflexivity|]).
  destruct (Strings.HasPrefix l "#"); reflexivity.
Qed.

Lemma scanLine_view st1 st2 l :
  view st1 = view st2 -> view (scanLine st1 l) = view (scanLine st2 l).
Proof.
  intros H. unfold scanLine.
  destruct (FindStringSubmatch projectNameRegex l).
  { destruct st1, st2. unfold view in *. simpl in *. congruence. }
  destruct (MatchString contextSectionRegex l).
  { destruct st1, st2. unfold view in *. simpl in *. congruence. }
  assert (inContextSection st1 = inContextSection st2) as ->.
  { destruct st1, st2. unfold view in *. simpl in *. congruence. }
  destruct (inContextSection st2); [|by apply scanBody_view].
  destruct (MatchString sectionHeaderRegex l).
  - apply scanBody_view. destruct st1, st2. unfold view in *. simpl in *. congruence.
  - destruct st1, st2. unfold view in *. simpl in *. congruence.
Qed.

Lemma fold_view ls : forall st1 st2,
  view st1 = view st2 ->
  view (fold_left scanLine ls st1) = view (fold_left scanLine ls st2).
Proof.
  induction ls as [|l ls IH]; intros st1 st2 H; [done|].
  cbn [fold_left]. apply IH. by apply scanLine_view.
Qed.

(** The scan of some lines takes the view [v] to the view [v']. *)
Definition takes (ls : list string) (st st' : scan) : Prop :=
  forall st0, view st0 = view st -> view (fold_left scanLine ls st0) = view st'.

Lemma takes_nil st : takes [] st st.
Proof. by intros st0 H. Qed.

Lemma takes_app ls1 ls2 st1 st2 st3 :
  takes ls1 st1 st2 -> takes ls2 st2 st3 -> takes (ls1 ++ ls2) st1 st3.
Proof. intros H1 H2 st0 H. rewrite fold_left_app. apply H2, H1, H. Qed.

Lemma takes_one l st st' :
  view (scanLine st l) = view st' -> takes [l] st st'.
Proof.
  intros H st0 H0. cbn [fold_left]. rewrite <- H. by apply scanLine_view.
Qed.

Lemma takes_cons l ls st1 st2 st3 :
  view (scanLine st1 l) = view st2 -> takes ls st2 st3 -> takes (l :: ls) st1 st3.
Proof. intros H1 H2. apply (takes_app [l] ls st1 st2 st3); [by apply takes_one|done]. Qed.


(** *** The lines of the text, one by one *)

Ltac kill r :=
  match goal with
  | |- context [FindStringSubmatch r ?s] =>
      replace (FindStringSubmatch r s) with (@None caps)
        by (symmetry; unfold FindStringSubmatch; simpl; reflexivity)
  end.

Ltac killm r :=
  match goal with
  | |- context [MatchString r ?s] =>
      replace (MatchString r s) with false
        by (symmetry; unfold MatchString, FindStringSubmatch; simpl; reflexivity)
  end.

Lemma line_blank S n m cur inN inC :
  view (scanLine (K S n m cur inN inC) EmptyString) = view (K S n m cur inN inC).
Proof.
  unfold scanLine, scanBody.
  kill projectNameRegex. killm contextSectionRegex. killm sectionHeaderRegex.
  kill stepLineRegex. kill notesSectionRegex. kill statusRegex. kill lastRunRegex.
  kill notesRegex. kill retriesRegex.
  cbn [K inContextSection inNotesSection currentNoteStep].
  destruct inC; [reflexivity|]. destruct (inN && _); reflexivity.
Qed.

Lemma line_title S n m cur name :
  view (scanLine (K S n m cur false false) ("# Project: " +:+ name))
  = view (K S n m cur false false).
Proof.
  unfold scanLine, scanBody.
  destruct (FindStringSubmatch projectNameRegex _); [reflexivity|].
  killm contextSectionRegex. kill stepLineRegex. kill notesSectionRegex.
  reflexivity.
Qed.

Lemma line_contextHeader S n m cur inN inC :
  view (scanLine (K S n m cur inN inC) "## Context") = view (K S n m cur inN true).
Proof. reflexivity. Qed.

Lemma line_inContext S n m cur inN l :
  MatchString sectionHeaderRegex l = false ->
  view (scanLine (K S n m cur inN true) l) = view (K S n m cur inN true).
Proof.
  intros H. unfold scanLine. rewrite H.
  destruct (FindStringSubmatch projectNameRegex l); [reflexivity|].
  destruct (MatchString contextSectionRegex l); reflexivity.
Qed.

Lemma line_plan S n m cur inC :
  view (scanLine (K S n m cur false inC) "## Plan") = view (K S n m cur false false).
Proof. destruct inC; reflexivity. Qed.

Lemma line_notesHeading S n m cur :
  view (scanLine (K S n m cur false false) "## Notes") = view (K S n m cur false false).
Proof. reflexivity. Qed.


Lemma reSpace_asciiSpace c : Byte.reSpace c = true -> Byte.asciiSpace c = true.
Proof. destruct c as [[] [] [] [] [] [] [] []]; try done. Qed.

Lemma trimmed_stops s : Strings.TrimSpace s = s -> stops Byte.reSpace s.
Proof.
  destruct s as [|c t]; [done|]. intros H. apply TrimSpace_first in H.
  cbn [stops]. destruct (Byte.reSpace c) eqn:E; [|done].
  apply reSpace_asciiSpace in E. congruence.
Qed.

Lemma marker_cases s :
  exists M, marker s = String M EmptyString /\ oneOf " x!-" M = true
            /\ parseCheckbox (String M EmptyString) = boxStatus s.
Proof.
  unfold marker, boxStatus.
  destruct (String.eqb (Status s) StatusCompleted); [by exists "x"%char|].
  destruct (String.eqb (Status s) StatusFailed); [by exists "!"%char|].
  by exists " "%char.
Qed.

Lemma lastRun_find x :
  x <> EmptyString -> stops Byte.reSpace x -> oneLine x ->
  FindStringSubmatch lastRunRegex ("**Last Run**: " +:+ x) = Some [(1%nat, x)].
Proof.
  intros Hx Hs Hl. apply CheckboxFacts.oneLine_allDot in Hl.
  destruct x as [|c x]; [done|]. cbn [allIn] in Hl. apply andb_true_iff in Hl as [H1 H2].
  apply Find_first. unfold lastRunRegex.
  change ("**Last Run**: " +:+ String c x) with ("**Last Run**:" +:+ " " +:+ String c x).
  apply seq_first, lit_first. cbv beta.
  apply seq_first, space_first; [done|]. cbv beta.
  apply seq_first. rewrite <- (app_nil_r x).
  apply grp_plus_first; [done|done|done|]. cbv beta.
  apply eol_first. by rewrite app_nil_r.
Qed.

Lemma notes_find x :
  stops Byte.reSpace x -> oneLine x ->
  FindStringSubmatch notesRegex ("**Notes**: " +:+ x) = Some [(1%nat, x)].
Proof.
  intros Hs Hl. apply CheckboxFacts.oneLine_allDot in Hl.
  apply Find_first. unfold notesRegex.
  change ("**Notes**: " +:+ x) with ("**Notes**:" +:+ " " +:+ x).
  apply seq_first, lit_first. cbv beta.
  apply seq_first, space_first; [done|]. cbv beta.
  apply seq_first. rewrite <- (app_nil_r x) at 1.
  apply grp_star_first; [done|done|]. cbv beta.
  by apply eol_first.
Qed.

Lemma line_step tp S n m cur inN s :
  0 <= Number s -> cleanStep tp s ->
  view (scanLine (K S n m cur inN false) (stepLine s))
  = view (K (S ++ [mkStep (n + 1) (Description s) (boxStatus s) None EmptyString 0])
            (n + 1) m cur inN false).
Proof.
  intros Hn (Hd1 & Hd2 & Hd3 & _).
  destruct (marker_cases s) as (M & EM & HM & HB).
  destruct (itoa_nonneg_digits (Number s) Hn) as [Hdig Hne].
  unfold scanLine, stepLine. rewrite EM.
  kill projectNameRegex. killm contextSectionRegex.
  cbn [K inContextSection]. unfold scanBody.
  rewrite (stepLine_find M (Fmt.itoa (Number s)) (Description s)); try done.
  - cbn [group Nat.eqb]. by rewrite Hd3, HB.
  - by apply trimmed_stops.
  - by apply CheckboxFacts.oneLine_allDot.
Qed.

Lemma line_header S n m cur inN k :
  0 <= k <= Fmt.maxInt ->
  view (scanLine (K S n m cur inN false) ("### Step " +:+ Fmt.itoa k))
  = view (K S n (match m !! k with Some _ => m | None => <[k := noNotes]> m end)
            k true false).
Proof.
  intros Hk. pose proof (WriterViews.view_headerLine k Hk) as Hv.
  apply (f_equal WriterViews.vHeader) in Hv.
  change (headerNum ("### Step " +:+ Fmt.itoa k) = Some k) in Hv. unfold headerNum in Hv.
  destruct (FindStringSubmatch notesSectionRegex _) as [mt|] eqn:E; [|done].
  injection Hv as Hv.
  unfold scanLine. kill projectNameRegex. killm contextSectionRegex.
  cbn [K inContextSection]. unfold scanBody. kill stepLineRegex.
  rewrite E, Hv. reflexivity.
Qed.

(** The entry of the block that is open. *)
Definition entry (m : gmap Z stepNotes) (k : Z) : stepNotes := default noNotes (m !! k).

Definition statusUpd (m : gmap Z stepNotes) (k : Z) (x : string) : gmap Z stepNotes :=
  match FindStringSubmatch statusRegex ("**Status**: " +:+ x) with
  | Some mt =>
      <[k := mkNotes (group mt 1) (lastRun (entry m k)) (notes (entry m k))
                     (retryCount (entry m k))]> m
  | None => m
  end.

Lemma line_status S n m k x :
  0 < k ->
  view (scanLine (K S n m k true false) ("**Status**: " +:+ x))
  = view (K S n (statusUpd m k x) k true false).
Proof.
  intros Hk. unfold scanLine. kill projectNameRegex. killm contextSectionRegex.
  cbn [K inContextSection]. unfold scanBody. kill stepLineRegex. kill notesSectionRegex.
  cbn [K inNotesSection currentNoteStep andb].
  replace (0 <? k) with true by (symmetry; by apply Z.ltb_lt).
  unfold statusUpd.
  destruct (FindStringSubmatch statusRegex _); [reflexivity|].
  kill lastRunRegex. kill notesRegex. kill retriesRegex. reflexivity.
Qed.

Lemma line_lastRun S n m k x :
  0 < k -> x <> EmptyString -> stops Byte.reSpace x -> oneLine x ->
  view (scanLine (K S n m k true false) ("**Last Run**: " +:+ x))
  = view (K S n (<[k := mkNotes (status (entry m k)) x (notes (entry m k))
                                (retryCount (entry m k))]> m) k true false).
Proof.
  intros Hk Hx Hs Hl. unfold scanLine. kill projectNameRegex. killm contextSectionRegex.
  cbn [K inContextSection]. unfold scanBody. kill stepLineRegex. kill notesSectionRegex.
  cbn [K inNotesSection currentNoteStep andb].
  replace (0 <? k) with true by (symmetry; by apply Z.ltb_lt).
  kill statusRegex. rewrite lastRun_find by done. reflexivity.
Qed.

Lemma line_notes S n m k x :
  0 < k -> stops Byte.reSpace x -> oneLine x ->
  view (scanLine (K S n m k true false) ("**Notes**: " +:+ x))
  = view (K S n (<[k := mkNotes (status (entry m k)) (lastRun (entry m k)) x
                                (retryCount (entry m k))]> m) k true false).
Proof.
  intros Hk Hs Hl. unfold scanLine. kill projectNameRegex. killm contextSectionRegex.
  cbn [K inContextSection]. unfold scanBody. kill stepLineRegex. kill notesSectionRegex.
  cbn [K inNotesSection currentNoteStep andb].
  replace (0 <? k) with true by (symmetry; by apply Z.ltb_lt).
  kill statusRegex. kill lastRunRegex. rewrite notes_find by done. reflexivity.
Qed.


(** *** A block *)

Definition blockMap (m : gmap Z stepNotes) (s : Step) : gmap Z stepNotes :=
  let k := Number s in
  let m1 := match m !! k with Some _ => m | None => <[k := noNotes]> m end in
  let m2 := statusUpd m1 k (Status s) in
  let m3 := <[k := mkNotes (status (entry m2 k)) (lastRunText s) (notes (entry m2 k))
                           (retryCount (entry m2 k))]> m2 in
  <[k := mkNotes (status (entry m3 k)) (lastRun (entry m3 k)) (notesText s)
                 (retryCount (entry m3 k))]> m3.

Lemma pad_stops w x rest : stops Byte.reSpace (Time.pad w x +:+ rest).
Proof.
  unfold Time.pad. destruct (x <? 0); [done|]. cbn [String.append].
  destruct (itoa_nonneg_digits (Z.abs x)) as [Hd Hne]; [lia|].
  destruct (w - String.length (Fmt.itoa (Z.abs x)))%nat; [|done].
  cbn [Time.zeros String.append].
  destruct (Fmt.itoa (Z.abs x)) as [|c t]; [done|].
  cbn [allIn] in Hd. apply andb_true_iff in Hd as [Hd _].
  cbn [String.append stops]. by apply digit_not_space.
Qed.

Lemma Format_stops t : stops Byte.reSpace (Time.Format t).
Proof. unfold Time.Format. apply pad_stops. Qed.

Lemma Format_not_NA t : Time.Format t <> "N/A".
Proof.
  unfold Time.Format, Time.pad. destruct (Time.year t <? 0); [done|].
  cbn [String.append].
  destruct (itoa_nonneg_digits (Z.abs (Time.year t))) as [Hd Hne]; [lia|].
  destruct (4 - String.length (Fmt.itoa (Z.abs (Time.year t))))%nat; [|done].
  cbn [Time.zeros String.append].
  destruct (Fmt.itoa (Z.abs (Time.year t))) as [|c u]; [done|].
  cbn [allIn] in Hd. apply andb_true_iff in Hd as [Hd _].
  cbn [String.append]. intros [= -> _]. done.
Qed.

Lemma lastRunText_ok s :
  lastRunText s <> EmptyString /\ stops Byte.reSpace (lastRunText s)
  /\ oneLine (lastRunText s) /\ endsWithCR (lastRunText s) = false.
Proof.
  unfold lastRunText. destruct (LastRun s) as [t|]; [|done].
  split; [apply Format_nonempty|]. split; [apply Format_stops|].
  split; [apply Format_oneLine|]. apply noCR_endsWithCR, Format_noCR.
Qed.

Lemma notesText_ok s :
  fieldText (Notes s) ->
  stops Byte.reSpace (notesText s) /\ oneLine (notesText s)
  /\ endsWithCR (notesText s) = false.
Proof.
  intros (H1 & H2 & H3). unfold notesText.
  destruct (negb (String.eqb (Notes s) EmptyString)); [|done].
  by repeat split.
Qed.

Lemma takes_block tp S n m cur inN s :
  0 < Number s <= Fmt.maxInt -> cleanStep tp s ->
  takes (blockOf s) (K S n m cur inN false) (K S n (blockMap m s) (Number s) true false).
Proof.
  intros Hk (_ & _ & _ & _ & _ & HN & _).
  destruct (lastRunText_ok s) as (L1 & L2 & L3 & _).
  destruct (notesText_ok s HN) as (N1 & N2 & _).
  unfold blockOf, blockMap.
  eapply takes_cons; [apply line_blank|].
  eapply takes_cons; [apply line_header; lia|].
  eapply takes_cons; [apply line_status; lia|].
  eapply takes_cons; [apply line_lastRun; [lia|done..]|].
  apply takes_one. apply line_notes; [lia|done..].
Qed.

Lemma blockMap_other m s j : j <> Number s -> blockMap m s !! j = m !! j.
Proof.
  intros H. unfold blockMap, statusUpd.
  rewrite !lookup_insert_ne by done.
  destruct (FindStringSubmatch statusRegex _);
    rewrite ?lookup_insert_ne by done;
    destruct (m !! Number s); by rewrite ?lookup_insert_ne by done.
Qed.

Lemma blockMap_lookup m s :
  m !! Number s = None ->
  exists e, blockMap m s !! Number s = Some e
            /\ lastRun e = lastRunText s /\ notes e = notesText s /\ retryCount e = 0.
Proof.
  intros H. unfold blockMap. rewrite H. rewrite lookup_insert_eq.
  eexists. split; [reflexivity|]. cbn [lastRun notes retryCount].
  unfold entry at 1 2. rewrite !lookup_insert_eq. cbn [default lastRun retryCount].
  unfold statusUpd. destruct (FindStringSubmatch statusRegex _);
    unfold entry; rewrite ?lookup_insert_eq; cbn; by rewrite ?lookup_insert_eq.
Qed.


(** *** The whole text *)

(** The steps as the scan numbers them. *)
Fixpoint readSteps (n : Z) (steps : list Step) : list Step :=
  match steps with
  | [] => []
  | s :: rest =>
      mkStep (n + 1) (Description s) (boxStatus s) None EmptyString 0
        :: readSteps (n + 1) rest
  end.

Lemma takes_steps tp steps : forall S n m cur inN,
  Forall (fun s => 0 <= Number s /\ cleanStep tp s) steps ->
  takes (map stepLine steps) (K S n m cur inN false)
        (K (S ++ readSteps n steps) (n + Z.of_nat (length steps)) m cur inN false).
Proof.
  induction steps as [|s steps IH]; intros S n m cur inN H.
  - cbn [map readSteps length]. rewrite List.app_nil_r, Z.add_0_r. apply takes_nil.
  - apply List.Forall_cons_iff in H as [[Hn Hc] H].
    cbn [map readSteps]. eapply takes_cons; [by eapply line_step|].
    replace (n + Z.of_nat (length (s :: steps)))
      with (n + 1 + Z.of_nat (length steps)) by (cbn [length]; lia).
    replace (S ++ mkStep (n + 1) (Description s) (boxStatus s) None EmptyString 0
                 :: readSteps (n + 1) steps)
      with ((S ++ [mkStep (n + 1) (Description s) (boxStatus s) None EmptyString 0])
              ++ readSteps (n + 1) steps) by (by rewrite <- List.app_assoc).
    by apply IH.
Qed.

Lemma takes_blocks tp steps : forall S n m cur inN,
  Forall (fun s => 0 < Number s <= Fmt.maxInt /\ cleanStep tp s) steps ->
  exists cur' inN',
    takes (concat (map blockOf steps)) (K S n m cur inN false)
          (K S n (fold_left blockMap steps m) cur' inN' false).
Proof.
  induction steps as [|s steps IH]; intros S n m cur inN H.
  - exists cur, inN. apply takes_nil.
  - apply List.Forall_cons_iff in H as [[Hn Hc] H].
    destruct (IH S n (blockMap m s) (Number s) true H) as (cur' & inN' & HT).
    exists cur', inN'. cbn [map concat fold_left].
    eapply takes_app; [by eapply takes_block|done].
Qed.

Lemma takes_context S n m cur ls :
  Forall (fun l => MatchString sectionHeaderRegex l = false) ls ->
  takes ls (K S n m cur false true) (K S n m cur false true).
Proof.
  induction 1 as [|l ls Hl _ IH]; [apply takes_nil|].
  eapply takes_cons; [by apply line_inContext|done].
Qed.

(** The lines of the text, with the lines [cp] between the title and
    the plan. *)
Definition linesWith (p : Plan) (cp : list string) : list string :=
  ("# Project: " +:+ ProjectName p) :: EmptyString
    :: cp
    ++ "## Plan" :: EmptyString :: map stepLine (Steps p)
    ++ EmptyString :: "## Notes" :: concat (map blockOf (Steps p)).

Lemma takes_linesWith tp p cp inC :
  takes cp (K [] 0 ∅ 0 false false) (K [] 0 ∅ 0 false inC) ->
  Forall (fun s => 0 < Number s <= Fmt.maxInt /\ cleanStep tp s) (Steps p) ->
  exists cur' inN',
    takes (linesWith p cp) scan0
          (K (readSteps 0 (Steps p)) (Z.of_nat (length (Steps p)))
             (fold_left blockMap (Steps p) ∅) cur' inN' false).
Proof.
  intros Hcp H.
  destruct (takes_blocks tp (Steps p) (readSteps 0 (Steps p))
              (Z.of_nat (length (Steps p))) ∅ 0 false H) as (cur' & inN' & HB).
  exists cur', inN'. unfold linesWith.
  eapply takes_cons; [apply (line_title [] 0 ∅ 0)|].
  eapply takes_cons; [apply line_blank|].
  eapply takes_app; [exact Hcp|].
  eapply takes_cons; [apply line_plan|].
  eapply takes_cons; [apply line_blank|].
  eapply takes_app.
  { apply (takes_steps tp (Steps p) [] 0 ∅ 0 false).
    eapply List.Forall_impl; [|exact H]. intros s [? ?]. split; [lia|done]. }
  cbn [app]. rewrite Z.add_0_l.
  eapply takes_cons; [apply line_blank|].
  eapply takes_cons; [apply line_notesHeading|].
  exact HB.
Qed.


(** *** The lines that the scanner yields *)

Lemma dropCR_spec s :
  Bufio.dropCR s = s \/ s = Bufio.dropCR s +:+ String Byte.CR EmptyString.
Proof.
  unfold Bufio.dropCR. destruct (Strings.rev s) as [|c r] eqn:E; [by left|].
  destruct (Byte.eqb c Byte.CR) eqn:Ec; [|by left]. right.
  apply byte_eqb_eq in Ec as ->.
  apply (f_equal Strings.rev) in E. rewrite rev_involutive in E.
  by rewrite E, rev_cons.
Qed.

Lemma sectionHeader_dropCR l :
  MatchString sectionHeaderRegex l = false ->
  MatchString sectionHeaderRegex (Bufio.dropCR l) = false.
Proof.
  intros H. destruct (dropCR_spec l) as [->|E]; [done|].
  destruct (MatchString sectionHeaderRegex (Bufio.dropCR l)) eqn:Em; [|done].
  apply Match_Find in Em as [cs Hcs].
  apply Find_sound in Hcs as (a & b & Eab & Hd).
  assert (is_Some (FindStringSubmatch sectionHeaderRegex
                     (a +:+ (b +:+ String Byte.CR EmptyString)))) as Hs.
  { eapply (Find_complete _ _ _ [] cs).
    unfold sectionHeaderRegex in *. cbn [den] in *.
    destruct Hd as (a1 & a2 & cs1 & -> & H1 & a3 & a4 & cs2 & -> & H2 & H3).
    exists a1, (a3 +:+ a4), cs1. split; [done|]. split; [done|].
    exists a3, a4, cs2. done. }
  rewrite <- app_assoc, <- Eab, <- E in Hs. apply Match_Find in Hs. congruence.
Qed.

Lemma stepLine_ok tp s :
  cleanStep tp s -> oneLine (stepLine s) /\ Bufio.dropCR (stepLine s) = stepLine s.
Proof.
  intros (Hd1 & Hd2 & Hd3 & _). unfold stepLine. split.
  - repeat (apply oneLine_app; split); try done.
    + unfold marker. by repeat destruct (String.eqb _ _).
    + apply PatchLines.itoa_oneLine.
  - apply endsWithCR_dropCR. rewrite <- !app_assoc.
    apply endsWithCR_app; [|by apply trimmed_endsWithCR].
    apply lastByte_endsWithCR. by rewrite lastByte_app.
Qed.

Lemma itoa_endsWithCR n : endsWithCR (Fmt.itoa n) = false.
Proof.
  apply noCR_endsWithCR.
  destruct n as [|q|q]; [done| |]; unfold Fmt.itoa.
  - apply digits_no_byte; [done|apply uint_digits].
  - rewrite hasByte_app.
    rewrite (digits_no_byte Byte.CR (NilEmpty.string_of_uint (N.to_uint (N.pos q))));
      [reflexivity|reflexivity|apply uint_digits].
Qed.

Lemma blockOf_ok tp s :
  cleanStep tp s ->
  Forall (fun l => oneLine l /\ Bufio.dropCR l = l) (blockOf s).
Proof.
  intros (_ & _ & _ & Hs1 & Hs2 & HN & _).
  destruct (lastRunText_ok s) as (_ & _ & L3 & L4).
  destruct (notesText_ok s HN) as (_ & N2 & N3).
  unfold blockOf. repeat apply List.Forall_cons; try apply List.Forall_nil.
  - done.
  - split; [apply oneLine_app; split; [done|apply PatchLines.itoa_oneLine]|].
    apply endsWithCR_dropCR, endsWithCR_app; [done|apply itoa_endsWithCR].
  - split; [by apply oneLine_app|]. by apply endsWithCR_dropCR, endsWithCR_app.
  - split; [by apply oneLine_app|]. by apply endsWithCR_dropCR, endsWithCR_app.
  - split; [by apply oneLine_app|]. by apply endsWithCR_dropCR, endsWithCR_app.
Qed.

Lemma Lines_WriteFile tp p :
  oneLine (ProjectName p) -> endsWithCR (ProjectName p) = false ->
  Forall (cleanStep tp) (Steps p) ->
  Bufio.Lines (WriteFile p) = linesWith p (map Bufio.dropCR (contextPart p)).
Proof.
  intros Hn1 Hn2 Hs.
  assert (Forall (fun l => oneLine l /\ Bufio.dropCR l = l) (map stepLine (Steps p))) as H1.
  { apply List.Forall_map. eapply List.Forall_impl; [|exact Hs].
    intros s. apply stepLine_ok. }
  assert (Forall (fun l => oneLine l /\ Bufio.dropCR l = l)
                 (concat (map blockOf (Steps p)))) as H2.
  { apply Forall_concat, List.Forall_map. eapply List.Forall_impl; [|exact Hs].
    intros s. apply blockOf_ok. }
  assert (Forall oneLine (contextPart p)) as H3.
  { unfold contextPart. destruct (negb _); [|done].
    do 2 (apply List.Forall_cons; [done|]).
    apply Forall_app. split; [apply Split_pieces|by repeat constructor]. }
  assert (forall ls, Forall (fun l => oneLine l /\ Bufio.dropCR l = l) ls ->
                     map Bufio.dropCR ls = ls) as Hid.
  { induction 1 as [|l ls [_ Hl] _ IH]; [done|]. cbn [map]. by rewrite Hl, IH. }
  assert (forall ls, Forall (fun l => oneLine l /\ Bufio.dropCR l = l) ls ->
                     Forall oneLine ls) as Hone.
  { intros ls H. eapply List.Forall_impl; [|exact H]. by intros l [? _]. }
  unfold Bufio.Lines. rewrite WriteFile_unlines, pieces_unlines.
  - unfold linesOf, linesWith. cbn [map]. rewrite map_app. cbn [map].
    rewrite map_app. cbn [map]. rewrite (Hid _ H1), (Hid _ H2).
    rewrite endsWithCR_dropCR; [done|]. by apply endsWithCR_app.
  - unfold linesOf. apply List.Forall_cons; [by apply oneLine_app|].
    apply List.Forall_cons; [done|].
    apply Forall_app. split; [done|].
    do 2 (apply List.Forall_cons; [done|]).
    apply Forall_app. split; [by apply Hone|].
    do 2 (apply List.Forall_cons; [done|]). by apply Hone.
Qed.

Lemma takes_contextPart p :
  Forall (fun l => MatchString sectionHeaderRegex l = false)
         (Strings.Split (Context p) Byte.LF) ->
  exists inC,
    takes (map Bufio.dropCR (contextPart p))
          (K [] 0 ∅ 0 false false) (K [] 0 ∅ 0 false inC).
Proof.
  intros H. unfold contextPart. destruct (negb _).
  - exists true. cbn [map]. rewrite map_app. cbn [map].
    eapply takes_cons; [apply line_contextHeader|].
    eapply takes_cons; [apply line_blank|].
    eapply takes_app; [|apply takes_one, line_blank].
    apply takes_context. apply List.Forall_map.
    eapply List.Forall_impl; [|exact H]. intros l. apply sectionHeader_dropCR.
  - exists false. apply takes_nil.
Qed.


(** *** The annotations, applied *)

Lemma fold_blockMap_other steps : forall m j,
  Forall (fun s => Number s <> j) steps ->
  fold_left blockMap steps m !! j = m !! j.
Proof.
  induction steps as [|s steps IH]; intros m j H; [done|].
  apply List.Forall_cons_iff in H as [Hs H]. cbn [fold_left].
  rewrite IH by done. by apply blockMap_other.
Qed.

Lemma numberedFrom_above n steps :
  numberedFrom n steps -> Forall (fun s => n <= Number s) steps.
Proof.
  revert n. induction steps as [|s steps IH]; intros n H; [done|].
  destruct H as [H1 H2]. constructor; [lia|].
  eapply List.Forall_impl; [|apply (IH _ H2)]. intros x Hx. cbn beta in Hx. lia.
Qed.

Lemma applyNotes_entry tp m s e :
  cleanStep tp s ->
  m !! Number s = Some e ->
  lastRun e = lastRunText s -> notes e = notesText s -> retryCount e = 0 ->
  applyNotes tp m (mkStep (Number s) (Description s) (boxStatus s) None EmptyString 0)
  = readBack s.
Proof.
  intros (_ & _ & _ & _ & _ & _ & HT) Hm H1 H2 H3.
  unfold applyNotes, readBack. cbn [Number Description Status LastRun Notes].
  rewrite Hm, H1, H2, H3. f_equal.
  - unfold lastRunText. destruct (LastRun s) as [t|] eqn:E; [|done].
    rewrite (HT t eq_refl).
    destruct (String.eqb (Time.Format t) EmptyString) eqn:E1.
    { apply String.eqb_eq in E1. by apply Format_nonempty in E1. }
    destruct (String.eqb (Time.Format t) "N/A") eqn:E2; [|done].
    apply String.eqb_eq in E2. by apply Format_not_NA in E2.
  - unfold notesText.
    destruct (String.eqb (Notes s) EmptyString) eqn:E1; cbn [negb].
    { apply String.eqb_eq in E1. by rewrite E1. }
    by destruct (String.eqb (Notes s) "(none)").
Qed.

Lemma applyNotes_readSteps tp steps : forall n m,
  numberedFrom (n + 1) steps -> Forall (cleanStep tp) steps ->
  (forall j, n < j -> m !! j = None) ->
  map (applyNotes tp (fold_left blockMap steps m)) (readSteps n steps)
  = map readBack steps.
Proof.
  induction steps as [|s steps IH]; intros n m HN HC Hm; [done|].
  destruct HN as [Hs HN]. apply List.Forall_cons_iff in HC as [Hc HC].
  cbn [readSteps map fold_left]. f_equal.
  - destruct (blockMap_lookup m s) as (e & He & E1 & E2 & E3); [apply Hm; lia|].
    rewrite <- Hs. eapply applyNotes_entry; try done.
    rewrite fold_blockMap_other; [done|].
    eapply List.Forall_impl; [|apply (numberedFrom_above _ _ HN)].
    intros x Hx. cbn beta in Hx. lia.
  - apply IH; [done|done|]. intros j Hj. rewrite blockMap_other by lia. apply Hm. lia.
Qed.

Lemma numberedFrom_bounds n steps :
  0 <= n -> numberedFrom (n + 1) steps ->
  n + Z.of_nat (length steps) <= Fmt.maxInt ->
  Forall (fun s => 0 < Number s <= Fmt.maxInt) steps.
Proof.
  revert n. induction steps as [|s steps IH]; intros n Hn H HL; [done|].
  destruct H as [H1 H2]. cbn [length] in HL. constructor; [lia|].
  apply (IH (n + 1)); [lia|done|lia].
Qed.

(** What [Parse] reads in the text that [WriteFile] writes. *)
Lemma Parse_WriteFile tp p :
  wellWritten tp p -> linesFit (WriteFile p) ->
  exists p', Parse tp (WriteFile p) = Some p'
             /\ Steps p' = map readBack (Steps p)
             /\ RawContent p' = WriteFile p.
Proof.
  intros (Hn1 & Hn2 & Hctx & Hnum & Hlen & Hclean) Hfit.
  unfold Parse. rewrite (StepLineFacts.linesFit_no_error _ Hfit).
  eexists. split; [reflexivity|]. split; [|reflexivity].
  unfold finish. cbn [Steps].
  rewrite (Lines_WriteFile tp p Hn1 Hn2 Hclean).
  destruct (takes_contextPart p Hctx) as [inC Hcp].
  assert (Forall (fun s => 0 < Number s <= Fmt.maxInt /\ cleanStep tp s) (Steps p)) as HS.
  { pose proof (numberedFrom_bounds 0 (Steps p)) as HB.
    apply Forall_and. split; [|done]. apply HB; [lia|done|lia]. }
  destruct (takes_linesWith tp p _ inC Hcp HS) as (cur' & inN' & HT).
  specialize (HT scan0 eq_refl). unfold scanAll.
  set (stF := fold_left scanLine _ scan0) in *.
  assert (steps stF = readSteps 0 (Steps p)
          /\ notesMap stF = fold_left blockMap (Steps p) ∅) as [-> ->].
  { unfold view in HT. cbn [K steps notesMap] in HT. by injection HT. }
  by apply (applyNotes_readSteps tp (Steps p) 0 ∅).
Qed.

End RenderScan.

(** ** The detector of prompts *)

Module DetectorFacts.

Import Spec StringFacts LineFacts Regexp Detector.

Lemma Repeat_space n :
  0 <= n -> exists pad, Repeat " " n = Some pad /\ Strings.len pad = n.
Proof.
  intros Hn. unfold Repeat. replace (n <? 0) with false by (symmetry; apply Z.ltb_ge; lia).
  eexists. split; [reflexivity|].
  rewrite <- (Z2Nat.id n) at 2 by done. generalize (Z.to_nat n). clear.
  intros k. induction k as [|k IH]; [done|].
  rewrite Nat.iter_succ, len_app, IH. cbn [Strings.len]. lia.
Qed.

(** Removing matches does not make a text longer. *)
Lemma replaceAll_shorter r : forall fuel s,
  (String.length (replaceAll fuel r s EmptyString) <= String.length s)%nat.
Proof.
  induction fuel as [|fuel IH]; intros s; [done|].
  cbn [replaceAll]. destruct s as [|c s]; [done|].
  destruct (rmatch r (String c s) [] _) as [[rest cs]|].
  - destruct (String.length rest <? String.length (String c s))%nat eqn:E.
    + apply Nat.ltb_lt in E. cbn [String.append]. specialize (IH rest). lia.
    + cbn [String.length]. specialize (IH s). lia.
  - cbn [String.length]. specialize (IH s). lia.
Qed.

Lemma stripAnsi_shorter s : Strings.len (stripAnsi s) <= Strings.len s.
Proof.
  rewrite !len_length. unfold stripAnsi, ReplaceAllString.
  pose proof (replaceAll_shorter ansiRegex (String.length s) s). lia.
Qed.

(** A text without the byte ESC has no escape sequence to remove. *)
Lemma replaceAll_noESC : forall fuel s,
  hasByte ESC s = false -> replaceAll fuel ansiRegex s EmptyString = s.
Proof.
  induction fuel as [|fuel IH]; intros s H; [done|].
  destruct s as [|c s]; [done|].
  cbn [hasByte] in H. apply orb_false_iff in H as [Hc Hs].
  cbn [replaceAll]. unfold ansiRegex at 1. cbn [rmatch Strings.stripPrefix].
  assert (Byte.eqb ESC c = false) as ->.
  { destruct (Byte.eqb ESC c) eqn:E; [|done].
    apply byte_eqb_eq in E as <-. by rewrite byte_eqb_refl in Hc. }
  by rewrite IH.
Qed.

Lemma stripAnsi_noESC s : hasByte ESC s = false -> stripAnsi s = s.
Proof. apply replaceAll_noESC. Qed.

Lemma formatBoxLine_width line width :
  3 <= width ->
  exists s, formatBoxLine line width = Some s
            /\ Strings.len s
               = (if width <? Strings.len (stripAnsi line) then width
                  else width + (Strings.len line - Strings.len (stripAnsi line))).
Proof.
  intros Hw. unfold formatBoxLine. pose proof (stripAnsi_shorter line) as Hs.
  destruct (width <? Strings.len (stripAnsi line)) eqn:E.
  - apply Z.ltb_lt in E.
    replace ((0 <=? width - 3) && (width - 3 <=? Strings.len line)) with true.
    + eexists. split; [reflexivity|].
      rewrite len_app, len_length, SummaryFacts.length_take.
      * cbn [Strings.len]. lia.
      * pose proof (len_length line). pose proof (len_length (stripAnsi line)). lia.
    + symmetry. apply andb_true_iff. split; apply Z.leb_le; lia.
  - apply Z.ltb_ge in E.
    destruct (Repeat_space (width - Strings.len (stripAnsi line))) as (pad & -> & Hp); [lia|].
    eexists. split; [reflexivity|]. rewrite len_app, Hp. lia.
Qed.


(** *** The context of a question *)

Lemma collect_filter lines : forall context,
  collect lines context
  = context ++ filter (fun l => l <> EmptyString) (map Strings.TrimSpace lines).
Proof.
  induction lines as [|l lines IH]; intros context.
  - by rewrite List.app_nil_r.
  - cbn [collect map]. destruct (String.eqb (Strings.TrimSpace l) EmptyString) eqn:E.
    + apply String.eqb_eq in E. cbn [negb]. rewrite IH, filter_cons_False; [done|].
      by intros H.
    + apply String.eqb_neq in E. cbn [negb].
      rewrite IH, filter_cons_True by done. by rewrite <- List.app_assoc.
Qed.

Lemma getQuestionContext_spec ls :
  getQuestionContext ls
  = match filter (fun l => l <> EmptyString) (map Strings.TrimSpace (lastN 5 ls)) with
    | [] => ["(no context available)"]
    | c => c
    end.
Proof.
  unfold getQuestionContext, lastN.
  destruct (Z.of_nat (length ls) =? 0) eqn:E.
  - apply Z.eqb_eq in E. destruct ls; [done|]. cbn [length] in E. lia.
  - replace (Z.to_nat (if Z.of_nat (length ls) - 5 <? 0 then 0 else Z.of_nat (length ls) - 5))
      with (length ls - 5)%nat.
    + rewrite collect_filter. cbn [app].
      destruct (filter _ _) as [|x c]; [done|].
      replace (Z.of_nat (length (x :: c)) =? 0) with false; [done|].
      symmetry. apply Z.eqb_neq. cbn [length]. lia.
    + destruct (Z.of_nat (length ls) - 5 <? 0) eqn:E5.
      * apply Z.ltb_lt in E5. lia.
      * apply Z.ltb_ge in E5. lia.
Qed.

Lemma getQuestionContext_size ls :
  (1 <= length (getQuestionContext ls) <= 5)%nat
  /\ Forall (fun l => l <> EmptyString) (getQuestionContext ls).
Proof.
  rewrite getQuestionContext_spec.
  assert (length (filter (fun l => l <> EmptyString)
                         (map Strings.TrimSpace (lastN 5 ls))) <= 5)%nat as HL.
  { etrans; [apply length_filter|]. rewrite length_map. unfold lastN.
    rewrite length_drop. lia. }
  assert (Forall (fun l => l <> EmptyString)
                 (filter (fun l => l <> EmptyString)
                         (map Strings.TrimSpace (lastN 5 ls)))) as HF.
  { apply Forall_forall. intros x Hx. by apply list_elem_of_filter in Hx as [Hx _]. }
  destruct (filter _ _) as [|x c].
  - split; [cbn; lia|]. by repeat constructor.
  - split; [cbn [length] in *; lia|done].
Qed.

(** The boxes of [showWarning] and [monitorStalls] are 74 bytes wide,
    so no line of a box fails to be cut. *)
Lemma boxLines_total context : is_Some (boxLines context).
Proof.
  induction context as [|l context [ls IH]]; [by eexists|].
  cbn [boxLines]. destruct (formatBoxLine_width l 74) as (s & -> & _); [lia|].
  rewrite IH. by eexists.
Qed.


(** *** The buffer of recent lines *)

Lemma lastN_short {A} n (l : list A) : (length l <= n)%nat -> lastN n l = l.
Proof. intros H. unfold lastN. by replace (length l - n)%nat with 0%nat by lia. Qed.

Lemma lastN_app {A} n (a b : list A) : lastN n (lastN n a ++ b) = lastN n (a ++ b).
Proof.
  unfold lastN. rewrite !List.length_app, length_drop.
  destruct (decide (length a <= n)%nat) as [H|H].
  - replace (length a - n)%nat with 0%nat by lia. by rewrite Nat.sub_0_r.
  - replace (length a - (length a - n) + length b - n)%nat with (length b) by lia.
    replace (length a + length b - n)%nat with ((length a - n) + length b)%nat by lia.
    rewrite <- drop_drop. by rewrite (drop_app_le a b (length a - n)) by lia.
Qed.

Lemma lastN_length {A} n (l : list A) : (length (lastN n l) <= n)%nat.
Proof. unfold lastN. rewrite length_drop. lia. Qed.

Ltac fin := repeat split; try done; cbn; try lia.

Section WriteFacts.

Variable matchesPromptPattern : string -> bool.

(** What holds of the detector and the boxes shown so far: a box has
    been shown only if the detector has warned. *)
Definition once (acc : state * list Shown) : Prop :=
  (length (snd acc) <= 1)%nat /\ (snd acc <> [] -> warned (fst acc) = true).

Lemma showWarning_spec st :
  exists st' box,
    showWarning st = Some (st', box)
    /\ recentLines st' = recentLines st /\ warned st' = true
    /\ (warned st = true -> box = [])
    /\ (length box <= 1)%nat.
Proof.
  unfold showWarning. destruct (warned st) eqn:E.
  - exists st, []. fin.
  - cbn [recentLines].
    destruct (boxLines_total (getQuestionContext (recentLines st))) as [ls ->].
    eexists _, _. split; [reflexivity|]. fin.
Qed.

Lemma writeLine_spec now st shown line :
  (length (recentLines st) <= 10)%nat ->
  exists st' box,
    writeLine matchesPromptPattern now (Some (st, shown)) line = Some (st', shown ++ box)
    /\ recentLines st'
       = lastN 10 (recentLines st ++ filter nonBlank [line])
    /\ (warned st = true -> warned st' = true /\ box = [])
    /\ (box <> [] -> warned st' = true)
    /\ (length box <= 1)%nat.
Proof.
  intros HL. cbn [writeLine].
  destruct (String.eqb (Strings.TrimSpace line) EmptyString) eqn:E.
  - apply String.eqb_eq in E. exists st, []. rewrite List.app_nil_r.
    rewrite filter_cons_False by (unfold nonBlank; by intros H).
    rewrite filter_nil, List.app_nil_r, lastN_short by done. fin.
  - apply String.eqb_neq in E.
    rewrite filter_cons_True by done. rewrite filter_nil.
    assert ((if maxRecentLines <? Z.of_nat (length (recentLines st ++ [line]))
             then drop 1 (recentLines st ++ [line]) else recentLines st ++ [line])
            = lastN 10 (recentLines st ++ [line])) as ->.
    { unfold lastN, maxRecentLines. rewrite List.length_app. cbn [length].
      destruct (10 <? Z.of_nat (length (recentLines st) + 1)) eqn:E1.
      - apply Z.ltb_lt in E1. by replace (length (recentLines st) + 1 - 10)%nat with 1%nat by lia.
      - apply Z.ltb_ge in E1. by replace (length (recentLines st) + 1 - 10)%nat with 0%nat by lia. }
    destruct (matchesPromptPattern (Strings.TrimSpace line)).
    + destruct (showWarning_spec
                  (mkState (lastN 10 (recentLines st ++ [line])) (Some now) (warned st)))
        as (st' & box & -> & H1 & H2 & H3 & H4).
      exists st', box. split; [done|]. split; [done|]. split; [|done].
      intros Hw. split; [done|]. by apply H3.
    + eexists _, []. rewrite List.app_nil_r. split; [reflexivity|]. fin.
Qed.

Lemma writeLines_spec now lines : forall i st shown,
  (length (recentLines st) <= 10)%nat -> once (st, shown) ->
  exists st' shown',
    writeLines matchesPromptPattern now i lines (Some (st, shown)) = Some (st', shown')
    /\ recentLines st' = lastN 10 (recentLines st ++ filter nonBlank lines)
    /\ once (st', shown')
    /\ (warned st = true -> warned st' = true /\ shown' = shown).
Proof.
  induction lines as [|l lines IH]; intros i st shown HL [O1 O2].
  - exists st, shown. cbn [writeLines]. rewrite filter_nil, List.app_nil_r, lastN_short by done.
    fin.
  - cbn [writeLines].
    destruct (writeLine_spec (now i) st shown l HL) as (st1 & box & -> & R1 & W1 & B1 & L1).
    assert (once (st1, shown ++ box)) as HO.
    { unfold once in *. cbn [fst snd] in *. destruct box as [|b box].
      - rewrite List.app_nil_r. split; [done|]. intros Hs.
        destruct (warned st) eqn:Ew; [by apply W1|]. by apply O2 in Hs.
      - destruct shown as [|x shown].
        + cbn [app]. split; [done|]. intros _. by apply B1.
        + assert (warned st = true) as Hw by (by apply O2).
          by destruct (W1 Hw) as [_ ?]. }
    destruct (IH (S i) st1 (shown ++ box)) as (st' & shown' & -> & R2 & O' & W2);
      [rewrite R1; apply lastN_length|done|].
    exists st', shown'. split; [done|]. split; [|split; [done|]].
    + rewrite R2, R1, lastN_app, <- List.app_assoc.
      by rewrite <- filter_app.
    + intros Hw. destruct (W1 Hw) as [Hw1 ->]. rewrite List.app_nil_r in W2. by apply W2.
Qed.

Lemma Write_spec e now p st :
  (length (recentLines st) <= 10)%nat ->
  exists st' shown,
    Write matchesPromptPattern e now p st = Some (st', shown)
    /\ recentLines st'
       = (if e then recentLines st
          else lastN 10 (recentLines st ++ filter nonBlank (Strings.Split p Byte.LF)))
    /\ (length shown <= 1)%nat
    /\ (shown <> [] -> warned st' = true)
    /\ (warned st = true -> warned st' = true /\ shown = []).
Proof.
  intros HL. unfold Write. destruct e.
  - exists st, []. fin.
  - destruct (writeLines_spec now (Strings.Split p Byte.LF) 0 st [] HL)
      as (st' & shown & -> & R & [O1 O2] & W); [fin|].
    exists st', shown. split; [done|]. split; [done|]. split; [done|].
    split; [exact O2|exact W].
Qed.

Lemma stallCheck_spec now st :
  exists st' shown,
    stallCheck now st = Some (st', shown)
    /\ recentLines st' = recentLines st
    /\ (length shown <= 1)%nat
    /\ (shown <> [] -> warned st' = true)
    /\ (warned st = true -> warned st' = true /\ shown = []).
Proof.
  unfold stallCheck. destruct (lastLineAt st) as [t|]; [|exists st, []; fin].
  destruct (30000000000 <? now - t); cbn [andb]; [|exists st, []; fin].
  destruct (warned st) eqn:E; cbn [negb]; [exists st, []; fin|].
  cbn [recentLines].
  destruct (boxLines_total (getQuestionContext (recentLines st))) as [ls ->].
  eexists _, _. split; [reflexivity|]. fin.
Qed.

Lemma calls_once cs : forall st,
  (length (recentLines st) <= 10)%nat ->
  exists st' shown,
    calls matchesPromptPattern cs st = Some (st', shown)
    /\ (length (recentLines st') <= 10)%nat
    /\ (length shown <= 1)%nat
    /\ (shown <> [] -> warned st' = true)
    /\ (warned st = true -> warned st' = true /\ shown = []).
Proof.
  induction cs as [|c cs IH]; intros st HL.
  { exists st, []. fin. }
  cbn [calls].
  assert (exists st1 shown1,
            match c with
            | CallWrite e now p => Write matchesPromptPattern e now p st
            | CallCheck now => stallCheck now st
            end = Some (st1, shown1)
            /\ (length (recentLines st1) <= 10)%nat
            /\ (length shown1 <= 1)%nat
            /\ (shown1 <> [] -> warned st1 = true)
            /\ (warned st = true -> warned st1 = true /\ shown1 = []))
    as (st1 & shown1 & -> & L1 & N1 & B1 & W1).
  { destruct c as [e now p|now].
    - destruct (Write_spec e now p st HL) as (st1 & sh & E & R & N & B & W).
      exists st1, sh. split; [done|]. split; [|done].
      rewrite R. destruct e; [done|apply lastN_length].
    - destruct (stallCheck_spec now st) as (st1 & sh & E & R & N & B & W).
      exists st1, sh. split; [done|]. split; [by rewrite R|done]. }
  destruct (IH st1 L1) as (st2 & shown2 & -> & L2 & N2 & B2 & W2).
  exists st2, (shown1 ++ shown2). split; [done|]. split; [done|].
  destruct shown1 as [|b1 shown1].
  - cbn [app]. split; [done|]. split; [done|]. intros Hw.
    destruct (W1 Hw) as [Hw1 _]. by apply W2.
  - destruct (W2 (B1 ltac:(done))) as [Hw2 ->]. rewrite List.app_nil_r.
    split; [done|]. split; [done|]. intros Hw. by destruct (W1 Hw) as [_ ?].
Qed.

End WriteFacts.

End DetectorFacts.

(** ** The title and the context of a parsed plan *)

Module ContextFacts.

Import Spec StringFacts LineFacts RegexpFacts Regexp Plan Parser.

Lemma scanBody_frame st l :
  projectName (scanBody st l) = projectName st
  /\ context (scanBody st l) = context st
  /\ inContextSection (scanBody st l) = inContextSection st
  /\ contextLines (scanBody st l) = contextLines st.
Proof.
  unfold scanBody, updNotes.
  repeat (destruct (FindStringSubmatch _ l); [done|]).
  destruct (_ && _); [|done].
  repeat (destruct (FindStringSubmatch _ l); [done|]).
  by destruct (Strings.HasPrefix l "#").
Qed.

Lemma scanLine_title st l :
  projectName (scanLine st l)
  = match titleOf l with Some t => t | None => projectName st end.
Proof.
  unfold scanLine, titleOf.
  destruct (FindStringSubmatch projectNameRegex l); [done|].
  destruct (MatchString contextSectionRegex l); [done|].
  destruct (inContextSection st); [|apply scanBody_frame].
  destruct (MatchString sectionHeaderRegex l); [|done].
  by destruct (scanBody_frame
                 (mkScan (projectName st)
                    (Strings.TrimSpace (Strings.Join (contextLines st) (String Byte.LF EmptyString)))
                    (steps st) (stepNumber st) (notesMap st) (currentNoteStep st)
                    (inNotesSection st) false []) l) as [-> _].
Qed.

Lemma fold_title lines : forall st,
  projectName (fold_left scanLine lines st)
  = fold_left (fun acc l => match titleOf l with Some t => t | None => acc end)
              lines (projectName st).
Proof.
  induction lines as [|l lines IH]; intros st; [done|].
  cbn [fold_left]. by rewrite IH, scanLine_title.
Qed.

Lemma Parse_title tp content p :
  Parse tp content = Some p -> ProjectName p = lastTitle (Bufio.Lines content).
Proof.
  unfold Parse. destruct (Bufio.Err content); [done|]. intros [= <-].
  unfold finish, scanAll, lastTitle. cbn [ProjectName]. by rewrite fold_title.
Qed.

(** The three fields of the scan that hold the context. *)
Definition ctx (st : scan) : string * bool * list string :=
  (context st, inContextSection st, contextLines st).

Lemma scanLine_outside_ctx st l :
  inContextSection st = false -> MatchString contextSectionRegex l = false ->
  ctx (scanLine st l) = ctx st.
Proof.
  intros Hc Hl. unfold scanLine, ctx. rewrite Hl, Hc.
  destruct (FindStringSubmatch projectNameRegex l); [done|].
  destruct (scanBody_frame st l) as (_ & -> & -> & ->). by rewrite Hc.
Qed.

Lemma fold_outside_ctx lines : forall st,
  inContextSection st = false ->
  Forall (fun l => MatchString contextSectionRegex l = false) lines ->
  ctx (fold_left scanLine lines st) = ctx st.
Proof.
  induction lines as [|l lines IH]; intros st Hc H; [done|].
  apply List.Forall_cons_iff in H as [Hl H]. cbn [fold_left].
  pose proof (scanLine_outside_ctx st l Hc Hl) as E.
  rewrite IH; [done| |done]. unfold ctx in E. injection E as _ E _. congruence.
Qed.

Lemma scanLine_opens st l :
  opensContext l -> ctx (scanLine st l) = (context st, true, contextLines st).
Proof.
  intros [H1 H2]. unfold scanLine, titleOf in *.
  destruct (FindStringSubmatch projectNameRegex l); [done|]. by rewrite H2.
Qed.

Lemma fold_inside_ctx lines : forall st,
  inContextSection st = true ->
  Forall staysInContext lines ->
  ctx (fold_left scanLine lines st) = (context st, true, contextLines st ++ lines).
Proof.
  induction lines as [|l lines IH]; intros st Hc H.
  - cbn [fold_left]. unfold ctx. by rewrite Hc, List.app_nil_r.
  - apply List.Forall_cons_iff in H as [(H1 & H2 & H3) H]. cbn [fold_left].
    assert (ctx (scanLine st l) = (context st, true, contextLines st ++ [l])) as E.
    { unfold scanLine, titleOf in *.
      destruct (FindStringSubmatch projectNameRegex l); [done|]. by rewrite H2, Hc, H3. }
    unfold ctx in E. injection E as E1 E2 E3.
    rewrite IH by done. rewrite E1, E3. by rewrite <- List.app_assoc.
Qed.

Lemma scanLine_closes st l :
  inContextSection st = true -> closesContext l ->
  ctx (scanLine st l)
  = (Strings.TrimSpace (Strings.Join (contextLines st) Writer.nl), false, []).
Proof.
  intros Hc (H1 & H2 & H3). unfold scanLine, titleOf in *.
  destruct (FindStringSubmatch projectNameRegex l); [done|]. rewrite H2, Hc, H3.
  unfold ctx.
  by destruct (scanBody_frame
                 (mkScan (projectName st)
                    (Strings.TrimSpace (Strings.Join (contextLines st) (String Byte.LF EmptyString)))
                    (steps st) (stepNumber st) (notesMap st) (currentNoteStep st)
                    (inNotesSection st) false []) l) as (_ & -> & -> & ->).
Qed.

(** A document with one context block, closed by a section. *)
Lemma context_block before hdr body closer after :
  Forall (fun l => MatchString contextSectionRegex l = false) before ->
  opensContext hdr -> Forall staysInContext body -> closesContext closer ->
  Forall (fun l => MatchString contextSectionRegex l = false) after ->
  context (scanAll (before ++ hdr :: body ++ closer :: after))
  = Strings.TrimSpace (Strings.Join body Writer.nl).
Proof.
  intros Hb Hh Hy Hc Ha. unfold scanAll.
  rewrite fold_left_app. cbn [fold_left]. rewrite fold_left_app. cbn [fold_left].
  set (st1 := fold_left scanLine before scan0).
  assert (ctx st1 = ctx scan0) as E1 by (by apply fold_outside_ctx).
  set (st2 := scanLine st1 hdr).
  assert (ctx st2 = (EmptyString, true, [])) as E2.
  { unfold st2. rewrite scanLine_opens by done. unfold ctx in E1. by injection E1 as -> _ ->. }
  set (st3 := fold_left scanLine body st2).
  assert (ctx st3 = (EmptyString, true, body)) as E3.
  { unfold st3. unfold ctx in E2. injection E2 as E21 E22 E23.
    rewrite fold_inside_ctx by done. by rewrite E21, E23. }
  set (st4 := scanLine st3 closer).
  assert (ctx st4 = (Strings.TrimSpace (Strings.Join body Writer.nl), false, [])) as E4.
  { unfold st4. unfold ctx in E3. injection E3 as E31 E32 E33.
    rewrite scanLine_closes by done. by rewrite E33. }
  unfold ctx in E4. injection E4 as E41 E42 E43.
  pose proof (fold_outside_ctx after st4 E42 Ha) as E5.
  unfold ctx in E5. injection E5 as -> _ _. done.
Qed.

(** A document whose context block no section closes. *)
Lemma context_unclosed lines :
  Forall (fun l => titleOf l <> None \/ MatchString contextSectionRegex l = true
                   \/ MatchString sectionHeaderRegex l = false) lines ->
  context (scanAll lines) = EmptyString.
Proof.
  intros H. unfold scanAll.
  assert (forall st, context (fold_left scanLine lines st) = context st) as HF.
  { induction H as [|l lines Hl _ IH]; intros st; [done|].
    cbn [fold_left]. rewrite IH. unfold scanLine, titleOf in *.
    destruct (FindStringSubmatch projectNameRegex l); [done|].
    destruct (MatchString contextSectionRegex l); [done|].
    destruct (inContextSection st); [|apply scanBody_frame].
    destruct Hl as [Hl|[Hl|Hl]]; [done|done|]. by rewrite Hl. }
  by rewrite HF.
Qed.

End ContextFacts.

(** ** The title and the context of a plan written anew *)

Module RenderContext.

Import Spec StringFacts LineFacts RegexpFacts Regexp Plan Parser Render.
Import RenderFacts RenderScan ContextFacts.

#[local] Arguments Byte.eqb : simpl never.

(** *** Trimming around newlines and blanks *)

Lemma trimLeft_spaces w g :
  allIn Byte.reSpace w = true -> Strings.trimLeft (w +:+ g) = Strings.trimLeft g.
Proof.
  induction w as [|c w IH]; [done|]. cbn [allIn]. intros H.
  apply andb_true_iff in H as [Hc Hw]. cbn [String.append Strings.trimLeft].
  rewrite (reSpace_asciiSpace c Hc). auto.
Qed.

Lemma isSpace2_LF a : Strings.isSpace2 a Byte.LF = false.
Proof.
  unfold Strings.isSpace2. cbv zeta.
  destruct (Byte.code a =? 194)%N; reflexivity.
Qed.

Lemma isSpace3_LF a b : Strings.isSpace3 a b Byte.LF = false.
Proof.
  unfold Strings.isSpace3. cbv zeta.
  destruct (Byte.code a =? 225)%N, (Byte.code a =? 226)%N, (Byte.code a =? 227)%N,
           (Byte.code b =? 154)%N, (Byte.code b =? 128)%N, (Byte.code b =? 129)%N;
    reflexivity.
Qed.

Lemma trimLeft_snoc_aux n : forall x, (String.length x <= n)%nat ->
  Strings.trimLeft (x +:+ Writer.nl)
  = match Strings.trimLeft x with
    | EmptyString => EmptyString
    | String c t => String c t +:+ Writer.nl
    end.
Proof.
  induction n as [|n IH]; intros x Hn.
  - destruct x; [done|simpl in Hn; lia].
  - destruct x as [|a t]; [done|]. simpl in Hn.
    cbn [String.append Strings.trimLeft].
    destruct (Byte.asciiSpace a) eqn:Ea; [apply IH; lia|].
    destruct t as [|b u].
    { change Writer.nl with (String Byte.LF EmptyString). cbn [String.append].
      by rewrite isSpace2_LF. }
    simpl in Hn. cbn [String.append].
    destruct (Strings.isSpace2 a b); [apply IH; lia|].
    destruct u as [|c v].
    { change Writer.nl with (String Byte.LF EmptyString). cbn [String.append].
      by rewrite isSpace3_LF. }
    simpl in Hn. cbn [String.append].
    destruct (Strings.isSpace3 a b c); [apply IH; lia|done].
Qed.

Lemma TrimSpace_snoc x : Strings.TrimSpace (x +:+ Writer.nl) = Strings.TrimSpace x.
Proof.
  unfold Strings.TrimSpace. rewrite (trimLeft_snoc_aux _ x (le_n _)).
  destruct (Strings.trimLeft x) as [|c t]; [done|].
  unfold Strings.trimRight. by rewrite rev_app.
Qed.

(** The context between the two blank lines that [WriteFile] puts
    around it. *)
Lemma TrimSpace_framed x :
  Strings.TrimSpace
    (Strings.Join (EmptyString :: Strings.Split x Byte.LF ++ [EmptyString]) Writer.nl)
  = Strings.TrimSpace x.
Proof.
  change (EmptyString :: Strings.Split x Byte.LF ++ [EmptyString])
    with ((EmptyString :: Strings.Split x Byte.LF) ++ [EmptyString]).
  rewrite PatchLines.Join_app by done.
  destruct (Strings.Split x Byte.LF) as [|l ls] eqn:E; [by apply Split_nonempty in E|].
  rewrite Join_cons, <- E, Join_Split.
  cbn [Strings.Join]. rewrite app_nil_r.
  change (EmptyString +:+ Writer.nl +:+ x) with (String Byte.LF x).
  rewrite (TrimSpace_snoc (String Byte.LF x)). reflexivity.
Qed.

(** *** The title line *)

Lemma title_capture name :
  oneLine name ->
  match titleOf ("# Project: " +:+ name) with Some t => t | None => EmptyString end
  = Strings.TrimSpace name.
Proof.
  intros Hn. unfold titleOf.
  destruct (FindStringSubmatch projectNameRegex _) as [m|] eqn:Hm.
  - apply Find_sound in Hm as (a & b & Heq & H).
    unfold projectNameRegex in H. cbn [den] in H.
    destruct H as (a1 & a2 & cs1 & -> & [-> ->] & H).
    destruct H as (w1 & a3 & cs2 & -> & (N1 & A1 & ->) & H).
    destruct H as (a4 & a5 & cs3 & -> & [-> ->] & H).
    destruct H as (w2 & a6 & cs4 & -> & (N2 & A2 & ->) & H).
    destruct H as (g & a7 & cs5 & -> & (cs6 & (Ng & Ag & ->) & ->) & (-> & -> & ->)).
    rewrite !app_nil_r in Heq.
    destruct w1 as [|c1 [|d1 t1]]; [done| |]; cbn [String.append allIn] in Heq, A1.
    2: { injection Heq as ? ? ?; subst. vm_compute in A1. discriminate. }
    destruct w2 as [|c2 w2]; [done|]. cbn [String.append allIn] in Heq, A2.
    apply andb_true_iff in A2 as [_ A2].
    injection Heq as _ _ ->.
    unfold Strings.TrimSpace. by rewrite trimLeft_spaces.
  - destruct name as [|c name]; [done|]. exfalso.
    assert (is_Some (FindStringSubmatch projectNameRegex
                       (("# Project: " +:+ String c name) +:+ EmptyString))) as Hs.
    { eapply (Find_complete _ _ _ [] [(1%nat, String c name)]).
      unfold projectNameRegex. cbn [den].
      exists "#", (" Project: " +:+ String c name), []. do 2 (split; [done|]).
      exists " ", ("Project: " +:+ String c name), []. do 2 (split; [done|]).
      exists "Project:", (" " +:+ String c name), []. do 2 (split; [done|]).
      exists " ", (String c name), []. do 2 (split; [done|]).
      exists (String c name), EmptyString, [(1%nat, String c name)].
      split; [by rewrite app_nil_r|]. split; [|done].
      exists []. split; [|done]. split; [done|]. split; [|done].
      by apply CheckboxFacts.oneLine_allDot. }
    rewrite app_nil_r, Hm in Hs. by destruct Hs.
Qed.

(** *** The lines that are neither a title nor a context header *)

Definition quiet (l : string) : Prop :=
  titleOf l = None /\ MatchString contextSectionRegex l = false.

Lemma quiet_stepLine s : quiet (stepLine s).
Proof.
  unfold quiet, titleOf, stepLine.
  split; [by kill projectNameRegex|by killm contextSectionRegex].
Qed.

Lemma quiet_blockOf s : Forall quiet (blockOf s).
Proof.
  unfold blockOf, quiet, titleOf.
  repeat (apply List.Forall_cons;
          [split; [by kill projectNameRegex|by killm contextSectionRegex]|]).
  apply List.Forall_nil.
Qed.

Lemma quiet_rest steps :
  Forall quiet (EmptyString :: map stepLine steps
                  ++ EmptyString :: "## Notes" :: concat (map blockOf steps)).
Proof.
  apply List.Forall_cons; [done|]. apply Forall_app. split.
  - apply List.Forall_map, List.Forall_forall. intros s _. apply quiet_stepLine.
  - do 2 (apply List.Forall_cons; [done|]).
    apply Forall_concat, List.Forall_map, List.Forall_forall.
    intros s _. apply quiet_blockOf.
Qed.

Lemma fold_quiet ls : forall acc,
  Forall (fun l => titleOf l = None) ls ->
  fold_left (fun acc l => match titleOf l with Some t => t | None => acc end) ls acc = acc.
Proof.
  induction ls as [|l ls IH]; intros acc H; [done|].
  apply List.Forall_cons_iff in H as [Hl H]. cbn [fold_left]. by rewrite Hl, IH.
Qed.

Lemma plain_lines c :
  plainContext c ->
  map Bufio.dropCR (Strings.Split c Byte.LF) = Strings.Split c Byte.LF
  /\ Forall staysInContext (Strings.Split c Byte.LF).
Proof.
  unfold plainContext. induction 1 as [|l ls [H1 H2] _ [IH1 IH2]]; [done|].
  cbn [map]. rewrite IH1, (endsWithCR_dropCR l H2). by split; [|constructor].
Qed.

(** What [Parse] reads as the title and the context in the text that
    [WriteFile] writes. *)
Lemma Parse_WriteFile_context tp p :
  wellWritten tp p -> linesFit (WriteFile p) -> plainContext (Context p) ->
  exists p', Parse tp (WriteFile p) = Some p'
             /\ ProjectName p' = Strings.TrimSpace (ProjectName p)
             /\ Context p' = Strings.TrimSpace (Context p).
Proof.
  intros (Hn1 & Hn2 & Hctx & Hnum & Hlen & Hclean) Hfit Hpl.
  destruct (plain_lines _ Hpl) as [Hid Hstay].
  unfold Parse. rewrite (StepLineFacts.linesFit_no_error _ Hfit).
  eexists. split; [reflexivity|].
  unfold finish. cbn [ProjectName Context].
  rewrite (Lines_WriteFile tp p Hn1 Hn2 Hclean).
  pose proof (quiet_rest (Steps p)) as HQ.
  assert (Forall (fun l => titleOf l = None)
                 (EmptyString :: map stepLine (Steps p)
                    ++ EmptyString :: "## Notes" :: concat (map blockOf (Steps p)))) as HQ1.
  { eapply List.Forall_impl; [|exact HQ]. by intros l [? _]. }
  assert (Forall (fun l => MatchString contextSectionRegex l = false)
                 (EmptyString :: map stepLine (Steps p)
                    ++ EmptyString :: "## Notes" :: concat (map blockOf (Steps p)))) as HQ2.
  { eapply List.Forall_impl; [|exact HQ]. by intros l [_ ?]. }
  assert (MatchString contextSectionRegex ("# Project: " +:+ ProjectName p) = false) as Ht.
  { by killm contextSectionRegex. }
  split.
  - unfold scanAll. rewrite fold_title. unfold linesWith. cbn [fold_left projectName scan0].
    rewrite fold_quiet; [by apply title_capture|].
    apply Forall_app. split.
    + unfold contextPart. destruct (negb _); [|done]. cbn [map]. rewrite map_app, Hid.
      do 2 (apply List.Forall_cons; [done|]). apply Forall_app. split.
      * eapply List.Forall_impl; [|exact Hstay]. by intros l [? _].
      * by repeat constructor.
    + by apply List.Forall_cons.
  - unfold linesWith, contextPart.
    destruct (String.eqb (Context p) EmptyString) eqn:E; cbn [negb map app].
    + apply String.eqb_eq in E. rewrite E.
      assert (Forall (fun l => MatchString contextSectionRegex l = false)
                (("# Project: " +:+ ProjectName p) :: EmptyString :: "## Plan"
                   :: EmptyString :: map stepLine (Steps p)
                   ++ EmptyString :: "## Notes" :: concat (map blockOf (Steps p)))) as HA.
      { by do 3 (apply List.Forall_cons; [done|]). }
      pose proof (fold_outside_ctx _ scan0 eq_refl HA) as HF.
      apply (f_equal (fun x => fst (fst x))) in HF. exact HF.
    + rewrite map_app, Hid. cbn [map].
      rewrite <- (TrimSpace_framed (Context p)).
      apply (context_block [("# Project: " +:+ ProjectName p); EmptyString]
               "## Context"
               (EmptyString :: Strings.Split (Context p) Byte.LF ++ [EmptyString])
               "## Plan"
               (EmptyString :: map stepLine (Steps p)
                  ++ EmptyString :: "## Notes" :: concat (map blockOf (Steps p)))).
      * by do 2 (apply List.Forall_cons; [done|]).
      * done.
      * apply List.Forall_cons; [done|]. apply Forall_app. split; [done|].
        by repeat constructor.
      * done.
      * done.
Qed.

End RenderContext.

(* ===================================================================== *)
(** * Part III: the properties of the specification *)
(* ===================================================================== *)

(** ** Result evaluation *)

(** C5. A transcript in which no line contains the success sentinel
    [STEP_COMPLETE] (so none equals it either) and no line contains the
    failure tag [STEP_FAILED:] evaluates to failure, with the one fixed
    diagnostic reason and the whole transcript as the output of the
    result. *)
Theorem no_sentinel_is_failure (output : string) :
  Forall (fun l => Strings.Contains l "STEP_COMPLETE" = false
                   /\ Strings.Contains l "STEP_FAILED:" = false)
         (Strings.Split output Byte.LF) ->
  Prompt.ParseResult output =
    Plan.mkResult false output
                  "No STEP_COMPLETE or STEP_FAILED marker found in output"
                  EmptyString 0.
Proof.
  intros H. unfold Prompt.ParseResult.
  rewrite <- (app_nil_r (rev _)), PromptFacts.scanMarkers_skip; [done|].
  eapply Forall_impl; [exact H|]. intros l [H1 H2].
  unfold PromptFacts.carriesSentinel. by rewrite H1, H2.
Qed.

Lemma no_sentinel_is_failure_witness :
  Plan.Success (Prompt.ParseResult "compiling...
done, all tests pass") = false.
Proof.
  rewrite (no_sentinel_is_failure "compiling...
done, all tests pass"); [reflexivity|].
  change (Strings.Split _ _) with ["compiling..."; "done, all tests pass"].
  repeat (apply List.Forall_cons; [split; vm_compute; reflexivity|]).
  apply List.Forall_nil.
Defined.


(** The same when a third line follows: the last sentinel decides. *)
Example later_success_then_failure :
  Plan.Success (Prompt.ParseResult "STEP_FAILED: x
STEP_COMPLETE
STEP_FAILED: y") = false.
Proof. vm_compute. reflexivity. Qed.



(** ** The parser *)

(** C6 as it is worded fails: [Parse] reads the text with a line reader
    whose buffer is bounded, and returns the reader's error for a line
    of 65536 bytes. *)
Lemma long_line_is_an_error :
  Parser.Parse (fun _ => None) Spec.longLine = None.
Proof. vm_compute. reflexivity. Qed.

(** C6, amended. For every input text whose lines are all shorter than
    65536 bytes, [Parse] returns a Plan and no error, whatever the lines
    hold; a line that matches no pattern only joins the open context
    block or, when it begins with '#', closes the open annotation
    block, and is otherwise skipped. *)
Theorem Parse_total_on_short_lines
        (time_Parse : string -> option Time.t) (content : string) :
  Spec.linesFit content ->
  (exists p, Parser.Parse time_Parse content = Some p
             /\ Plan.RawContent p = content)
  /\ (forall st l, Spec.unrecognized l -> Parser.scanLine st l = Spec.skipped st l).
Proof.
  intros H. split.
  - unfold Parser.Parse. rewrite (StepLineFacts.linesFit_no_error _ H). eauto.
  - intros st l. apply StepLineFacts.scanLine_unrecognized.
Qed.

Lemma Parse_total_on_short_lines_witness :
  exists p, Parser.Parse (fun _ => None)
              (Spec.text ["# Project: Demo"; "%%% not a plan line %%%";
                          "- [ ] Step 1: first"; "<html>"]) = Some p
            /\ length (Plan.Steps p) = 1%nat.
Proof.
  destruct (Parse_total_on_short_lines (fun _ => None)
              (Spec.text ["# Project: Demo"; "%%% not a plan line %%%";
                          "- [ ] Step 1: first"; "<html>"]))
    as [(p & Hp & _) _].
  - unfold Spec.linesFit.
    change (Strings.Split _ _)
      with ["# Project: Demo"; "%%% not a plan line %%%";
            "- [ ] Step 1: first"; "<html>"].
    repeat (apply List.Forall_cons; [vm_compute; reflexivity|]).
    apply List.Forall_nil.
  - exists p. split; [exact Hp|].
    vm_compute in Hp. injection Hp as <-. reflexivity.
Defined.

(** C9 as it is worded fails: a line of the checkbox grammar inside the
    context block is context, not a step. *)
Lemma checkbox_line_in_context_is_no_step :
  exists p, Parser.Parse (fun _ => None)
              (Spec.text ["## Context"; "The list so far:"; "- [ ] Step 1: draft"])
            = Some p
            /\ Plan.Steps p = []
            /\ length (filter ParserFacts.isStep
                         (Bufio.Lines
                            (Spec.text ["## Context"; "The list so far:";
                                        "- [ ] Step 1: draft"]))) = 1%nat.
Proof. eexists. split; [vm_compute; reflexivity|]. split; vm_compute; reflexivity. Qed.

(** C9, amended. For every input text that [Parse] accepts, the steps of
    the Plan are numbered exactly 1..N in document order, where N is the
    number of checkbox lines outside the context block: the step at
    position [k] (from 0) has number [k + 1] and is read from the
    [k]-th such line, whatever ["Step <n>:"] label that line carries. *)
Theorem steps_numbered_by_position
        (time_Parse : string -> option Time.t) (content : string) (p : Plan.Plan) :
  Parser.Parse time_Parse content = Some p ->
  map Plan.Number (Plan.Steps p)
  = map Z.of_nat (seq 1 (length (Spec.checkboxLines content)))
  /\ forall k s, Plan.Steps p !! k = Some s ->
       Plan.Number s = Z.of_nat k + 1
       /\ exists l m,
            Spec.checkboxLines content !! k = Some l
            /\ Regexp.FindStringSubmatch Parser.stepLineRegex l = Some m
            /\ Plan.Description s = Strings.TrimSpace (Regexp.group m 3)
            /\ Plan.Status s = Parser.parseCheckbox (Regexp.group m 1).
Proof.
  intros H. apply ParserFacts.Parse_steps in H. rewrite H. split.
  - rewrite List.map_map.
    erewrite List.map_ext; [apply ParserFacts.numbered_numbers|].
    intros s. apply ParserFacts.applyNotes_fields.
  - intros k s Hk. rewrite list_lookup_fmap in Hk.
    destruct (ParserFacts.numbered 0 (Spec.checkboxLines content) !! k) as [s0|] eqn:E;
      [|done].
    injection Hk as <-.
    apply ParserFacts.numbered_lookup in E as (l & Hl & ->).
    destruct (ParserFacts.applyNotes_fields time_Parse
                (Parser.notesMap (Parser.scanAll (Bufio.Lines content)))
                (ParserFacts.stepOf (0 + Z.of_nat k + 1) l)) as (-> & -> & ->).
    assert (ParserFacts.isStep l) as Hstep.
    { apply list_elem_of_lookup_2 in Hl. unfold Spec.checkboxLines in Hl.
      by apply list_elem_of_filter in Hl as [? _]. }
    apply RegexpFacts.Match_Find in Hstep as [m Hm].
    unfold ParserFacts.stepOf. rewrite Hm. simpl. split; [lia|].
    exists l, m. done.
Qed.

Lemma steps_numbered_by_position_witness :
  exists p, Parser.Parse (fun _ => None)
              (Spec.text ["- [x] Step 7: seventh"; "- [ ] unlabelled"; "- [!] Step 7: again"])
            = Some p
            /\ map Plan.Number (Plan.Steps p) = [1; 2; 3].
Proof.
  eexists. split; [vm_compute; reflexivity|].
  rewrite (proj1 (steps_numbered_by_position (fun _ => None)
             (Spec.text ["- [x] Step 7: seventh"; "- [ ] unlabelled"; "- [!] Step 7: again"])
             _ ltac:(vm_compute; reflexivity))).
  vm_compute. reflexivity.
Defined.

(** C10 as it is worded fails: the value of a [**Status**:] field
    decides whether there is a plan at all. Two documents that differ
    only in the value of one [**Status**:] field, the second value
    being 65536 word bytes: [Parse] reads the first, whose step is
    completed, and returns the error of the line reader for the
    second, so the second has no plan and no statuses to compare. *)
Lemma status_value_can_stop_the_parse :
  let a := ["- [x] Step 1: a"; "### Step 1"; "**Status**: pending"] in
  let b := ["- [x] Step 1: a"; "### Step 1"; "**Status**: " +:+ Spec.longLine] in
  Forall2 Spec.sameButStatus a b
  /\ (exists p, Parser.Parse (fun _ => None) (Spec.text a) = Some p
                /\ map Plan.Status (Plan.Steps p) = [Plan.StatusCompleted])
  /\ Parser.Parse (fun _ => None) (Spec.text b) = None.
Proof.
  cbv zeta. split; [|split].
  - apply List.Forall2_cons; [left; reflexivity|].
    apply List.Forall2_cons; [left; reflexivity|].
    apply List.Forall2_cons; [right; split; vm_compute; reflexivity|].
    apply List.Forall2_nil.
  - eexists. split; vm_compute; reflexivity.
  - vm_compute. reflexivity.
Qed.

(** C10, amended. For every input text that [Parse] accepts, the status
    of each step is the reading of the marker between the brackets of
    its checkbox line (space: pending, x: completed, !: failed, -:
    skipped); the [**Status**:] fields are read but decide no status:
    two documents that [Parse] accepts and that differ only in the
    values of [**Status**:] fields parse to plans whose steps have the
    same statuses. *)
Theorem status_from_checkbox_only
        (time_Parse : string -> option Time.t) (content : string) (p : Plan.Plan) :
  Parser.Parse time_Parse content = Some p ->
  Forall2 (fun s l =>
             exists ws c rest,
               l = "-" +:+ ws +:+ "[" +:+ String c ("]" +:+ rest)
               /\ RegexpFacts.allIn Byte.reSpace ws = true
               /\ Regexp.oneOf " x!-" c = true
               /\ Plan.Status s = Spec.markerStatus c)
          (Plan.Steps p) (Spec.checkboxLines content)
  /\ forall content' p',
       Forall2 Spec.sameButStatus (Bufio.Lines content) (Bufio.Lines content') ->
       Parser.Parse time_Parse content' = Some p' ->
       map Plan.Status (Plan.Steps p) = map Plan.Status (Plan.Steps p').
Proof.
  intros H. apply ParserFacts.Parse_steps in H. split.
  - rewrite H. apply StepLineFacts.numbered_Forall2. intros k l Hl.
    assert (ParserFacts.isStep l) as Hstep.
    { apply list_elem_of_In in Hl. unfold Spec.checkboxLines in Hl.
      by apply list_elem_of_filter in Hl as [? _]. }
    apply RegexpFacts.Match_Find in Hstep as [m Hm].
    destruct (StepLineFacts.stepLine_shape l m Hm) as (ws & c & rest & -> & _ & Hws & Hc & Hg).
    exists ws, c, rest. repeat split; try done.
    destruct (ParserFacts.applyNotes_fields time_Parse
                (Parser.notesMap (Parser.scanAll (Bufio.Lines content)))
                (ParserFacts.stepOf k ("-" +:+ ws +:+ "[" +:+ String c ("]" +:+ rest))))
      as (_ & _ & ->).
    unfold ParserFacts.stepOf. rewrite Hm. simpl. rewrite Hg.
    by apply StepLineFacts.parseCheckbox_marker.
  - intros content' p' Hrel H'. apply ParserFacts.Parse_steps in H'.
    rewrite H, H', !List.map_map. unfold Spec.checkboxLines.
    change (fun l => Regexp.MatchString Parser.stepLineRegex l = true)
      with ParserFacts.isStep.
    rewrite (StepLineFacts.outside_checkboxes_same _ _ false Hrel).
    generalize (filter ParserFacts.isStep
                  (Spec.outsideContext false (Bufio.Lines content'))).
    intros ls. generalize 0. induction ls as [|l ls IH]; intros n; [done|].
    simpl. f_equal; [|apply IH].
    destruct (ParserFacts.applyNotes_fields time_Parse
                (Parser.notesMap (Parser.scanAll (Bufio.Lines content)))
                (ParserFacts.stepOf (n + 1) l)) as (_ & _ & ->).
    destruct (ParserFacts.applyNotes_fields time_Parse
                (Parser.notesMap (Parser.scanAll (Bufio.Lines content')))
                (ParserFacts.stepOf (n + 1) l)) as (_ & _ & ->).
    done.
Qed.

Lemma status_from_checkbox_only_witness :
  exists p p',
    Parser.Parse (fun _ => None)
      (Spec.text ["- [x] Step 1: a"; "### Step 1"; "**Status**: pending"]) = Some p
    /\ Parser.Parse (fun _ => None)
         (Spec.text ["- [x] Step 1: a"; "### Step 1"; "**Status**: failed"]) = Some p'
    /\ map Plan.Status (Plan.Steps p) = map Plan.Status (Plan.Steps p')
    /\ map Plan.Status (Plan.Steps p) = [Plan.StatusCompleted].
Proof.
  eexists. eexists.
  split; [vm_compute; reflexivity|].
  split; [vm_compute; reflexivity|].
  split; [|vm_compute; reflexivity].
  refine (proj2 (status_from_checkbox_only (fun _ => None)
                   (Spec.text ["- [x] Step 1: a"; "### Step 1"; "**Status**: pending"])
                   _ _)
                (Spec.text ["- [x] Step 1: a"; "### Step 1"; "**Status**: failed"])
                _ _ _).
  - vm_compute. reflexivity.
  - change (Bufio.Lines (Spec.text ["- [x] Step 1: a"; "### Step 1"; "**Status**: pending"]))
      with ["- [x] Step 1: a"; "### Step 1"; "**Status**: pending"].
    change (Bufio.Lines (Spec.text ["- [x] Step 1: a"; "### Step 1"; "**Status**: failed"]))
      with ["- [x] Step 1: a"; "### Step 1"; "**Status**: failed"].
    apply List.Forall2_cons; [left; reflexivity|].
    apply List.Forall2_cons; [left; reflexivity|].
    apply List.Forall2_cons; [right; split; vm_compute; reflexivity|].
    apply List.Forall2_nil.
  - vm_compute. reflexivity.
Defined.

(** ** The retry policy *)

(** C8 as it is worded fails: the delay is a whole number of
    nanoseconds, truncated after every multiplication. With a delay of
    5 s and a factor of 1.5 the eleventh attempt waits 288325195312 ns,
    not 5 s * 1.5 ^ 10 = 288325195312.5 ns. *)
Lemma truncation_breaks_the_power_formula :
  let config := Loop.mkConfig (30 * Loop.Minute) 3 (5 * Loop.Second) Spec.oneAndHalf in
  Loop.calculateBackoff config 11 = Some 288325195312
  /\ ~ (inject_Z 288325195312 == Spec.exactDelay config 11)%Q.
Proof.
  split; [vm_compute; reflexivity|].
  intros H. vm_compute in H. discriminate H.
Qed.

(** C8, amended. For every retryCount >= 1 the delay is obtained from
    retryDelay in retryCount - 1 steps, each of which multiplies by
    backoffFactor in float64 and truncates the product to whole
    nanoseconds. With backoffFactor = 2.0 the delay equals
    retryDelay * backoffFactor ^ (retryCount - 1) whenever retryDelay is
    not negative and that product is below 2^53 ns; with the defaults
    retryDelay = 5 s and backoffFactor = 2.0, retryCount = 3 yields
    exactly 20 seconds. *)
Theorem backoff_delay (config : Loop.Config) (retryCount : Z) :
  1 <= retryCount ->
  Loop.calculateBackoff config 1 = Some (Loop.RetryDelay config)
  /\ Loop.calculateBackoff config (retryCount + 1)
     = match Loop.calculateBackoff config retryCount with
       | Some delay => Loop.scale (Loop.BackoffFactor config) delay
       | None => None
       end
  /\ (Loop.BackoffFactor config = Loop.two ->
      0 <= Loop.RetryDelay config ->
      Loop.RetryDelay config * 2 ^ (retryCount - 1) < 2 ^ 53 ->
      exists delay,
        Loop.calculateBackoff config retryCount = Some delay
        /\ (inject_Z delay == Spec.exactDelay config retryCount)%Q)
  /\ Loop.calculateBackoff Loop.DefaultConfig 3 = Some (20 * Loop.Second).
Proof.
  intros Hc. split; [reflexivity|]. split; [|split; [|vm_compute; reflexivity]].
  - unfold Loop.calculateBackoff.
    replace (Z.to_nat (retryCount + 1 - 1)) with (S (Z.to_nat (retryCount - 1))) by lia.
    apply LoopFacts.backoffLoop_last.
  - intros Hf H0 Hlt. exists (Loop.RetryDelay config * 2 ^ (retryCount - 1)). split.
    + unfold Loop.calculateBackoff. rewrite Hf, LoopFacts.backoffLoop_two.
      * by rewrite Z2Nat.id by lia.
      * done.
      * by rewrite Z2Nat.id by lia.
    + unfold Spec.exactDelay. rewrite Hf, inject_Z_mult, Zpower_Qpower by lia.
      apply Qmult_comp; [reflexivity|].
      apply Qpower_comp; [|reflexivity]. symmetry. apply LoopFacts.floatValue_two.
Qed.

Lemma backoff_delay_witness :
  exists delay,
    Loop.calculateBackoff Loop.DefaultConfig 3 = Some delay
    /\ (inject_Z delay == Spec.exactDelay Loop.DefaultConfig 3)%Q.
Proof.
  destruct (backoff_delay Loop.DefaultConfig 3) as (_ & _ & H & _); [lia|].
  apply H; [reflexivity|vm_compute; discriminate|vm_compute; reflexivity].
Defined.

(** ** The orchestration loop and the writer *)

(** The writer reads neither the status override nor the retry count of
    the result it is given. *)
Lemma writer_ignores_status_and_retry_count
      (content : string) (stepNum : Z) (result : Plan.StepResult) (now : Time.t)
      (status : Plan.StepStatus) (retryCount : Z) :
  Writer.updateStepInContent content stepNum result now
  = Writer.updateStepInContent content stepNum
      (Plan.mkResult (Plan.Success result) (Plan.Output result) (Plan.Reason result)
                     status retryCount)
      now.
Proof. by apply WriterInputs.updateStepInContent_same. Qed.

(** A turn on a step that has used up its retries neither waits nor
    invokes the agent. *)
Lemma exhausted_step_is_not_run
      (time_Parse : string -> option Time.t) (Duration_String : Z -> string)
      (config : Loop.Config) (env : Loop.Env) (content : string)
      (p : Plan.Plan) (step : Plan.Step) :
  Parser.Parse time_Parse content = Some p ->
  Plan.NextStep p = Some step ->
  Loop.MaxRetries config <= Plan.RetryCount step ->
  let '(_, events, _) := Loop.turn time_Parse Duration_String config env content in
  forallb (fun e => negb (Spec.isInvoke e) && negb (Spec.isWait e)) events = true.
Proof.
  intros HP HN Hmax. unfold Loop.turn.
  destruct (Loop.cancelledAtTop env); [done|].
  rewrite HP, HN. apply Z.leb_le in Hmax. rewrite Hmax.
  unfold Loop.persist. by destruct (Loop.UpdateStep _ _ _ _).
Qed.

(** C2 on the code: the step that has used up its three retries is
    written back with the failed marker and status "failed"; the reason
    of the skip goes to the notes and the step is read back as failed,
    not skipped. *)
Theorem exhausted_step_is_written_failed :
  exists content' p',
    Loop.turn (fun _ => None) (fun _ => EmptyString) Loop.DefaultConfig
              Spec.failingAgent Spec.exhaustedPlan
    = (content', [Loop.WriteFile content'], Loop.Continue)
    /\ content'
       = Spec.text ["# Project: Demo"; EmptyString; "## Plan"; EmptyString;
                    "- [!] Step 1: build"; EmptyString; "## Notes"; EmptyString;
                    "### Step 1"; "**Status**: failed";
                    "**Last Run**: 2026-01-17 10:30:00";
                    "**Notes**: Failed: Skipped after 3 failed attempts";
                    "**Retries**: 3"]
    /\ Parser.Parse (fun _ => None) content' = Some p'
    /\ map Plan.Status (Plan.Steps p') = [Plan.StatusFailed]
    /\ Plan.NextStep p' <> None.
Proof.
  eexists. eexists.
  split; [vm_compute; reflexivity|].
  split; [vm_compute; reflexivity|].
  split; [vm_compute; reflexivity|].
  split; [vm_compute; reflexivity|].
  vm_compute. discriminate.
Qed.

(** C3 on the code: after a failed attempt on a step with one retry on
    record the document still says one retry, although the result
    handed to the writer carried two. *)
Theorem failed_attempt_keeps_retry_count :
  exists p content' events p',
    Parser.Parse (fun _ => None) Spec.retriedPlan = Some p
    /\ map Plan.RetryCount (Plan.Steps p) = [1]
    /\ Loop.turn (fun _ => None) (fun _ => EmptyString) Loop.DefaultConfig
                 Spec.failingAgent Spec.retriedPlan
       = (content', events ++ [Loop.WriteFile content'], Loop.Continue)
    /\ existsb Spec.isInvoke events = true
    /\ Parser.Parse (fun _ => None) content' = Some p'
    /\ map Plan.Status (Plan.Steps p') = [Plan.StatusFailed]
    /\ map Plan.RetryCount (Plan.Steps p') = [1].
Proof.
  eexists. eexists. exists
    [Loop.Wait (Some (5 * Loop.Second));
     Loop.Invoke (Prompt.Build
                    (Plan.mkPlan "Demo" EmptyString
                       [Plan.mkStep 1 "build" Plan.StatusFailed None "Failed: tests red" 1]
                       Spec.retriedPlan)
                    (Plan.mkStep 1 "build" Plan.StatusFailed None "Failed: tests red" 1))].
  eexists.
  split; [vm_compute; reflexivity|].
  split; [vm_compute; reflexivity|].
  split; [vm_compute; reflexivity|].
  split; [vm_compute; reflexivity|].
  split; [vm_compute; reflexivity|].
  split; vm_compute; reflexivity.
Qed.

(* ===================================================================== *)
(** * Part IV: further properties of the code *)
(* ===================================================================== *)

(** ** The plan, types.go *)

(** X1. A plan that [IsComplete] reports as complete has no next step:
    [NextStep] returns nil, so the loop of the runner ends. *)
Theorem complete_plan_has_no_next_step (p : Plan.Plan) :
  Plan.IsComplete p = true -> Plan.NextStep p = None.
Proof.
  unfold Plan.IsComplete, Plan.NextStep. intros H.
  apply andb_true_iff in H as [H _].
  apply PlanFacts.nextStep_None. rewrite forallb_forall in H.
  apply List.Forall_forall. intros s Hs. apply PlanFacts.closed_not_open. by apply H.
Qed.

Lemma complete_plan_has_no_next_step_witness :
  Plan.NextStep
    (Plan.mkPlan "Demo" EmptyString
       [Plan.mkStep 1 "a" Plan.StatusCompleted None EmptyString 0;
        Plan.mkStep 2 "b" Plan.StatusSkipped None EmptyString 3]
       EmptyString) = None.
Proof. apply complete_plan_has_no_next_step. vm_compute. reflexivity. Defined.

(** X2. The step that [NextStep] returns is a step of the plan whose
    status is pending or failed, and no step before it in the plan is
    pending or failed. *)
Theorem next_step_is_the_first_open_step (p : Plan.Plan) (s : Plan.Step) :
  Plan.NextStep p = Some s ->
  exists before after,
    Plan.Steps p = before ++ s :: after
    /\ (Plan.Status s = Plan.StatusPending \/ Plan.Status s = Plan.StatusFailed)
    /\ Forall (fun x => Plan.Status x <> Plan.StatusPending
                        /\ Plan.Status x <> Plan.StatusFailed) before.
Proof.
  unfold Plan.NextStep. intros H.
  destruct (PlanFacts.nextStep_split _ _ H) as (b & a & E & Hs & Hb).
  exists b, a. split; [done|]. split.
  - unfold PlanFacts.isOpen in Hs. apply orb_true_iff in Hs as [Hs|Hs];
      apply String.eqb_eq in Hs; auto.
  - eapply List.Forall_impl; [|exact Hb]. intros x Hx. unfold PlanFacts.isOpen in Hx.
    apply orb_false_iff in Hx as [H1 H2]. by rewrite !String.eqb_neq in *.
Qed.

Lemma next_step_is_the_first_open_step_witness :
  exists before after,
    [Plan.mkStep 1 "a" Plan.StatusCompleted None EmptyString 0;
     Plan.mkStep 2 "b" Plan.StatusFailed None "x" 1;
     Plan.mkStep 3 "c" Plan.StatusPending None EmptyString 0]
    = before ++ Plan.mkStep 2 "b" Plan.StatusFailed None "x" 1 :: after
    /\ (Plan.StatusFailed = Plan.StatusPending \/ Plan.StatusFailed = Plan.StatusFailed)
    /\ Forall (fun x => Plan.Status x <> Plan.StatusPending
                        /\ Plan.Status x <> Plan.StatusFailed) before.
Proof.
  apply (next_step_is_the_first_open_step
           (Plan.mkPlan "Demo" EmptyString
              [Plan.mkStep 1 "a" Plan.StatusCompleted None EmptyString 0;
               Plan.mkStep 2 "b" Plan.StatusFailed None "x" 1;
               Plan.mkStep 3 "c" Plan.StatusPending None EmptyString 0]
              EmptyString)).
  vm_compute. reflexivity.
Defined.

(** ** The prompt and its evaluation, builder.go *)

(** X3. The prompt itself reads as a success report: for every plan
    and step, and whatever text comes before, a transcript that ends
    with the prompt evaluates to success, because the last instruction
    of the prompt mentions [STEP_COMPLETE]. *)
Theorem echoed_prompt_reads_as_success (before : string) (p : Plan.Plan) (step : Plan.Step) :
  Prompt.ParseResult (before +:+ Prompt.Build p step)
  = Plan.mkResult true (before +:+ Prompt.Build p step) EmptyString EmptyString 0.
Proof.
  destruct (BuildFacts.Build_closing p step) as [head ->].
  rewrite <- StringFacts.app_assoc. apply BuildFacts.ParseResult_closing.
Qed.

(** ** The writer, writer.go *)

(** X4. The summary that [summarizeOutput] makes of an output is a
    single line, is not empty, has at most 100 bytes, and does not
    begin with [STEP_]. *)
Theorem summary_is_a_short_line (output : string) :
  Spec.oneLine (Writer.summarizeOutput output)
  /\ Writer.summarizeOutput output <> EmptyString
  /\ Strings.len (Writer.summarizeOutput output) <= 100
  /\ Strings.HasPrefix (Writer.summarizeOutput output) "STEP_" = false.
Proof. apply SummaryFacts.summarizeOutput_summary. Qed.

(** X5. The summary is the last line of the trimmed output that is
    neither blank nor begins with [STEP_], trimmed, and cut to its
    first 97 bytes followed by three dots when it has more than 100
    bytes. *)
Theorem summary_is_the_last_meaningful_line (output : string)
        (before after : list string) (l : string) :
  Strings.Split (Strings.TrimSpace output) Byte.LF = before ++ l :: after ->
  Spec.meaningful l = true ->
  Forall (fun x => Spec.meaningful x = false) after ->
  Writer.summarizeOutput output = Spec.truncated (Strings.TrimSpace l).
Proof.
  intros E Hl Ha. unfold Writer.summarizeOutput. rewrite E.
  rewrite SummaryFacts.nonempty_lines by (by destruct before).
  rewrite rev_app_distr. cbn [List.rev]. rewrite <- List.app_assoc.
  rewrite SummaryFacts.lastMeaningful_skip by done.
  cbn [app Writer.lastMeaningful]. unfold Spec.meaningful in Hl. by rewrite Hl.
Qed.

Lemma summary_is_the_last_meaningful_line_witness :
  Writer.summarizeOutput
    (Spec.text ["building"; "  all tests pass  "; "STEP_COMPLETE"; EmptyString])
  = "all tests pass".
Proof.
  apply (summary_is_the_last_meaningful_line
           (Spec.text ["building"; "  all tests pass  "; "STEP_COMPLETE"; EmptyString])
           ["building"] ["STEP_COMPLETE"] "  all tests pass  ").
  - vm_compute. reflexivity.
  - vm_compute. reflexivity.
  - repeat constructor.
Defined.

(** X6. When every line of the trimmed output is blank or begins with
    [STEP_] (an empty output is such an output), the summary is the
    text [Completed successfully]; the branch of [summarizeOutput]
    that returns [(no output)] is never taken, because
    [strings.Split] returns at least one piece. *)
Theorem summary_without_meaningful_line (output : string) :
  Forall (fun x => Spec.meaningful x = false)
         (Strings.Split (Strings.TrimSpace output) Byte.LF) ->
  Writer.summarizeOutput output = "Completed successfully".
Proof.
  intros H. unfold Writer.summarizeOutput.
  rewrite SummaryFacts.nonempty_lines by apply LineFacts.Split_nonempty.
  rewrite <- (List.app_nil_r (List.rev _)).
  by rewrite SummaryFacts.lastMeaningful_skip.
Qed.

Lemma summary_without_meaningful_line_witness :
  Writer.summarizeOutput (Spec.text [EmptyString; "STEP_COMPLETE"; "  "])
  = "Completed successfully".
Proof.
  apply summary_without_meaningful_line.
  change (Strings.Split
            (Strings.TrimSpace (Spec.text [EmptyString; "STEP_COMPLETE"; "  "])) Byte.LF)
    with ["STEP_COMPLETE"].
  repeat constructor.
Defined.

(** X7. [updateCheckbox] keeps a step line a step line. With the marker
    [x] or [!] the checkbox of the line then reads completed or failed,
    except that the checkbox [-] of a skipped step is left as it is. *)
Theorem checkbox_update_on_a_step_line (l : string) (m : Regexp.caps) (M : ascii) :
  Spec.oneLine l -> Regexp.oneOf " x!" M = true ->
  Regexp.FindStringSubmatch Parser.stepLineRegex l = Some m ->
  exists m',
    Regexp.FindStringSubmatch Parser.stepLineRegex
      (Writer.updateCheckbox l (String M EmptyString)) = Some m'
    /\ Parser.parseCheckbox (Regexp.group m' 1)
       = (if String.eqb (Parser.parseCheckbox (Regexp.group m 1)) Plan.StatusSkipped
          then Plan.StatusSkipped
          else Spec.markerStatus M).
Proof.
  intros Hl HM Hm.
  destruct (CheckboxFacts.updateCheckbox_stepLine l m M Hl HM Hm) as (m' & Hm' & Hg).
  exists m'. split; [done|]. rewrite Hg.
  destruct (StepLineFacts.stepLine_shape l m Hm) as (ws & c & rest & _ & _ & _ & Hc & ->).
  assert (Regexp.oneOf " x!-" M = true) as HM'.
  { unfold Regexp.oneOf in *. cbn [existsb] in *.
    repeat (apply orb_true_iff in HM as [HM|HM]; [rewrite HM; by rewrite ?orb_true_r|]).
    done. }
  rewrite (StepLineFacts.parseCheckbox_marker c Hc).
  unfold Regexp.oneOf in Hc.
  repeat (apply orb_true_iff in Hc as [Hc|Hc];
          [apply StringFacts.byte_eqb_eq in Hc as <-;
           first [reflexivity | by apply StepLineFacts.parseCheckbox_marker]|]).
  discriminate.
Qed.

Lemma checkbox_update_on_a_step_line_witness :
  exists m',
    Regexp.FindStringSubmatch Parser.stepLineRegex
      (Writer.updateCheckbox "- [ ] Step 1: tick [x] boxes" "!") = Some m'
    /\ Parser.parseCheckbox (Regexp.group m' 1) = Plan.StatusFailed.
Proof.
  refine (checkbox_update_on_a_step_line "- [ ] Step 1: tick [x] boxes"
            [(3%nat, "tick [x] boxes"); (2%nat, "1"); (1%nat, " ")] "!" _ _ _).
  - vm_compute. reflexivity.
  - vm_compute. reflexivity.
  - vm_compute. reflexivity.
Defined.

(** X8. Applying [updateCheckbox] twice with the same marker [ ], [x]
    or [!] gives what applying it once gives. *)
Theorem checkbox_update_is_idempotent (l : string) (M : ascii) :
  Regexp.oneOf " x!" M = true ->
  Writer.updateCheckbox (Writer.updateCheckbox l (String M EmptyString))
                        (String M EmptyString)
  = Writer.updateCheckbox l (String M EmptyString).
Proof. apply CheckboxFacts.updateCheckbox_idem. Qed.

Lemma checkbox_update_is_idempotent_witness :
  Writer.updateCheckbox (Writer.updateCheckbox "- [ ] a [!] b" "x") "x"
  = Writer.updateCheckbox "- [ ] a [!] b" "x".
Proof. apply (checkbox_update_is_idempotent "- [ ] a [!] b" "x"). vm_compute. reflexivity. Defined.

(** X9. Patching a document a second time for the same step with the
    same result gives what patching it once gives, at the clock reading
    of the second patch: only the [**Last Run**:] lines of the blocks
    of the step can differ from the first patch. This holds when the
    reason of the result is a single line and the document either has
    an annotation header for the step already, or has no annotation
    header at all and the step number is not negative and fits an
    [int]. *)
Theorem patch_twice_is_patch_once (d : string) (n : Z) (r : Plan.StepResult)
        (t1 t2 : Time.t) (d1 : string) :
  Spec.oneLine (Plan.Reason r) ->
  Spec.hasBlock n d \/ (Spec.noHeader d /\ 0 <= n <= Fmt.maxInt) ->
  Writer.updateStepInContent d n r t1 = Some d1 ->
  Writer.updateStepInContent d1 n r t2 = Writer.updateStepInContent d n r t2.
Proof. apply PatchFacts.patch_again. Qed.

Lemma patch_twice_is_patch_once_witness :
  exists d1,
    Writer.updateStepInContent Spec.twoBlocksPlan 1 Spec.boom (Time.mk 2026 1 17 10 30 0)
    = Some d1
    /\ Writer.updateStepInContent d1 1 Spec.boom (Time.mk 2026 1 17 10 45 0)
       = Writer.updateStepInContent Spec.twoBlocksPlan 1 Spec.boom
           (Time.mk 2026 1 17 10 45 0).
Proof.
  eexists. split; [vm_compute; reflexivity|].
  apply (patch_twice_is_patch_once Spec.twoBlocksPlan 1 Spec.boom
           (Time.mk 2026 1 17 10 30 0) (Time.mk 2026 1 17 10 45 0)).
  - vm_compute. reflexivity.
  - left. vm_compute. reflexivity.
  - vm_compute. reflexivity.
Defined.

(** ** The parser, parser.go *)

(** X10. [parseStepNumber] reads back the number that [%d] prints: a
    number from 0 to the greatest [int] comes back as itself, and a
    greater one, which [Sscanf] rejects, comes back as 0. *)
Theorem step_number_read_back (n : Z) :
  0 <= n ->
  Parser.parseStepNumber (Fmt.itoa n) = (if n <=? Fmt.maxInt then n else 0).
Proof.
  intros Hn. unfold Parser.parseStepNumber, Fmt.scanInt.
  destruct n as [|p|p]; [done| |lia].
  unfold Fmt.itoa. rewrite NilEmpty.usu, DecimalN.Unsigned.of_to.
  simpl Z.of_N. by destruct (Z.pos p <=? Fmt.maxInt).
Qed.

Lemma step_number_read_back_witness :
  Parser.parseStepNumber (Fmt.itoa 9223372036854775808) = 0
  /\ Parser.parseStepNumber (Fmt.itoa 42) = 42.
Proof.
  split.
  - apply (step_number_read_back 9223372036854775808). lia.
  - apply (step_number_read_back 42). lia.
Defined.

(** X11. The patch is textual: the patched document is the lines of
    the document, each one either kept byte for byte or, when it is a
    checkbox line, with its checkbox rewritten, or, when it is a
    [**Status**:], [**Last Run**:] or [**Notes**:] line, replaced by
    the line written for the result; and at one place at most the
    writer adds lines: a blank line and a new block, or at the end the
    whole annotation section. *)
Theorem patch_changes_only_its_lines (d : string) (n : Z) (r : Plan.StepResult)
        (now : Time.t) (d' : string) :
  Writer.updateStepInContent d n r now = Some d' ->
  exists pre post ins,
    d' = Strings.Join (pre ++ ins ++ post) Writer.nl
    /\ Forall2 (Spec.patched r now) (Strings.Split d Byte.LF) (pre ++ post)
    /\ Spec.added n r now ins post.
Proof. apply PatchLines.patched_lines. Qed.

Lemma patch_changes_only_its_lines_witness :
  exists d' pre post ins,
    Writer.updateStepInContent Spec.strayNotesPlan 1 Spec.boom (Time.mk 2026 1 17 10 30 0)
    = Some d'
    /\ d' = Strings.Join (pre ++ ins ++ post) Writer.nl
    /\ Forall2 (Spec.patched Spec.boom (Time.mk 2026 1 17 10 30 0))
               (Strings.Split Spec.strayNotesPlan Byte.LF) (pre ++ post)
    /\ Spec.added 1 Spec.boom (Time.mk 2026 1 17 10 30 0) ins post.
Proof.
  eexists.
  assert (forall d' (H : Writer.updateStepInContent Spec.strayNotesPlan 1 Spec.boom
                          (Time.mk 2026 1 17 10 30 0) = Some d'),
            exists pre post ins,
              Writer.updateStepInContent Spec.strayNotesPlan 1 Spec.boom
                (Time.mk 2026 1 17 10 30 0) = Some d'
              /\ d' = Strings.Join (pre ++ ins ++ post) Writer.nl
              /\ Forall2 (Spec.patched Spec.boom (Time.mk 2026 1 17 10 30 0))
                         (Strings.Split Spec.strayNotesPlan Byte.LF) (pre ++ post)
              /\ Spec.added 1 Spec.boom (Time.mk 2026 1 17 10 30 0) ins post) as W.
  { intros d' H.
    destruct (patch_changes_only_its_lines _ _ _ _ _ H) as (pre & post & ins & W).
    exists pre, post, ins. by split. }
  apply W. vm_compute. reflexivity.
Defined.

(** X12. The patch rewrites the checkbox of one checkbox line at most:
    when the reason of the result is a single line, the checkbox lines
    of the patched document are those of the document, in the same
    order, with [updateCheckbox] applied to the [n]-th of them (to none
    when [n] is not the position of a checkbox line). *)
Theorem patch_ticks_the_nth_checkbox_line (d : string) (n : Z) (r : Plan.StepResult)
        (now : Time.t) (d' : string) :
  Spec.oneLine (Plan.Reason r) ->
  Writer.updateStepInContent d n r now = Some d' ->
  Spec.stepLines d'
  = (if 0 <? n
     then alter (fun l => Writer.updateCheckbox l (Spec.newMarker r))
                (Z.to_nat (n - 1)) (Spec.stepLines d)
     else Spec.stepLines d).
Proof.
  intros HR. apply PatchLines.stepLines_patch. by apply WriterViews.notesText_oneLine.
Qed.

Lemma patch_ticks_the_nth_checkbox_line_witness :
  exists d',
    Writer.updateStepInContent Spec.twoBlocksPlan 2 Spec.boom (Time.mk 2026 1 17 10 30 0)
    = Some d'
    /\ Spec.stepLines d' = ["- [ ] a"; "- [!] b"].
Proof.
  eexists. split; [vm_compute; reflexivity|].
  refine (eq_trans
            (patch_ticks_the_nth_checkbox_line Spec.twoBlocksPlan 2 Spec.boom
               (Time.mk 2026 1 17 10 30 0) _ _ _) _).
  - vm_compute. reflexivity.
  - vm_compute. reflexivity.
  - vm_compute. reflexivity.
Defined.

(** ** The loop, runner.go *)

(** X13. When the plan file has no line as long as the buffer of the
    line reader and every checkbox line outside the context block has
    the marker [x] or [-] (a document without checkbox lines is such a
    document), a turn of the loop that is not cancelled returns nil:
    the agent is not invoked and the file is not written. *)
Theorem finished_document_ends_the_loop
        (time_Parse : string -> option Time.t) (Duration_String : Loop.Duration -> string)
        (config : Loop.Config) (env : Loop.Env) (content : string) :
  Loop.cancelledAtTop env = false ->
  Spec.linesFit content ->
  Forall Spec.closedLine (Spec.checkboxLines content) ->
  Loop.turn time_Parse Duration_String config env content = (content, [], Loop.ReturnNil).
Proof. apply TurnFacts.finished_turn. Qed.

Lemma finished_document_ends_the_loop_witness :
  Loop.turn (fun _ => None) (fun _ => EmptyString) Loop.DefaultConfig Spec.failingAgent
            (Spec.text ["# Project: Demo"; "- [x] a"; "- [-] b"])
  = (Spec.text ["# Project: Demo"; "- [x] a"; "- [-] b"], [], Loop.ReturnNil).
Proof.
  apply finished_document_ends_the_loop.
  - reflexivity.
  - unfold Spec.linesFit.
    change (Strings.Split (Spec.text ["# Project: Demo"; "- [x] a"; "- [-] b"]) Byte.LF)
      with ["# Project: Demo"; "- [x] a"; "- [-] b"].
    repeat constructor.
  - change (Spec.checkboxLines (Spec.text ["# Project: Demo"; "- [x] a"; "- [-] b"]))
      with ["- [x] a"; "- [-] b"].
    repeat constructor.
    + exists [(3%nat, "a"); (1%nat, "x")]. split; [vm_compute; reflexivity|by left].
    + exists [(3%nat, "b"); (1%nat, "-")]. split; [vm_compute; reflexivity|by right].
Defined.

(** X14. In one turn of the loop the agent is invoked at most once and
    the plan file is written at most once; a turn that goes on to the
    next one has written the file as its last action, and the file
    holds what was written; and the content of the file changes in no
    other way than by that write. *)
Theorem turn_persists_before_continuing
        (time_Parse : string -> option Time.t) (Duration_String : Loop.Duration -> string)
        (config : Loop.Config) (env : Loop.Env)
        (content content' : string) (events : list Loop.Event) (next : Loop.Next) :
  Loop.turn time_Parse Duration_String config env content = (content', events, next) ->
  (length (filter (fun e => Spec.isInvoke e = true) events) <= 1)%nat
  /\ (next = Loop.Continue -> exists before, events = before ++ [Loop.WriteFile content'])
  /\ (filter (fun e => Spec.isWrite e = true) events = [] -> content' = content)
  /\ (length (filter (fun e => Spec.isWrite e = true) events) <= 1)%nat.
Proof. apply TurnFacts.turn_events. Qed.

Lemma turn_persists_before_continuing_witness :
  exists content' events next,
    Loop.turn (fun _ => None) (fun _ => EmptyString) Loop.DefaultConfig
              Spec.failingAgent Spec.retriedPlan = (content', events, next)
    /\ (length (filter (fun e => Spec.isInvoke e = true) events) <= 1)%nat
    /\ (next = Loop.Continue -> exists before, events = before ++ [Loop.WriteFile content'])
    /\ (filter (fun e => Spec.isWrite e = true) events = [] -> content' = Spec.retriedPlan)
    /\ (length (filter (fun e => Spec.isWrite e = true) events) <= 1)%nat.
Proof.
  eexists. eexists. eexists.
  assert (forall x, Loop.turn (fun _ => None) (fun _ => EmptyString) Loop.DefaultConfig
                      Spec.failingAgent Spec.retriedPlan = x ->
                    Loop.turn (fun _ => None) (fun _ => EmptyString) Loop.DefaultConfig
                      Spec.failingAgent Spec.retriedPlan = (fst (fst x), snd (fst x), snd x))
    as E by (intros [[? ?] ?] H; exact H).
  split; [apply E; vm_compute; reflexivity|].
  apply (turn_persists_before_continuing (fun _ => None) (fun _ => EmptyString)
           Loop.DefaultConfig Spec.failingAgent Spec.retriedPlan).
  apply E. vm_compute. reflexivity.
Defined.

(** ** The plan written anew, writer.go *)

(** X15. What [Parse] reads in the text that [WriteFile] writes for a
    plan. The plan is to have a title of one line that does not end
    with a carriage return, a context without a line that begins a
    section ([## word]), steps numbered 1, 2, ... in order, not more
    than the greatest [int], each with a description that is one
    line, not empty and trimmed, a status of one line, notes of one
    line that do not begin with white space, none of them ending with
    a carriage return, and a time stamp that the reading of time
    stamps gives back; and the text is to have no line as long as the
    buffer of the line reader. Then [Parse] succeeds and finds the
    steps of the plan with their numbers, descriptions and time
    stamps, except that a status other than completed and failed is
    read as pending (a skipped step comes back pending), notes that
    are the text [(none)] are read as empty, and every retry count is
    read as 0. *)
Theorem written_plan_is_read_back
        (time_Parse : string -> option Time.t) (p : Plan.Plan) :
  Spec.wellWritten time_Parse p ->
  Spec.linesFit (Render.WriteFile p) ->
  exists p',
    Parser.Parse time_Parse (Render.WriteFile p) = Some p'
    /\ Plan.Steps p' = map Spec.readBack (Plan.Steps p)
    /\ Plan.RawContent p' = Render.WriteFile p.
Proof. apply RenderScan.Parse_WriteFile. Qed.

Lemma written_plan_is_read_back_witness :
  exists p',
    Parser.Parse Spec.parseDemoTime (Render.WriteFile Spec.savedPlan) = Some p'
    /\ Plan.Steps p' = map Spec.readBack (Plan.Steps Spec.savedPlan)
    /\ Plan.RawContent p' = Render.WriteFile Spec.savedPlan.
Proof.
  apply written_plan_is_read_back.
  - split; [reflexivity|]. split; [reflexivity|].
    split; [by repeat constructor|]. split; [by repeat split|].
    split; [vm_compute; discriminate|].
    repeat constructor; try done.
    + intros t [= <-]. reflexivity.
  - unfold Spec.linesFit.
    let v := eval vm_compute in (Strings.Split (Render.WriteFile Spec.savedPlan) Byte.LF) in
    change (Strings.Split (Render.WriteFile Spec.savedPlan) Byte.LF) with v.
    repeat constructor.
Defined.

(** ** The detector of prompts, promptdetector.go *)

(** X16. For a width of 3 or more [formatBoxLine] does not fail. A
    line whose text without escape sequences is longer than the width
    is cut to exactly the width, three dots included; another line is
    padded, and has the width plus the bytes of its escape sequences.
    A line without the byte ESC comes out with exactly the width. *)
Theorem box_line_has_the_width (line : string) (width : Z) :
  3 <= width ->
  exists s,
    Detector.formatBoxLine line width = Some s
    /\ Strings.len s
       = (if width <? Strings.len (Detector.stripAnsi line) then width
          else width + (Strings.len line - Strings.len (Detector.stripAnsi line)))
    /\ (Spec.hasByte Detector.ESC line = false -> Strings.len s = width).
Proof.
  intros Hw. destruct (DetectorFacts.formatBoxLine_width line width Hw) as (s & E & L).
  exists s. split; [done|]. split; [done|]. intros H.
  rewrite L, (DetectorFacts.stripAnsi_noESC line H).
  destruct (width <? Strings.len line); lia.
Qed.

Lemma box_line_has_the_width_witness :
  exists s,
    Detector.formatBoxLine "Do you want to continue? [y/n]" 74 = Some s
    /\ Strings.len s
       = (if 74 <? Strings.len (Detector.stripAnsi "Do you want to continue? [y/n]") then 74
          else 74 + (Strings.len "Do you want to continue? [y/n]"
                      - Strings.len (Detector.stripAnsi "Do you want to continue? [y/n]")))
    /\ (Spec.hasByte Detector.ESC "Do you want to continue? [y/n]" = false
        -> Strings.len s = 74).
Proof. apply (box_line_has_the_width "Do you want to continue? [y/n]" 74). lia. Defined.

(** X17. The context that [getQuestionContext] returns is made of the
    last five of the recent lines, trimmed, the blank ones left out,
    or is the one line [(no context available)] when nothing is left;
    it has from one to five lines and none of them is empty. *)
Theorem question_context_is_the_last_five_lines (recentLines : list string) :
  Detector.getQuestionContext recentLines
  = match filter (fun l => l <> EmptyString)
                 (map Strings.TrimSpace (Spec.lastN 5 recentLines)) with
    | [] => ["(no context available)"]
    | c => c
    end
  /\ (1 <= length (Detector.getQuestionContext recentLines) <= 5)%nat
  /\ Forall (fun l => l <> EmptyString) (Detector.getQuestionContext recentLines).
Proof.
  split; [apply DetectorFacts.getQuestionContext_spec|].
  apply DetectorFacts.getQuestionContext_size.
Qed.

(** X18. [Write] does not fail, and when the underlying writer reports
    no error the buffer of recent lines afterwards holds the last ten
    of the lines it held followed by the lines of the text that are
    not blank; with an error the buffer is unchanged. This holds when
    the buffer holds ten lines at most, as it does after [Reset] and
    after every [Write]. *)
Theorem recent_lines_are_the_last_ten
        (matchesPromptPattern : string -> bool) (writeErr : bool) (now : nat -> Z)
        (p : string) (st : Detector.state) :
  (length (Detector.recentLines st) <= 10)%nat ->
  exists st' shown,
    Detector.Write matchesPromptPattern writeErr now p st = Some (st', shown)
    /\ Detector.recentLines st'
       = (if writeErr then Detector.recentLines st
          else Spec.lastN 10 (Detector.recentLines st
                                 ++ filter Spec.nonBlank (Strings.Split p Byte.LF)))
    /\ (length (Detector.recentLines st') <= 10)%nat.
Proof.
  intros HL.
  destruct (DetectorFacts.Write_spec matchesPromptPattern writeErr now p st HL)
    as (st' & shown & E & R & _).
  exists st', shown. split; [done|]. split; [done|].
  rewrite R. destruct writeErr; [done|apply DetectorFacts.lastN_length].
Qed.

Lemma recent_lines_are_the_last_ten_witness :
  exists st' shown,
    Detector.Write (fun _ => false) false (fun _ => 0)
                   (Spec.text ["a"; EmptyString; "b"])
                   (Detector.Reset (Detector.mkState ["x"] None true))
    = Some (st', shown)
    /\ Detector.recentLines st'
       = Spec.lastN 10 ([] ++ filter Spec.nonBlank
                                  (Strings.Split (Spec.text ["a"; EmptyString; "b"]) Byte.LF))
    /\ (length (Detector.recentLines st') <= 10)%nat.
Proof.
  apply (recent_lines_are_the_last_ten (fun _ => false) false (fun _ => 0)
           (Spec.text ["a"; EmptyString; "b"])
           (Detector.Reset (Detector.mkState ["x"] None true))).
  cbn. lia.
Defined.

(** X19. A detector that holds ten recent lines at most shows one
    warning box at most, whatever is written to it and whenever the
    stall monitor checks it, and none at all when it has warned
    already: no call fails, and the boxes of a prompt and of a stall
    exclude each other until [Reset]. *)
Theorem one_warning_until_reset
        (matchesPromptPattern : string -> bool) (cs : list Spec.call)
        (st : Detector.state) :
  (length (Detector.recentLines st) <= 10)%nat ->
  exists st' shown,
    Spec.calls matchesPromptPattern cs st = Some (st', shown)
    /\ (length shown <= 1)%nat
    /\ (shown <> [] -> Detector.warned st' = true)
    /\ (Detector.warned st = true -> shown = []).
Proof.
  intros HL.
  destruct (DetectorFacts.calls_once matchesPromptPattern cs st HL)
    as (st' & shown & E & _ & N & B & W).
  exists st', shown. split; [done|]. split; [done|]. split; [done|].
  intros Hw. by destruct (W Hw).
Qed.

Lemma one_warning_until_reset_witness :
  exists st' shown,
    Spec.calls (fun l => Strings.Contains l "[y/n]")
                [Spec.CallWrite false (fun _ => 0) "Proceed? [y/n]";
                 Spec.CallCheck 31000000000;
                 Spec.CallWrite false (fun _ => 32000000000) "again [y/n]"]
                (Detector.mkState [] None false)
    = Some (st', shown)
    /\ (length shown <= 1)%nat
    /\ (shown <> [] -> Detector.warned st' = true)
    /\ (Detector.warned (Detector.mkState [] None false) = true -> shown = []).
Proof.
  apply (one_warning_until_reset (fun l => Strings.Contains l "[y/n]")).
  cbn. lia.
Defined.

(** ** The title and the context, parser.go *)

(** X20. The project name of a parsed plan is the trimmed capture of
    the last title line of the document, wherever that line stands
    (a title line inside the context block or among the annotations
    counts as well), and is empty when there is no title line. *)
Theorem project_name_is_the_last_title_line
        (time_Parse : string -> option Time.t) (content : string) (p : Plan.Plan) :
  Parser.Parse time_Parse content = Some p ->
  Plan.ProjectName p = Spec.lastTitle (Bufio.Lines content).
Proof. apply ContextFacts.Parse_title. Qed.

Lemma project_name_is_the_last_title_line_witness :
  exists p,
    Parser.Parse (fun _ => None)
      (Spec.text ["# Project: First"; "## Context"; "#  Project:  Second  "; "## Plan"])
    = Some p
    /\ Plan.ProjectName p
       = Spec.lastTitle
           (Bufio.Lines
              (Spec.text ["# Project: First"; "## Context"; "#  Project:  Second  ";
                          "## Plan"])).
Proof.
  eexists. split; [vm_compute; reflexivity|].
  apply (project_name_is_the_last_title_line (fun _ => None)).
  vm_compute. reflexivity.
Defined.

(** X21. For a document with one context block that a section closes:
    when the lines read are some lines without a context header, a
    context header, lines that are neither a title nor a context
    header nor the beginning of a section, a line that begins a
    section, and lines without a context header, the context of the
    parsed plan is the lines of the block joined by newlines and
    trimmed. *)
Theorem context_is_the_block_before_the_next_section
        (time_Parse : string -> option Time.t) (content : string) (p : Plan.Plan)
        (before body after : list string) (hdr closer : string) :
  Parser.Parse time_Parse content = Some p ->
  Bufio.Lines content = before ++ hdr :: body ++ closer :: after ->
  Forall (fun l => Regexp.MatchString Parser.contextSectionRegex l = false) before ->
  Spec.opensContext hdr -> Forall Spec.staysInContext body -> Spec.closesContext closer ->
  Forall (fun l => Regexp.MatchString Parser.contextSectionRegex l = false) after ->
  Plan.Context p = Strings.TrimSpace (Strings.Join body Writer.nl).
Proof.
  unfold Parser.Parse. destruct (Bufio.Err content); [done|]. intros [= <-] ->.
  apply ContextFacts.context_block.
Qed.

Lemma context_is_the_block_before_the_next_section_witness :
  exists p,
    Parser.Parse (fun _ => None)
      (Spec.text ["# Project: Demo"; "## Context"; EmptyString; "A tool."; "- [ ] not a step";
                  EmptyString; "## Plan"; "- [ ] a"])
    = Some p
    /\ Plan.Context p
       = Strings.TrimSpace
           (Strings.Join [EmptyString; "A tool."; "- [ ] not a step"; EmptyString] Writer.nl).
Proof.
  eexists. split; [vm_compute; reflexivity|].
  apply (context_is_the_block_before_the_next_section (fun _ => None)
           (Spec.text ["# Project: Demo"; "## Context"; EmptyString; "A tool.";
                       "- [ ] not a step"; EmptyString; "## Plan"; "- [ ] a"])
           _ ["# Project: Demo"] [EmptyString; "A tool."; "- [ ] not a step"; EmptyString]
           ["- [ ] a"] "## Context" "## Plan").
  - vm_compute. reflexivity.
  - vm_compute. reflexivity.
  - repeat constructor.
  - split; vm_compute; reflexivity.
  - repeat constructor.
  - repeat split; vm_compute; reflexivity.
  - repeat constructor.
Defined.

(** X22. The context is saved only when a section closes the block:
    in a document where every line that begins a section is a context
    header (or a title line), the context of the parsed plan is
    empty, whatever the block holds. *)
Theorem context_without_closing_section_is_dropped
        (time_Parse : string -> option Time.t) (content : string) (p : Plan.Plan) :
  Parser.Parse time_Parse content = Some p ->
  Forall (fun l => Spec.titleOf l <> None
                   \/ Regexp.MatchString Parser.contextSectionRegex l = true
                   \/ Regexp.MatchString Parser.sectionHeaderRegex l = false)
         (Bufio.Lines content) ->
  Plan.Context p = EmptyString.
Proof.
  unfold Parser.Parse. destruct (Bufio.Err content); [done|]. intros [= <-].
  apply ContextFacts.context_unclosed.
Qed.

Lemma context_without_closing_section_is_dropped_witness :
  exists p,
    Parser.Parse (fun _ => None)
      (Spec.text ["# Project: Demo"; "## Context"; "A tool."; "- [ ] a"]) = Some p
    /\ Plan.Context p = EmptyString.
Proof.
  eexists. split; [vm_compute; reflexivity|].
  apply (context_without_closing_section_is_dropped (fun _ => None)
           (Spec.text ["# Project: Demo"; "## Context"; "A tool."; "- [ ] a"])).
  - vm_compute. reflexivity.
  - change (Bufio.Lines (Spec.text ["# Project: Demo"; "## Context"; "A tool."; "- [ ] a"]))
      with ["# Project: Demo"; "## Context"; "A tool."; "- [ ] a"].
    apply List.Forall_cons; [left; vm_compute; discriminate|].
    apply List.Forall_cons; [right; left; vm_compute; reflexivity|].
    apply List.Forall_cons; [right; right; vm_compute; reflexivity|].
    apply List.Forall_cons; [right; right; vm_compute; reflexivity|].
    apply List.Forall_nil.
Defined.

(** ** The title and the context written anew, writer.go and parser.go *)

(** X23. The title and the context of a plan come back trimmed from
    the text that [WriteFile] writes. For a plan as in X15 whose
    context has no line that is a title line, a context header or the
    beginning of a section, and no line that ends with a carriage
    return, [Parse] of the written text succeeds and gives the project
    name and the context of the plan without the white space around
    them; a plan with an empty title or an empty context gets them
    back empty. *)
Theorem written_title_and_context_are_read_back
        (time_Parse : string -> option Time.t) (p : Plan.Plan) :
  Spec.wellWritten time_Parse p ->
  Spec.linesFit (Render.WriteFile p) ->
  Spec.plainContext (Plan.Context p) ->
  exists p',
    Parser.Parse time_Parse (Render.WriteFile p) = Some p'
    /\ Plan.ProjectName p' = Strings.TrimSpace (Plan.ProjectName p)
    /\ Plan.Context p' = Strings.TrimSpace (Plan.Context p).
Proof. apply RenderContext.Parse_WriteFile_context. Qed.

Lemma written_title_and_context_are_read_back_witness :
  exists p',
    Parser.Parse Spec.parseDemoTime (Render.WriteFile Spec.framedPlan) = Some p'
    /\ Plan.ProjectName p' = "Demo"
    /\ Plan.Context p' = Spec.text ["Builds the demo."; "- [ ] not a step"].
Proof.
  apply (written_title_and_context_are_read_back Spec.parseDemoTime Spec.framedPlan).
  - split; [reflexivity|]. split; [reflexivity|].
    split; [by repeat constructor|]. split; [by repeat split|].
    split; [vm_compute; discriminate|].
    repeat constructor; try done.
    + intros t [= <-]. reflexivity.
  - unfold Spec.linesFit.
    let v := eval vm_compute in (Strings.Split (Render.WriteFile Spec.framedPlan) Byte.LF) in
    change (Strings.Split (Render.WriteFile Spec.framedPlan) Byte.LF) with v.
    repeat constructor.
  - unfold Spec.plainContext.
    change (Strings.Split (Plan.Context Spec.framedPlan) Byte.LF)
      with [EmptyString; "Builds the demo."; "- [ ] not a step"; EmptyString].
    do 4 (apply List.Forall_cons; [by repeat split; vm_compute|]).
    apply List.Forall_nil.
Defined.
